(** * Continuous-batching model runner of vllm-spyre: block pool, shared
    cursor and request lifecycle

    Shallow embedding of [src/vllm_spyre/v1/worker/spyre_model_runner.py]
    (classes [SpyreModelRunner] and [ContinuousBatchingSpyreModelRunner]).

    - Python integers are [Z]; [//] and [%] with a positive divisor are
      [Z.div] and [Z.modulo] (both round towards minus infinity).
    - A Python [dict] is an insertion-ordered association list with unique
      keys ([dict V]); the order matters because [reduce_left_padding]
      walks [self.requests.values()] and appends freed blocks to the pool in
      that order.
    - A [collections.deque] of block ids is a [list Z]; [popleft] takes the
      head, [append] adds at the end.
    - A Python exception aborts the step: every method that can raise
      returns [result], and the partially mutated runner is dropped with
      the exception (the exception leaves [execute_model]).
    - Tensors of integers are lists of rows. *)

From stdpp Require Import prelude strings.

Local Open Scope string_scope.
Local Open Scope list_scope.
Local Open Scope Z_scope.

(** ** Exceptions and the error monad *)

Inductive exn : Type :=
| AssertionError (what : string)
| IndexError (what : string)
| KeyError (key : string)
| AttributeError (what : string)
| UnboundLocalError (what : string)
| ValueError (what : string).

Inductive result (A : Type) : Type :=
| Ok (a : A)
| Raise (e : exn).
Arguments Ok {A} a.
Arguments Raise {A} e.

#[global] Instance result_ret : MRet result := fun A a => Ok a.
#[global] Instance result_bind : MBind result := fun A B f m =>
  match m with
  | Ok a => f a
  | Raise e => Raise e
  end.

Definition py_assert (b : bool) (what : string) : result unit :=
  if b then Ok tt else Raise (AssertionError what).

(** ** Python dictionaries *)

Definition dict (V : Type) : Type := list (string * V).

Definition keys {V} (d : dict V) : list string := d.*1.
Definition values {V} (d : dict V) : list V := d.*2.

Fixpoint dget {V} (k : string) (d : dict V) : option V :=
  match d with
  | [] => None
  | (k', v) :: d' => if decide (k = k') then Some v else dget k d'
  end.

(** [d[k] = v]: replaces the value in place or appends a new binding. *)
Fixpoint dset {V} (k : string) (v : V) (d : dict V) : dict V :=
  match d with
  | [] => [(k, v)]
  | (k', v') :: d' =>
      if decide (k = k') then (k, v) :: d' else (k', v') :: dset k v d'
  end.

(** The dictionary left by [d.pop(k, None)]. *)
Fixpoint dpop {V} (k : string) (d : dict V) : dict V :=
  match d with
  | [] => []
  | (k', v') :: d' => if decide (k = k') then d' else (k', v') :: dpop k d'
  end.

(** [d[k]], raising [KeyError] *)
Definition dindex {V} (k : string) (d : dict V) : result V :=
  match dget k d with
  | Some v => Ok v
  | None => Raise (KeyError k)
  end.

(** ** Python built-ins on integers and lists *)

(** [math.ceil(n / d)] for [d > 0]. The source divides in floating point
    and takes the ceiling of the rounded quotient; [ceil_div] is the
    ceiling of the exact quotient. The two agree on [float_exact]
    numerators and can differ from [2^53] on. *)
Definition ceil_div (n d : Z) : Z := - ((- n) / d).

(** The numerators for which the floating-point [math.ceil(n / d)] is the
    integer ceiling: for [0 <= n < 2^53] and an integer [d >= 1] the double
    nearest to [n / d] lies between the same two integers as [n / d], since
    a non-integer quotient is at least [1 / d] away from an integer and the
    doubles up to [2^53 / d] are spaced less than [2 / d] apart. From [2^53]
    on the rounding can reach the integer below, and the source then
    records a smaller number. Lengths of lists and cursors built from them
    are in this range; a number sent by the scheduler, such as
    [max_tokens], need not be. *)
Definition float_exact (n : Z) : Prop := 0 <= n < 2 ^ 53.

(** [range(n)] *)
Definition range (n : Z) : list Z := seqZ 0 n.

(** [len(l)] *)
Definition len {A} (l : list A) : Z := Z.of_nat (length l).

(** [sum(l)] *)
Definition sum (l : list Z) : Z := foldr Z.add 0 l.

(** [min(l)] of a non-empty list *)
Fixpoint py_min (l : list Z) : result Z :=
  match l with
  | [] => Raise (ValueError "min() arg is an empty sequence")
  | [x] => Ok x
  | x :: l' => m ← py_min l'; Ok (Z.min x m)
  end.

(** [q.popleft()] on a deque *)
Definition popleft (q : list Z) : result (Z * list Z) :=
  match q with
  | [] => Raise (IndexError "pop from an empty deque")
  | b :: q' => Ok (b, q')
  end.

(** [l[-1]] *)
Definition py_last {A} (l : list A) : result A :=
  match last l with
  | Some x => Ok x
  | None => Raise (IndexError "index out of range")
  end.

(** [l[i]] for [i >= 0] *)
Definition py_nth {A} (i : nat) (l : list A) : result A :=
  match l !! i with
  | Some x => Ok x
  | None => Raise (IndexError "list index out of range")
  end.

(** [l[-k:]] for [k > 0] *)
Definition py_suffix {A} (k : Z) (l : list A) : list A :=
  drop (length l - Z.to_nat k) l.

(** [enumerate(l)] *)
Definition enumerate {A} (l : list A) : list (nat * A) := imap (fun i x => (i, x)) l.

(** ** Data model *)

Module SamplingParams.
(** [seed] is [Some] exactly when [sampling_type] is [RANDOM_SEED]. *)
Record t : Type := mk {
  max_tokens : Z;
  seed : option Z;
}.
End SamplingParams.

Module NewRequestData.
Record t : Type := mk {
  req_id : string;
  prompt_token_ids : list Z;
  sampling_params : option SamplingParams.t;
}.
End NewRequestData.

Module CachedRequestData.
Record t : Type := mk {
  req_ids : list string;
  num_computed_tokens : list Z;
  new_token_ids : list (list Z);
}.
End CachedRequestData.

Module SchedulerOutput.
(** [finished_req_ids] is a set in the source, listed here without
    repetition. *)
Record t : Type := mk {
  scheduled_new_reqs : list NewRequestData.t;
  scheduled_cached_reqs : CachedRequestData.t;
  finished_req_ids : list string;
  total_num_scheduled_tokens : Z;
}.
End SchedulerOutput.

Module CachedRequestState.
(** The [generator] is kept as the seed it was created from. *)
Record t : Type := mk {
  req_id : string;
  prompt_token_ids : list Z;
  sampling_params : option SamplingParams.t;
  generator : option Z;
  output_token_ids : list Z;
  left_padding : Z;
}.

(** Modelled from the spec: the property [num_tokens] of
    [CachedRequestState] (spyre_input_batch.py is not part of the sources):
    the token history is the prompt tokens followed by the output tokens. *)
Definition num_tokens (r : t) : Z :=
  len (prompt_token_ids r) + len (output_token_ids r).

Definition set_left_padding (lp : Z) (r : t) : t :=
  mk (req_id r) (prompt_token_ids r) (sampling_params r) (generator r)
     (output_token_ids r) lp.

Definition extend_output (toks : list Z) (r : t) : t :=
  mk (req_id r) (prompt_token_ids r) (sampling_params r) (generator r)
     (output_token_ids r ++ toks) (left_padding r).
End CachedRequestState.

Module InputBatch.
(** Modelled from the spec: the slot table [InputBatch]
    (spyre_input_batch.py is not part of the sources). Only its membership
    is kept, as the list of the resident request ids in the order of their
    admission. [add_request] fails when the capacity is exceeded;
    [remove_request] of an absent id is a no-op;
    [get_unpadded_output_indices] maps each id to its index. The table of
    the spec keeps a removed slot inactive until it is compacted and gives a
    new request the next free index; the list below keeps no inactive slot,
    so it has the members of that table, and their order only as long as no
    freed slot is taken again. *)
Definition t : Type := list string.

(** Modelled from the spec: [add] uses the next free dense index and fails
    if the capacity is exceeded. *)
Definition add_request (max_num_reqs : Z) (rid : string) (b : t) : result t :=
  _ ← py_assert (len b <? max_num_reqs) "req_index < self.max_num_reqs";
  Ok (b ++ [rid]).

(** Modelled from the spec: [remove] ends the membership of the request;
    removing a request that is not present is a no-op. The spec marks the
    slot inactive and compacts later; here the later entries move up at
    once. *)
Fixpoint remove_request (rid : string) (b : t) : t :=
  match b with
  | [] => []
  | r :: b' => if decide (rid = r) then b' else r :: remove_request rid b'
  end.

(** Modelled from the spec: an emptied slot table. *)
Definition clear_requests (b : t) : t := [].

(** Modelled from the spec: the resident ids in the order of the indices
    of [get_unpadded_output_indices]. The spec does not describe
    [sorted_requests_ids]; the runner walks it to build the rows of a decode
    step and reports [get_unpadded_output_indices] for the same step. *)
Definition sorted_requests_ids (b : t) : list string := b.

(** Modelled from the spec: [unpadded_output_indices] maps a request id to
    its dense index. *)
Definition get_unpadded_output_indices (b : t) : dict nat :=
  imap (fun i rid => (rid, i)) b.
End InputBatch.

(** Inputs of the forward pass. The attention mask ([input_masks]) is a
    floating-point tensor consumed only by the forward pass and is left
    out. *)
Module ModelForwardInputs.
Record t : Type := mk {
  input_tokens : list (list Z);
  input_positions : list (list Z);
  current_tkv_mask : option (list Z);
  left_padded_prompt_mask : option (list Z);
  block_table : option (list (list Z));
  slot_mapping : list (list Z);
  is_prompt : bool;
}.
End ModelForwardInputs.

(** [CBSpyreModelRunnerOutput]; the log-probability fields are produced by
    the sampler and left out. *)
Module CBSpyreModelRunnerOutput.
Record t : Type := mk {
  req_ids : list string;
  req_id_to_index : dict nat;
  sampled_token_ids : list (list Z);
  tkv : Z;
  n_free_blocks : Z;
}.
End CBSpyreModelRunnerOutput.

(** [EMPTY_MODEL_RUNNER_OUTPUT] and [ModelRunnerOutput] *)
Module ModelRunnerOutput.
Record t : Type := mk {
  req_ids : list string;
  req_id_to_index : dict nat;
  sampled_token_ids : list (list Z);
}.
Definition EMPTY_MODEL_RUNNER_OUTPUT : t := mk [] [] [].
End ModelRunnerOutput.

(** Configuration read by the runner. [block_size] is
    [SpyrePlatform.get_block_size()], a positive constant of the platform;
    [num_spyre_blocks_override] is
    [SpyrePlatform.get_num_spyre_blocks_override()]. *)
Record Config : Type := mkConfig {
  block_size_pos : positive;
  max_num_seqs : Z;
  max_model_len : Z;
  num_spyre_blocks_override : Z;
  pad_token_id : Z;
  is_driver_worker : bool;
}.

Definition block_size (cfg : Config) : Z := Z.pos (block_size_pos cfg).

(** State of a [ContinuousBatchingSpyreModelRunner]. [model_indices] and
    [model_n_pads_right] are the attributes the runner sets on
    [self.model]. *)
Record Runner : Type := mkRunner {
  requests : dict CachedRequestState.t;
  input_batch : InputBatch.t;
  prefill_batch : InputBatch.t;
  req_ids2blocks : dict (list Z);
  req_ids2reserved_blocks : dict Z;
  tkv : Z;
  n_blocks : Z;
  block_pool : list Z;
  model_indices : list bool;
  model_n_pads_right : Z;
}.

Definition set_requests (x : dict CachedRequestState.t) (s : Runner) : Runner :=
  mkRunner x (input_batch s) (prefill_batch s) (req_ids2blocks s)
    (req_ids2reserved_blocks s) (tkv s) (n_blocks s) (block_pool s)
    (model_indices s) (model_n_pads_right s).
Definition set_input_batch (x : InputBatch.t) (s : Runner) : Runner :=
  mkRunner (requests s) x (prefill_batch s) (req_ids2blocks s)
    (req_ids2reserved_blocks s) (tkv s) (n_blocks s) (block_pool s)
    (model_indices s) (model_n_pads_right s).
Definition set_prefill_batch (x : InputBatch.t) (s : Runner) : Runner :=
  mkRunner (requests s) (input_batch s) x (req_ids2blocks s)
    (req_ids2reserved_blocks s) (tkv s) (n_blocks s) (block_pool s)
    (model_indices s) (model_n_pads_right s).
Definition set_req_ids2blocks (x : dict (list Z)) (s : Runner) : Runner :=
  mkRunner (requests s) (input_batch s) (prefill_batch s) x
    (req_ids2reserved_blocks s) (tkv s) (n_blocks s) (block_pool s)
    (model_indices s) (model_n_pads_right s).
Definition set_req_ids2reserved_blocks (x : dict Z) (s : Runner) : Runner :=
  mkRunner (requests s) (input_batch s) (prefill_batch s) (req_ids2blocks s)
    x (tkv s) (n_blocks s) (block_pool s)
    (model_indices s) (model_n_pads_right s).
Definition set_tkv (x : Z) (s : Runner) : Runner :=
  mkRunner (requests s) (input_batch s) (prefill_batch s) (req_ids2blocks s)
    (req_ids2reserved_blocks s) x (n_blocks s) (block_pool s)
    (model_indices s) (model_n_pads_right s).
Definition set_n_blocks (x : Z) (s : Runner) : Runner :=
  mkRunner (requests s) (input_batch s) (prefill_batch s) (req_ids2blocks s)
    (req_ids2reserved_blocks s) (tkv s) x (block_pool s)
    (model_indices s) (model_n_pads_right s).
Definition set_block_pool (x : list Z) (s : Runner) : Runner :=
  mkRunner (requests s) (input_batch s) (prefill_batch s) (req_ids2blocks s)
    (req_ids2reserved_blocks s) (tkv s) (n_blocks s) x
    (model_indices s) (model_n_pads_right s).
Definition set_model_indices (x : list bool) (s : Runner) : Runner :=
  mkRunner (requests s) (input_batch s) (prefill_batch s) (req_ids2blocks s)
    (req_ids2reserved_blocks s) (tkv s) (n_blocks s) (block_pool s)
    x (model_n_pads_right s).
Definition set_model_n_pads_right (x : Z) (s : Runner) : Runner :=
  mkRunner (requests s) (input_batch s) (prefill_batch s) (req_ids2blocks s)
    (req_ids2reserved_blocks s) (tkv s) (n_blocks s) (block_pool s)
    (model_indices s) x.

(** ** The runner *)

Section Runner.

Variable cfg : Config.

(** The forward pass and the sampler, external collaborators: from the
    prepared inputs and [self.model.indices] to
    [output.sampled_token_ids.tolist()]. *)
Variable model_sample : ModelForwardInputs.t -> list bool -> list (list Z).

Local Abbreviation bs := (block_size cfg).

(** *** [SpyreModelRunner._prepare_pad_input_ids] and [pad_input_ids]
    (token ids and position ids of the single prefill sequence) *)

Definition base_pad_input_ids (input_ids : list Z) (min_pad_length : Z)
  : list Z * list Z :=
  let max_len := Z.max min_pad_length (len input_ids) in
  let seq_len := len input_ids in
  let pads := replicate (Z.to_nat (max_len - seq_len)) (pad_token_id cfg) in
  (pads ++ input_ids, pads ++ range seq_len).

(** [ContinuousBatchingSpyreModelRunner.pad_input_ids] *)
Definition pad_input_ids (input_ids : list Z) (min_pad_length : Z) (s : Runner)
  : Runner * (list Z * list Z) :=
  let '(input_tokens_left, position_ids_left) :=
    base_pad_input_ids input_ids (tkv s) in
  let left_pad_len := len input_tokens_left in
  let n_pads_right := min_pad_length - left_pad_len in
  let s := set_model_n_pads_right n_pads_right s in
  if 0 <? n_pads_right then
    (s, (input_tokens_left ++ replicate (Z.to_nat n_pads_right) (pad_token_id cfg),
         position_ids_left ++ replicate (Z.to_nat n_pads_right) 0))
  else (s, (input_tokens_left, position_ids_left)).

(** *** [_set_blocks] and the freshly constructed runner *)

Definition _set_blocks (num_blocks : Z) (s : Runner) : Runner :=
  let num_blocks_override := num_spyre_blocks_override cfg in
  let num_blocks :=
    if 0 <? num_blocks_override then num_blocks_override else num_blocks in
  set_block_pool (range num_blocks) (set_n_blocks num_blocks s).

Definition blank_runner : Runner :=
  mkRunner [] [] [] [] [] 0 0 [] [] 0.


(** *** [get_n_free_blocks] *)

Definition get_n_free_blocks (s : Runner) : Z :=
  n_blocks s - sum (values (req_ids2reserved_blocks s)).

(** *** [update_states] *)

(** One iteration of the loop over [scheduled_cached_reqs] in
    [SpyreModelRunner.update_states]. The write into
    [input_batch.token_ids_cpu] and the removal from
    [input_batch.num_prompt_logprobs] touch only the slot table's tensors
    and are left out. *)
Definition update_cached_req (req_data : CachedRequestData.t)
    (i : nat) (req_id : string) (s : Runner) : result Runner :=
  req_state ← dindex req_id (requests s);
  num_computed_tokens ← py_nth i (CachedRequestData.num_computed_tokens req_data);
  new_token_ids ←
    (if 0 <? len (CachedRequestData.new_token_ids req_data)
     then py_nth i (CachedRequestData.new_token_ids req_data)
     else Ok []);
  let num_new_tokens :=
    num_computed_tokens + len new_token_ids
    - CachedRequestState.num_tokens req_state in
  req_state ←
    (if num_new_tokens =? 1 then
       t ← py_last new_token_ids;
       Ok (CachedRequestState.extend_output [t] req_state)
     else if 0 <? num_new_tokens then
       Ok (CachedRequestState.extend_output
             (py_suffix num_new_tokens new_token_ids) req_state)
     else Ok req_state);
  Ok (set_requests (dset req_id req_state (requests s)) s).

Fixpoint update_cached_reqs (req_data : CachedRequestData.t)
    (reqs : list (nat * string)) (s : Runner) : result Runner :=
  match reqs with
  | [] => Ok s
  | (i, req_id) :: rest =>
      s ← update_cached_req req_data i req_id s;
      update_cached_reqs req_data rest s
  end.

(** The loop over [finished_req_ids] in [SpyreModelRunner.update_states] *)
Fixpoint remove_finished (finished : list string) (s : Runner) : Runner :=
  match finished with
  | [] => s
  | req_id :: rest =>
      let s := set_input_batch (InputBatch.remove_request req_id (input_batch s)) s in
      let s := set_requests (dpop req_id (requests s)) s in
      remove_finished rest s
  end.

(** [SpyreModelRunner.update_states] *)
Definition base_update_states (so : SchedulerOutput.t) (s : Runner)
  : result Runner :=
  let req_data := SchedulerOutput.scheduled_cached_reqs so in
  s ← update_cached_reqs req_data
        (enumerate (CachedRequestData.req_ids req_data)) s;
  match SchedulerOutput.finished_req_ids so with
  | [] => Ok s
  | finished => Ok (remove_finished finished s)
  end.

(** One iteration of the loop that frees blocks. The test of the popped
    deque is a truth test: a missing entry and an empty deque both skip
    the body. *)
Definition free_finished_req (req_id : string) (s : Runner) : result Runner :=
  let blocks_to_free := dget req_id (req_ids2blocks s) in
  let s := set_req_ids2blocks (dpop req_id (req_ids2blocks s)) s in
  match blocks_to_free with
  | None | Some [] => Ok s
  | Some blocks_to_free =>
      _ ← dindex req_id (req_ids2reserved_blocks s);
      let s := set_req_ids2reserved_blocks
                 (dpop req_id (req_ids2reserved_blocks s)) s in
      Ok (set_block_pool (block_pool s ++ blocks_to_free) s)
  end.

Fixpoint free_finished (finished : list string) (s : Runner) : result Runner :=
  match finished with
  | [] => Ok s
  | req_id :: rest => s ← free_finished_req req_id s; free_finished rest s
  end.

(** [ContinuousBatchingSpyreModelRunner.update_states] *)
Definition update_states (so : SchedulerOutput.t) (s : Runner) : result Runner :=
  s ← base_update_states so s;
  free_finished (SchedulerOutput.finished_req_ids so) s.

(** *** [_prepare_prompt] *)

(** The loop [for pos_i in range(block_padding)] that fills the block
    table and the slot mapping. [block_number] is unbound until the first
    block is taken. *)
Fixpoint fill_block_table (positions : list Z) (pool blocks slots : list Z)
    (block_number : option Z) : result (list Z * list Z * list Z) :=
  match positions with
  | [] => Ok (pool, blocks, slots)
  | pos_i :: rest =>
      '(pool, blocks, block_number) ←
        (if decide (pos_i `mod` bs = 0) then
           '(b, pool) ← popleft pool;
           Ok (pool, blocks ++ [b], Some b)
         else Ok (pool, blocks, block_number));
      let block_offset := pos_i `mod` bs in
      match block_number with
      | None => Raise (UnboundLocalError "block_number")
      | Some bn =>
          let slot := bn * bs + block_offset in
          fill_block_table rest pool blocks (slots ++ [slot]) (Some bn)
      end
  end.

Definition _prepare_prompt (new_requests : list NewRequestData.t) (s : Runner)
  : result (Runner * ModelForwardInputs.t) :=
  match new_requests with
  | [request] =>
      let req_id := NewRequestData.req_id request in
      let prompt_token_ids := NewRequestData.prompt_token_ids request in
      let sampling_params := NewRequestData.sampling_params request in
      let is_new_batch := bool_decide (len (req_ids2blocks s) = 0) in
      let prompt_len := len prompt_token_ids in
      _ ← (if negb is_new_batch
           then py_assert (prompt_len <=? tkv s) "prompt_len <= self.tkv"
           else Ok tt);
      let s := set_prefill_batch (InputBatch.clear_requests (prefill_batch s)) s in
      let n := if is_new_batch then prompt_len else tkv s in
      let block_padding := ceil_div n bs * bs in
      let s := set_tkv (if is_new_batch then block_padding else tkv s) s in
      let left_padding := tkv s - prompt_len in
      let new_tokens :=
        match sampling_params with
        | Some sp => SamplingParams.max_tokens sp
        | None => 0
        end in
      let n := tkv s + new_tokens - 1 in
      let n_reserved_blocks := ceil_div n bs in
      let s := set_req_ids2reserved_blocks
                 (dset req_id n_reserved_blocks (req_ids2reserved_blocks s)) s in
      '(pool, blocks, slots) ←
        fill_block_table (range block_padding) (block_pool s) [] [] None;
      let s := set_block_pool pool s in
      let s := set_req_ids2blocks (dset req_id blocks (req_ids2blocks s)) s in
      match sampling_params with
      | None => Raise (AttributeError "sampling_type")
      | Some sp =>
          let generator := SamplingParams.seed sp in
          let req_state :=
            CachedRequestState.mk req_id prompt_token_ids sampling_params
              generator [] left_padding in
          let s := set_requests (dset req_id req_state (requests s)) s in
          ib ← InputBatch.add_request (max_num_seqs cfg) req_id (input_batch s);
          let s := set_input_batch ib s in
          pb ← InputBatch.add_request 1 req_id (prefill_batch s);
          let s := set_prefill_batch pb s in
          let s := set_model_indices [true] s in
          let slot_mapping := [slots] in
          let '(s, (input_tokens, position_ids)) :=
            pad_input_ids prompt_token_ids block_padding s in
          Ok (s, ModelForwardInputs.mk [input_tokens] [position_ids]
                   None None None slot_mapping true)
      end
  | _ => Raise (AssertionError "len(new_requests) == 1")
  end.

(** *** [_prepare_decode] *)

(** The lists built by the loop over the resident requests. *)
Record DecodeRows : Type := mkDecodeRows {
  rows_input_tokens : list (list Z);
  rows_input_positions : list (list Z);
  rows_block_table : list (list Z);
  rows_slot_mapping : list (list Z);
  rows_left_padded_prompt_mask : list Z;
}.

(** [{req_id: i for i, req_id in enumerate(req_ids)}] *)
Definition cached_reqs_map (req_ids : list string) : dict nat :=
  foldl (fun d '(i, req_id) => dset req_id i d) [] (enumerate req_ids).

(** One iteration of the loop over [sorted_requests_ids]; it reads
    [self.tkv] before the cursor is advanced. *)
Definition decode_req (cached_request_data : CachedRequestData.t)
    (req_id : string) (s : Runner) (rows : DecodeRows)
  : result (Runner * DecodeRows) :=
  req_state ← dindex req_id (requests s);
  blocks ← dindex req_id (req_ids2blocks s);
  '(s, blocks) ←
    (if len blocks <? tkv s / bs + 1 then
       '(b, pool) ← popleft (block_pool s);
       let blocks := blocks ++ [b] in
       Ok (set_req_ids2blocks (dset req_id blocks (req_ids2blocks s))
             (set_block_pool pool s), blocks)
     else Ok (s, blocks));
  last_block ← py_last blocks;
  let start_slot := last_block * bs in
  let offset := tkv s `mod` bs in
  let slot := [start_slot + offset] in
  generation_token ← py_last (CachedRequestState.output_token_ids req_state);
  idx ← dindex req_id
          (cached_reqs_map (CachedRequestData.req_ids cached_request_data));
  seq_len ← py_nth idx (CachedRequestData.num_computed_tokens cached_request_data);
  Ok (s, mkDecodeRows
           (rows_input_tokens rows ++ [[generation_token]])
           (rows_input_positions rows ++ [[seq_len]])
           (rows_block_table rows ++ [blocks])
           (rows_slot_mapping rows ++ [slot])
           (rows_left_padded_prompt_mask rows
              ++ [CachedRequestState.left_padding req_state])).

Fixpoint decode_reqs (cached_request_data : CachedRequestData.t)
    (req_ids : list string) (s : Runner) (rows : DecodeRows)
  : result (Runner * DecodeRows) :=
  match req_ids with
  | [] => Ok (s, rows)
  | req_id :: rest =>
      '(s, rows) ← decode_req cached_request_data req_id s rows;
      decode_reqs cached_request_data rest s rows
  end.

(** [torch.tensor] of a list of rows needs rows of one length. *)
Definition rectangular (rows : list (list Z)) : bool :=
  match rows with
  | [] => true
  | r :: rest => forallb (fun r' => bool_decide (length r' = length r)) rest
  end.

Definition _prepare_decode (cached_request_data : CachedRequestData.t)
    (s : Runner) : result (Runner * ModelForwardInputs.t) :=
  let req_ids_in := CachedRequestData.req_ids cached_request_data in
  _ ← py_assert (0 <? len req_ids_in) "len(cached_request_data.req_ids) > 0";
  _ ← py_assert (bool_decide (len (input_batch s) = len req_ids_in))
        "len(self.input_batch.req_id_to_index) == len(cached_request_data.req_ids)";
  let req_ids := InputBatch.sorted_requests_ids (input_batch s) in
  '(s, rows) ← decode_reqs cached_request_data req_ids s
                 (mkDecodeRows [] [] [] [] []);
  let s := set_tkv (tkv s + 1) s in
  let input_tokens := rows_input_tokens rows in
  let position_ids := rows_input_positions rows in
  let current_tkv_mask := replicate (length input_tokens) (tkv s) in
  let left_padded_prompt_mask := rows_left_padded_prompt_mask rows in
  _ ← (if rectangular (rows_block_table rows) then Ok tt
       else Raise (ValueError "expected sequence of equal length"));
  let block_table := rows_block_table rows in
  let slot_mapping := rows_slot_mapping rows in
  let s := set_model_indices (replicate (length req_ids_in) true) s in
  '(s, mi) ←
    (if bool_decide (len req_ids_in = 1) then
       let s := set_model_indices (model_indices s ++ [false]) s in
       _ ← py_assert (bool_decide (len (model_indices s) = 2))
             "self.model.indices.size(dim=0) == 2";
       Ok (s, ModelForwardInputs.mk
                (input_tokens ++ input_tokens) (position_ids ++ position_ids)
                (Some (current_tkv_mask ++ current_tkv_mask))
                (Some (left_padded_prompt_mask ++ left_padded_prompt_mask))
                (Some (block_table ++ block_table))
                (slot_mapping ++ slot_mapping) false)
     else
       Ok (s, ModelForwardInputs.mk input_tokens position_ids
                (Some current_tkv_mask) (Some left_padded_prompt_mask)
                (Some block_table) slot_mapping false));
  _ ← py_assert (2 <=? len (ModelForwardInputs.input_tokens mi))
        "len(input_tokens) >= 2";
  Ok (s, mi).

(** *** [reduce_left_padding] *)

(** The inner loop [for _ in range(n_padded_blocks)] for one request. *)
Fixpoint free_left_blocks (n : nat) (req_id : string) (s : Runner)
  : result Runner :=
  match n with
  | O => Ok s
  | S n' =>
      blocks ← dindex req_id (req_ids2blocks s);
      '(freed_block_id, blocks) ← popleft blocks;
      let s := set_req_ids2blocks (dset req_id blocks (req_ids2blocks s)) s in
      let s := set_block_pool (block_pool s ++ [freed_block_id]) s in
      reserved ← dindex req_id (req_ids2reserved_blocks s);
      let s := set_req_ids2reserved_blocks
                 (dset req_id (reserved - 1) (req_ids2reserved_blocks s)) s in
      free_left_blocks n' req_id s
  end.

(** The loop [for req in requests]: every request object held by
    [self.requests] is updated in place, in the order of the
    dictionary. *)
Fixpoint reduce_reqs (reqs : dict CachedRequestState.t)
    (offset : Z) (n_padded_blocks : Z) (s : Runner)
  : result (dict CachedRequestState.t * Runner) :=
  match reqs with
  | [] => Ok ([], s)
  | (k, req) :: rest =>
      let req :=
        CachedRequestState.set_left_padding
          (CachedRequestState.left_padding req - offset) req in
      s ← free_left_blocks (Z.to_nat n_padded_blocks)
            (CachedRequestState.req_id req) s;
      '(rest, s) ← reduce_reqs rest offset n_padded_blocks s;
      Ok ((k, req) :: rest, s)
  end.

Definition reduce_left_padding (s : Runner) : result Runner :=
  if bool_decide (len (requests s) = 0) then Ok s
  else
    min_left_pad ← py_min (CachedRequestState.left_padding <$> values (requests s));
    let n_padded_blocks := min_left_pad / bs in
    let offset := n_padded_blocks * bs in
    s ← (if 0 <? offset then
           '(reqs, s) ← reduce_reqs (requests s) offset n_padded_blocks s;
           Ok (set_requests reqs s)
         else Ok s);
    Ok (set_tkv (tkv s - offset) s).

(** *** [prepare_model_input] *)

(** [SpyreModelRunner.prepare_model_input] *)
Definition base_prepare_model_input (so : SchedulerOutput.t) (s : Runner)
  : result (Runner * ModelForwardInputs.t) :=
  let is_prompt := 0 <? len (SchedulerOutput.scheduled_new_reqs so) in
  if is_prompt then
    _ ← py_assert
          (bool_decide
             (len (CachedRequestData.req_ids
                     (SchedulerOutput.scheduled_cached_reqs so)) = 0))
          "len(scheduler_output.scheduled_cached_reqs.req_ids) == 0";
    _prepare_prompt (SchedulerOutput.scheduled_new_reqs so) s
  else _prepare_decode (SchedulerOutput.scheduled_cached_reqs so) s.

(** [ContinuousBatchingSpyreModelRunner.prepare_model_input] *)
Definition prepare_model_input (so : SchedulerOutput.t) (s : Runner)
  : result (Runner * ModelForwardInputs.t) :=
  s ← reduce_left_padding s;
  base_prepare_model_input so s.

(** *** [execute_model] *)

Definition get_req_id_to_index (is_prefill : bool) (s : Runner) : dict nat :=
  if is_prefill
  then InputBatch.get_unpadded_output_indices (prefill_batch s)
  else InputBatch.get_unpadded_output_indices (input_batch s).

(** The loop that adds the sampled tokens to the request cache. *)
Fixpoint append_sampled (req_ids : list (nat * string))
    (sampled_ids : list (list Z)) (s : Runner) : result Runner :=
  match req_ids with
  | [] => Ok s
  | (i, req) :: rest =>
      req_state ← dindex req (requests s);
      row ← py_nth i sampled_ids;
      let s :=
        set_requests
          (dset req (CachedRequestState.extend_output row req_state)
             (requests s)) s in
      append_sampled rest sampled_ids s
  end.

(** [SpyreModelRunner.execute_model]; the prompt log-probabilities are
    computed by the sampler and left out. *)
Definition base_execute_model (so : SchedulerOutput.t) (s : Runner)
  : result (Runner * ModelRunnerOutput.t) :=
  s ← update_states so s;
  if SchedulerOutput.total_num_scheduled_tokens so =? 0 then
    Ok (s, ModelRunnerOutput.EMPTY_MODEL_RUNNER_OUTPUT)
  else
    '(s, model_input) ← prepare_model_input so s;
    let sampled_token_ids := model_sample model_input (model_indices s) in
    let is_prefill := ModelForwardInputs.is_prompt model_input in
    let req_id_to_index := get_req_id_to_index is_prefill s in
    let req_ids :=
      if is_prefill
      then NewRequestData.req_id <$> SchedulerOutput.scheduled_new_reqs so
      else InputBatch.sorted_requests_ids (input_batch s) in
    s ← append_sampled (enumerate req_ids) sampled_token_ids s;
    if negb (is_driver_worker cfg) then
      Ok (s, ModelRunnerOutput.EMPTY_MODEL_RUNNER_OUTPUT)
    else
      Ok (s, ModelRunnerOutput.mk (keys req_id_to_index) req_id_to_index
               sampled_token_ids).

(** [ContinuousBatchingSpyreModelRunner.execute_model] *)
Definition execute_model (so : SchedulerOutput.t) (s : Runner)
  : result (Runner * CBSpyreModelRunnerOutput.t) :=
  '(s, output) ← base_execute_model so s;
  Ok (s, CBSpyreModelRunnerOutput.mk
           (ModelRunnerOutput.req_ids output)
           (ModelRunnerOutput.req_id_to_index output)
           (ModelRunnerOutput.sampled_token_ids output)
           (if 0 <? SchedulerOutput.total_num_scheduled_tokens so
            then tkv s else 0)
           (get_n_free_blocks s)).

End Runner.

(** ** Auxiliary notions used to state the properties *)

(** [d.pop(k, None)] for every [k] of a list, in order *)
Definition dpops {V} (ks : list string) (d : dict V) : dict V :=
  foldl (fun d k => dpop k d) d ks.

(** [remove_request] for every id of a list, in order *)
Definition removes (ks : list string) (b : InputBatch.t) : InputBatch.t :=
  foldl (fun b k => InputBatch.remove_request k b) b ks.

(** Every request with a block table has a ledger entry, and no
    dictionary lists a key twice. *)
Definition ledger_coherent (s : Runner) : Prop :=
  NoDup (keys (req_ids2blocks s))
  /\ NoDup (keys (req_ids2reserved_blocks s))
  /\ forall k, k ∈ keys (req_ids2blocks s) -> k ∈ keys (req_ids2reserved_blocks s).

(** Every block table holds at least one block. *)
Definition tables_nonempty (s : Runner) : Prop :=
  forall k b, (k, b) ∈ req_ids2blocks s -> b <> [].

(** Loop invariant of [fill_block_table] after [m] positions, starting
    from the pool [pool0]: the blocks taken are a prefix of [pool0], one per
    started chunk, and position [i] is mapped into the block of its chunk. *)
Definition fill_inv (cfg : Config) (pool0 : list Z) (m : Z)
    (pool blocks slots : list Z) (block_number : option Z) : Prop :=
  pool0 = blocks ++ pool
  /\ len blocks = ceil_div m (block_size cfg)
  /\ len slots = m
  /\ (0 < m -> block_number = last blocks)
  /\ forall i, 0 <= i < m ->
       exists b, blocks !! Z.to_nat (i / block_size cfg) = Some b
                 /\ slots !! Z.to_nat i = Some (b * block_size cfg + i `mod` block_size cfg).

(** ** Reachable states and the invariant of the block bookkeeping *)

(** Every block id the runner knows: the free pool followed by the block
    tables of the resident requests. *)
Definition all_blocks (s : Runner) : list Z :=
  block_pool s ++ concat (values (req_ids2blocks s)).

(** Σ over the resident requests of the number of blocks held *)
Definition blocks_held (s : Runner) : Z :=
  sum (len <$> values (req_ids2blocks s)).

(** Σ over the reservation ledger *)
Definition blocks_reserved (s : Runner) : Z :=
  sum (values (req_ids2reserved_blocks s)).

(** A runner whose pool has just been populated by [_set_blocks]. *)
Definition fresh_runner (cfg : Config) (num_blocks : Z) : Runner :=
  _set_blocks cfg num_blocks blank_runner.

(** States of the runner reached from a fresh pool by any interleaving of
    the state-changing methods, each returning without an exception (an
    exception is fatal and ends the run). Two conditions on what the
    scheduler sends are part of the definition: a request id is handed to a
    prefill only while no resident request carries it (ids are unique while
    resident), and a prompt holds at least one token. The pool size
    [n_blocks] set by [_set_blocks] is not negative. *)
Inductive reachable (cfg : Config) : Runner -> Prop :=
| reach_fresh num_blocks :
    0 <= n_blocks (fresh_runner cfg num_blocks) ->
    reachable cfg (fresh_runner cfg num_blocks)
| reach_update_states so s s' :
    reachable cfg s ->
    update_states so s = Ok s' ->
    reachable cfg s'
| reach_reduce_left_padding s s' :
    reachable cfg s ->
    reduce_left_padding cfg s = Ok s' ->
    reachable cfg s'
| reach_prepare_prompt request s s' mi :
    reachable cfg s ->
    NewRequestData.req_id request ∉ keys (requests s) ->
    NewRequestData.prompt_token_ids request <> [] ->
    _prepare_prompt cfg [request] s = Ok (s', mi) ->
    reachable cfg s'
| reach_prepare_decode crd s s' mi :
    reachable cfg s ->
    _prepare_decode cfg crd s = Ok (s', mi) ->
    reachable cfg s'
| reach_append_sampled req_ids sampled s s' :
    reachable cfg s ->
    append_sampled req_ids sampled s = Ok s' ->
    reachable cfg s'.

(** The invariant carried by every reachable state. *)
Record runner_inv (cfg : Config) (s : Runner) : Prop := mk_runner_inv {
  inv_n_blocks : 0 <= n_blocks s;
  inv_blocks : all_blocks s ≡ₚ range (n_blocks s);
  inv_requests_keys : keys (requests s) = keys (req_ids2blocks s);
  inv_input_batch : input_batch s = keys (req_ids2blocks s);
  inv_nodup : NoDup (keys (req_ids2blocks s));
  inv_ledger : forall k, k ∈ keys (req_ids2blocks s) ->
                         k ∈ keys (req_ids2reserved_blocks s);
  inv_ledger_nodup : NoDup (keys (req_ids2reserved_blocks s));
  inv_request : forall k r, (k, r) ∈ requests s ->
      CachedRequestState.req_id r = k
      /\ 0 <= CachedRequestState.left_padding r < tkv s;
  inv_table : forall k b, (k, b) ∈ req_ids2blocks s ->
      tkv s <= len b * block_size cfg;
}.

(** ** A worked scenario: block size 64, pool of 8 blocks *)

Module Scenario.

Definition cfg : Config := mkConfig 64 2 256 0 0 true.

Definition s0 : Runner := fresh_runner cfg 8.

(** A request with a prompt of 70 tokens asking for 20 new tokens. *)
Definition req_a : NewRequestData.t :=
  NewRequestData.mk "a" (replicate 70 7) (Some (SamplingParams.mk 20 None)).

(** A request with a prompt of 100 tokens. *)
Definition req_b : NewRequestData.t :=
  NewRequestData.mk "b" (replicate 100 9) (Some (SamplingParams.mk 20 None)).

(** A request with a prompt of 200 tokens. *)
Definition req_c : NewRequestData.t :=
  NewRequestData.mk "c" (replicate 200 9) (Some (SamplingParams.mk 20 None)).

Definition state_of {A} (r : result (Runner * A)) : Runner :=
  match r with
  | Ok (s, _) => s
  | Raise _ => blank_runner
  end.

Definition empty_inputs : ModelForwardInputs.t :=
  ModelForwardInputs.mk [] [] None None None [] false.

Definition mi_of (r : result (Runner * ModelForwardInputs.t))
  : ModelForwardInputs.t :=
  match r with
  | Ok (_, mi) => mi
  | Raise _ => empty_inputs
  end.

(** After the prefill of [req_a] into the empty runner. *)
Definition s1 : Runner :=
  Eval vm_compute in state_of (_prepare_prompt cfg [req_a] s0).

(** After the first sampled token (42) has been added to [req_a]. *)
Definition s2 : Runner :=
  Eval vm_compute in
    match append_sampled [(0%nat, "a")] [[42]] s1 with
    | Ok s => s
    | Raise _ => blank_runner
    end.

Definition decode_a : CachedRequestData.t :=
  CachedRequestData.mk ["a"] [70] [].

(** After one decode step of [req_a]. *)
Definition s3 : Runner :=
  Eval vm_compute in state_of (_prepare_decode cfg decode_a s2).

(** A request with a prompt of 10 tokens, joining the running batch. *)
Definition req_d : NewRequestData.t :=
  NewRequestData.mk "d" (replicate 10 5) (Some (SamplingParams.mk 20 None)).

(** After the prefill of [req_d] next to [req_a]. *)
Definition s4 : Runner :=
  Eval vm_compute in state_of (_prepare_prompt cfg [req_d] s3).

(** A step that only reports [req_a] finished. *)
Definition so_finish_a : SchedulerOutput.t :=
  SchedulerOutput.mk [] (CachedRequestData.mk [] [] []) ["a"] 0.

(** After [req_a] has finished: [req_d] is alone, left padded by 119. *)
Definition s5 : Runner :=
  Eval vm_compute in
    match update_states so_finish_a s4 with
    | Ok s => s
    | Raise _ => blank_runner
    end.

(** A decode step for [req_a] alone. *)
Definition so_decode_a : SchedulerOutput.t :=
  SchedulerOutput.mk [] decode_a [] 1.

(** A sampler that returns token 43 for the real row and 99 for the
    duplicate row. *)
Definition sampler (_ : ModelForwardInputs.t) (_ : list bool) : list (list Z) :=
  [[43]; [99]].

End Scenario.

(** * Further parts of the runner *)

(** ** How a request may change while it stays resident *)

(** Same identity, prompt and sampling state, the output only extended,
    the left padding not raised. *)
Definition request_grows (r r' : CachedRequestState.t) : Prop :=
  CachedRequestState.req_id r' = CachedRequestState.req_id r
  /\ CachedRequestState.prompt_token_ids r' = CachedRequestState.prompt_token_ids r
  /\ CachedRequestState.sampling_params r' = CachedRequestState.sampling_params r
  /\ CachedRequestState.generator r' = CachedRequestState.generator r
  /\ CachedRequestState.output_token_ids r
     `prefix_of` CachedRequestState.output_token_ids r'
  /\ CachedRequestState.left_padding r' <= CachedRequestState.left_padding r.

(** ** The block count after warmup *)




(** ** Padding, attention masks and static batching *)

(** An attention mask holds 0.0 where attention is allowed and -inf where
    it is not; in the matrices below [true] stands for 0.0 and [false] for
    -inf. A batch of masks is a list of square matrices. *)

(** What the tensor operations of this part raise. *)
Inductive tensor_exn : Type :=
| TensorAssertionError (what : string)
| TensorIndexError
| TensorRuntimeError.

(** [(m.unsqueeze(-1) == m.unsqueeze(-2))] for one row [m] *)
Definition outer_eq (m : list bool) : list (list bool) :=
  (fun mi => (fun mj => bool_decide (mi = mj)) <$> m) <$> m.

(** [a.tril()] for one matrix *)
Definition tril (a : list (list bool)) : list (list bool) :=
  imap (fun i row => imap (fun j x => x && bool_decide (j <= i)%nat) row) a.

Module SpyreModelRunner.

(** [SpyreModelRunner._prepare_pad_input_ids]: the padded ids, the 0/1
    masks and the position ids, one entry per sequence. *)
Definition _prepare_pad_input_ids (cfg : Config) (input_ids_list : list (list Z))
    (min_pad_length : Z) : list (list Z) * list (list Z) * list (list Z) :=
  let max_len := foldl Z.max min_pad_length (len <$> input_ids_list) in
  let per_sequence (input_ids_i : list Z) :=
    let seq_len := len input_ids_i in
    let pads := replicate (Z.to_nat (max_len - seq_len)) (pad_token_id cfg) in
    let non_pads := replicate (Z.to_nat seq_len) 1 in
    let pos_ids_pads := pads in
    let pos_ids_seq := range seq_len in
    (pads ++ input_ids_i,
     ((fun _ => 0) <$> pads) ++ non_pads,
     pos_ids_pads ++ pos_ids_seq) in
  let rows := per_sequence <$> input_ids_list in
  ((fun r => r.1.1) <$> rows, (fun r => r.1.2) <$> rows, (fun r => r.2) <$> rows).

(** [SpyreModelRunner.pad_input_ids]: the stacked ids, the position ids
    and the causal mask. [torch.stack] of no tensor raises. *)
Definition pad_input_ids (cfg : Config) (input_ids_list : list (list Z))
    (min_pad_length : Z)
  : tensor_exn + (list (list Z) * list (list Z) * list (list (list bool))) :=
  let '(padded_input_ids_list, mask_list, position_ids_list) :=
    _prepare_pad_input_ids cfg input_ids_list min_pad_length in
  match padded_input_ids_list with
  | [] => inl TensorRuntimeError
  | _ =>
      let input_ids := padded_input_ids_list in
      let mask := (fun m => (fun x => negb (x =? 0)) <$> m) <$> mask_list in
      let mask := (fun m => tril (outer_eq m)) <$> mask in
      let position_ids := position_ids_list in
      inr (input_ids, position_ids, mask)
  end.

End SpyreModelRunner.

Module ContinuousBatchingSpyreModelRunner.

(** [torch.nn.functional.pad(mask_left, (0, n, 0, n), value=-inf)] followed
    by the assignment of the lower-triangular [mask_pads] to the last [n]
    rows and columns, for one matrix. *)
Definition pad_right (n : nat) (mask_left : list (list bool)) : list (list bool) :=
  let width := match mask_left with row :: _ => length row | [] => O end in
  ((fun row => row ++ replicate n false) <$> mask_left)
  ++ ((fun i => replicate width false
                ++ ((fun j => bool_decide (j <= i)%nat) <$> seq 0 n)) <$> seq 0 n).

(** [ContinuousBatchingSpyreModelRunner.pad_input_ids] with its mask. The
    right pads are concatenated as one row, which needs a batch of one
    sequence; [position_ids_left[0][-1]] needs a non-empty row. *)
Definition pad_input_ids (cfg : Config) (input_ids_list : list (list Z))
    (min_pad_length : Z) (s : Runner)
  : tensor_exn
    + (Runner * (list (list Z) * list (list Z) * list (list (list bool)))) :=
  match SpyreModelRunner.pad_input_ids cfg input_ids_list (tkv s) with
  | inl e => inl e
  | inr (input_tokens_left, position_ids_left, mask_left) =>
      let left_pad_len :=
        match input_tokens_left with row :: _ => len row | [] => 0 end in
      let n_pads_right := min_pad_length - left_pad_len in
      let s := set_model_n_pads_right n_pads_right s in
      if 0 <? n_pads_right then
        match input_tokens_left, position_ids_left with
        | [tokens_left], [positions_left] =>
            match last positions_left with
            | None => inl TensorIndexError
            | Some _ =>
                let input_tokens_right :=
                  replicate (Z.to_nat n_pads_right) (pad_token_id cfg) in
                let position_ids_right := replicate (Z.to_nat n_pads_right) 0 in
                inr (s, ([tokens_left ++ input_tokens_right],
                         [positions_left ++ position_ids_right],
                         pad_right (Z.to_nat n_pads_right) <$> mask_left))
            end
        | _, _ => inl TensorRuntimeError
        end
      else inr (s, (input_tokens_left, position_ids_left, mask_left))
  end.

End ContinuousBatchingSpyreModelRunner.

Module StaticBatchingSpyreModelRunner.

(** One entry of [spyre_warmup_shapes] *)
Record WarmupShape : Type := mkWarmupShape {
  batch_size : Z;
  prompt_length : Z;
  new_tokens : Z;
}.

(** [StaticBatchingSpyreModelRunner._get_padded_batch_size] *)
Definition _get_padded_batch_size (spyre_warmup_shapes : list WarmupShape)
    (new_requests : list NewRequestData.t) : result (Z * Z) :=
  let applicable_spyre_warmup_shapes :=
    filter (fun shape => len new_requests <= batch_size shape)
      spyre_warmup_shapes in
  let applicable_spyre_warmup_shapes :=
    foldl (fun applicable request_data =>
             let prompt_tokens := NewRequestData.prompt_token_ids request_data in
             let new_tokens_req :=
               match NewRequestData.sampling_params request_data with
               | Some sp => SamplingParams.max_tokens sp
               | None => 0
               end in
             filter (fun shape => len prompt_tokens <= prompt_length shape
                                  /\ new_tokens_req <= new_tokens shape)
               applicable)
      applicable_spyre_warmup_shapes new_requests in
  match applicable_spyre_warmup_shapes with
  | [] => Raise (AssertionError
                   "No shapes available to run prefill batch. (This should not happen)")
  | shape :: _ => Ok (batch_size shape, prompt_length shape)
  end.

(** What [StaticBatchingSpyreModelRunner._prepare_prompt] raises: a Python
    exception or the error of a tensor operation. *)
Inductive static_exn : Type :=
| PyError (e : exn)
| TensorError (e : tensor_exn).

(** State of a [StaticBatchingSpyreModelRunner]. [padded_batch_size] is the
    attribute the runner sets on [self.input_batch]; [None] in
    [_position_ids] and [_mask] is the unset attribute. *)
Record Static : Type := mkStatic {
  requests : dict CachedRequestState.t;
  input_batch : InputBatch.t;
  padded_batch_size : option Z;
  _position_ids : option (list (list Z));
  _mask : option (list (list (list bool)));
}.

(** The fields of [ModelForwardInputs] set by the static runner *)
Record ModelInputs : Type := mkModelInputs {
  input_tokens : list (list Z);
  input_positions : list (list Z);
  input_masks : list (list (list bool));
  is_prompt : bool;
}.

(** The loop of [_prepare_prompt] over [new_requests], on
    [input_token_list], [self.requests] and [self.input_batch].
    [sampling_params.sampling_type] of a request without sampling parameters
    raises [AttributeError]. *)
Fixpoint add_new_requests (cfg : Config) (new_requests : list NewRequestData.t)
    (input_token_list : list (list Z)) (reqs : dict CachedRequestState.t)
    (ib : InputBatch.t)
  : result (list (list Z) * dict CachedRequestState.t * InputBatch.t) :=
  match new_requests with
  | [] => Ok (input_token_list, reqs, ib)
  | request_data :: rest =>
      let prompt_tokens := NewRequestData.prompt_token_ids request_data in
      let input_token_list := input_token_list ++ [prompt_tokens] in
      let req_id := NewRequestData.req_id request_data in
      let sampling_params := NewRequestData.sampling_params request_data in
      match sampling_params with
      | None => Raise (AttributeError "sampling_type")
      | Some sp =>
          let generator := SamplingParams.seed sp in
          let req_state :=
            CachedRequestState.mk req_id
              (NewRequestData.prompt_token_ids request_data) sampling_params
              generator [] 0 in
          let reqs := dset req_id req_state reqs in
          ib ← InputBatch.add_request (max_num_seqs cfg) req_id ib;
          add_new_requests cfg rest input_token_list reqs ib
      end
  end.

(** [StaticBatchingSpyreModelRunner._prepare_prompt]. The slot table is
    created with [max_num_reqs = max_num_seqs]. [torch.zeros] of a negative
    size raises. Left out: [refresh_metadata] (sampling metadata),
    [_mark_input_tensors] (compiler hints) and [self.model.indices], whose
    value [get_model_indices] comes from the slot table. *)
Definition _prepare_prompt (cfg : Config) (spyre_warmup_shapes : list WarmupShape)
    (new_requests : list NewRequestData.t) (s : Static)
  : static_exn + (Static * ModelInputs) :=
  match py_assert (0 <? len new_requests) "len(new_requests) > 0" with
  | Raise e => inl (PyError e)
  | Ok _ =>
  match _get_padded_batch_size spyre_warmup_shapes new_requests with
  | Raise e => inl (PyError e)
  | Ok (padded_batch_size, min_pad_length_batch) =>
  match add_new_requests cfg new_requests [] []
          (InputBatch.clear_requests (input_batch s)) with
  | Raise e => inl (PyError e)
  | Ok (input_token_list, reqs, ib) =>
      let n_dummy := Z.to_nat (padded_batch_size - len input_token_list) in
      if bool_decide (n_dummy <> O) && (min_pad_length_batch <? 0)
      then inl (TensorError TensorRuntimeError)
      else
        let input_token_list :=
          input_token_list
          ++ replicate n_dummy (replicate (Z.to_nat min_pad_length_batch) 0) in
        match SpyreModelRunner.pad_input_ids cfg input_token_list
                min_pad_length_batch with
        | inl e => inl (TensorError e)
        | inr (input_tokens, position_ids, mask) =>
            let s := mkStatic reqs ib (Some padded_batch_size)
                       (Some position_ids) (Some mask) in
            inr (s, mkModelInputs input_tokens position_ids mask true)
        end
  end end end.

(** [StaticBatchingSpyreModelRunner._update_position_ids], on the rows of
    [self._position_ids] *)
Definition _update_position_ids (position_ids : list (list Z))
  : tensor_exn + list (list Z) :=
  foldr (fun row acc =>
           match last row, acc with
           | Some p, inr rest => inr ([p + 1] :: rest)
           | None, _ => inl TensorIndexError
           | _, inl e => inl e
           end) (inr []) position_ids.

(** [StaticBatchingSpyreModelRunner._update_mask]; [None] is the unset
    attribute. A mask without rows cannot be extended, and no mask cannot
    be stacked. *)
Definition _update_mask (mask : option (list (list (list bool))))
  : tensor_exn + list (list (list bool)) :=
  match mask with
  | None => inl (TensorAssertionError "self._mask is not None")
  | Some [] => inl TensorRuntimeError
  | Some masks =>
      foldr (fun mask acc =>
               match last mask, acc with
               | Some mask_new, inr rest => inr ([mask_new ++ [true]] :: rest)
               | None, _ => inl TensorRuntimeError
               | _, inl e => inl e
               end) (inr []) masks
  end.

End StaticBatchingSpyreModelRunner.


(** The two updates one call of
    [StaticBatchingSpyreModelRunner._prepare_decode] makes to
    [self._position_ids] and [self._mask], in this order. *)
Definition static_decode_update
    (st : list (list Z) * option (list (list (list bool))))
  : tensor_exn + (list (list Z) * option (list (list (list bool)))) :=
  match StaticBatchingSpyreModelRunner._update_position_ids st.1 with
  | inl e => inl e
  | inr position_ids =>
      match StaticBatchingSpyreModelRunner._update_mask st.2 with
      | inl e => inl e
      | inr mask => inr (position_ids, Some mask)
      end
  end.

(** [k] decode steps in a row *)
Fixpoint static_decode_updates (k : nat)
    (st : list (list Z) * option (list (list (list bool))))
  : tensor_exn + (list (list Z) * option (list (list (list bool)))) :=
  match k with
  | O => inr st
  | S k' =>
      match static_decode_update st with
      | inl e => inl e
      | inr st' => static_decode_updates k' st'
      end
  end.


(** * Proofs *)

(** ** The error monad *)

Lemma bind_Ok {A B} (m : result A) (f : A -> result B) (b : B) :
  m ≫= f = Ok b -> exists a, m = Ok a /\ f a = Ok b.
Proof. destruct m as [a|e]; simpl; [eauto | discriminate]. Qed.

Lemma py_assert_Ok b what u : py_assert b what = Ok u -> b = true.
Proof. destruct b; [done | discriminate]. Qed.

(** Inverts a hypothesis [m ≫= f = Ok b], one bind at a time. *)
Ltac inv_bind H :=
  let a := fresh "a" in
  let Ha := fresh "Hstep" in
  apply bind_Ok in H as (a & Ha & H); simpl in H.

(** ** Dictionaries *)

Section dict_facts.
Context {V : Type}.
Implicit Types (d : dict V) (k : string) (v : V).

Lemma dget_None k d : dget k d = None <-> k ∉ keys d.
Proof.
  unfold keys. induction d as [|[k' v'] d IH]; simpl.
  - split; [intros _; apply not_elem_of_nil | done].
  - rewrite not_elem_of_cons. case_decide; [|tauto].
    split; [done | intros [? _]; done].
Qed.

Lemma dget_Some_keys k v d : dget k d = Some v -> k ∈ keys d.
Proof.
  intros H. destruct (decide (k ∈ keys d)) as [|Hn]; [done|].
  apply dget_None in Hn. congruence.
Qed.

Lemma keys_dget k d : k ∈ keys d -> exists v, dget k d = Some v.
Proof.
  intros H. destruct (dget k d) eqn:E; [eauto|].
  apply dget_None in E. done.
Qed.

Lemma dget_split k v d :
  dget k d = Some v ->
  exists d1 d2, d = d1 ++ (k, v) :: d2 /\ k ∉ keys d1.
Proof.
  induction d as [|[k' v'] d IH]; simpl; [done|].
  case_decide as Hk.
  - intros [= ->]. subst k'. exists [], d. split; [done | apply not_elem_of_nil].
  - intros (d1 & d2 & -> & Hn)%IH. exists ((k', v') :: d1), d2.
    split; [done|]. unfold keys in *. simpl. rewrite not_elem_of_cons. done.
Qed.

Lemma dget_app_r k d1 d2 : k ∉ keys d1 -> dget k (d1 ++ d2) = dget k d2.
Proof.
  unfold keys. induction d1 as [|[k' v'] d1 IH]; simpl; [done|].
  rewrite not_elem_of_cons. intros [? ?]. case_decide; [done | auto].
Qed.

Lemma dget_middle k v d1 d2 :
  k ∉ keys d1 -> dget k (d1 ++ (k, v) :: d2) = Some v.
Proof. intros. rewrite dget_app_r by done. simpl. by rewrite decide_True. Qed.

Lemma dset_middle k v v' d1 d2 :
  k ∉ keys d1 -> dset k v' (d1 ++ (k, v) :: d2) = d1 ++ (k, v') :: d2.
Proof.
  unfold keys. induction d1 as [|[k1 v1] d1 IH]; simpl.
  - intros _. by rewrite decide_True.
  - rewrite not_elem_of_cons. intros [? ?]. rewrite decide_False by done.
    by rewrite IH.
Qed.

Lemma dpop_middle k v d1 d2 :
  k ∉ keys d1 -> dpop k (d1 ++ (k, v) :: d2) = d1 ++ d2.
Proof.
  unfold keys. induction d1 as [|[k1 v1] d1 IH]; simpl.
  - intros _. by rewrite decide_True.
  - rewrite not_elem_of_cons. intros [? ?]. rewrite decide_False by done.
    by rewrite IH.
Qed.

Lemma dset_fresh k v d : k ∉ keys d -> dset k v d = d ++ [(k, v)].
Proof.
  unfold keys. induction d as [|[k1 v1] d IH]; simpl; [done|].
  rewrite not_elem_of_cons. intros [? ?]. rewrite decide_False by done.
  by rewrite IH.
Qed.

Lemma dpop_absent k d : k ∉ keys d -> dpop k d = d.
Proof.
  unfold keys. induction d as [|[k1 v1] d IH]; simpl; [done|].
  rewrite not_elem_of_cons. intros [? ?]. rewrite decide_False by done.
  by rewrite IH.
Qed.

Lemma dget_dset_eq k v d : dget k (dset k v d) = Some v.
Proof.
  induction d as [|[k1 v1] d IH]; simpl.
  - by rewrite decide_True.
  - case_decide; simpl; [by rewrite decide_True | by rewrite decide_False].
Qed.

Lemma dget_dset_ne k k' v d : k <> k' -> dget k' (dset k v d) = dget k' d.
Proof.
  intros Hne. induction d as [|[k1 v1] d IH]; simpl.
  - by rewrite decide_False.
  - case_decide; simpl; [subst; by rewrite !decide_False | by rewrite IH].
Qed.

Lemma dget_dpop_ne k k' d : k <> k' -> dget k' (dpop k d) = dget k' d.
Proof.
  intros Hne. induction d as [|[k1 v1] d IH]; simpl; [done|].
  case_decide; simpl; [subst; by rewrite decide_False | by rewrite IH].
Qed.

Lemma keys_dset_in k v d : k ∈ keys d -> keys (dset k v d) = keys d.
Proof.
  intros (v0 & (d1 & d2 & -> & Hn)%dget_split)%keys_dget.
  rewrite dset_middle by done. unfold keys. by rewrite !fmap_app.
Qed.

Lemma keys_dset_fresh k v d : k ∉ keys d -> keys (dset k v d) = keys d ++ [k].
Proof. intros. rewrite dset_fresh by done. unfold keys. by rewrite fmap_app. Qed.

Lemma keys_dpop k d : keys (dpop k d) = InputBatch.remove_request k (keys d).
Proof.
  unfold keys. induction d as [|[k1 v1] d IH]; simpl; [done|].
  case_decide; [done|]. simpl. f_equal. apply IH.
Qed.

Lemma dset_id k v d : dget k d = Some v -> dset k v d = d.
Proof.
  intros (d1 & d2 & -> & Hn)%dget_split. by rewrite dset_middle.
Qed.

Lemma dset_dset k v v' d : dset k v' (dset k v d) = dset k v' d.
Proof.
  induction d as [|[k1 v1] d IH]; simpl.
  - by rewrite decide_True.
  - case_decide; simpl; [by rewrite decide_True | by rewrite decide_False, IH].
Qed.

Lemma elem_of_dget k v d : NoDup (keys d) -> (k, v) ∈ d -> dget k d = Some v.
Proof.
  unfold keys. induction d as [|[k1 v1] d IH]; simpl.
  - intros _ []%elem_of_nil.
  - rewrite NoDup_cons. intros [Hn Hd] [[= -> ->]|Hin]%elem_of_cons.
    + by rewrite decide_True.
    + rewrite decide_False; [auto|].
      intros ->. apply Hn. apply list_elem_of_fmap. by exists (k1, v).
Qed.

Lemma dget_elem_of k v d : dget k d = Some v -> (k, v) ∈ d.
Proof.
  intros (d1 & d2 & -> & _)%dget_split. apply elem_of_app. right. left.
Qed.

Lemma dget_dpop_eq k d : NoDup (keys d) -> dget k (dpop k d) = None.
Proof.
  intros Hd. destruct (dget k d) as [v|] eqn:E.
  - apply dget_split in E as (d1 & d2 & -> & Hn).
    rewrite dpop_middle by done. apply dget_None.
    unfold keys in *. rewrite fmap_app in *. simpl in Hd.
    apply NoDup_app in Hd as (_ & _ & [Hk _]%NoDup_cons).
    rewrite not_elem_of_app. done.
  - apply dget_None in E. by rewrite dpop_absent, dget_None.
Qed.

Lemma NoDup_keys_dset k v d : NoDup (keys d) -> NoDup (keys (dset k v d)).
Proof.
  intros Hd. destruct (decide (k ∈ keys d)).
  - by rewrite keys_dset_in.
  - rewrite keys_dset_fresh by done. apply NoDup_app.
    split_and!; [done | | apply NoDup_singleton].
    intros x Hx ->%list_elem_of_singleton. done.
Qed.

Lemma NoDup_keys_dpop k d : NoDup (keys d) -> NoDup (keys (dpop k d)).
Proof.
  intros Hd. destruct (dget k d) as [v|] eqn:E.
  - apply dget_split in E as (d1 & d2 & -> & Hn).
    rewrite dpop_middle by done. unfold keys in *.
    rewrite fmap_app in *. simpl in Hd.
    apply NoDup_app in Hd as (H1 & H2 & [_ H3]%NoDup_cons).
    apply NoDup_app. split_and!; [done | | done].
    intros x Hx Hx2. apply (H2 x Hx). by right.
  - apply dget_None in E. by rewrite dpop_absent.
Qed.

Lemma keys_dpop_subseteq k d x : x ∈ keys (dpop k d) -> x ∈ keys d.
Proof.
  unfold keys. induction d as [|[k1 v1] d IH]; simpl; [done|].
  case_decide; simpl.
  - by right.
  - intros [->|?]%elem_of_cons; [left | right; auto].
Qed.

Lemma keys_dpop_ne k d x : x <> k -> x ∈ keys d -> x ∈ keys (dpop k d).
Proof.
  intros Hne (v & Hv)%keys_dget. apply dget_Some_keys with v.
  by rewrite dget_dpop_ne.
Qed.

Lemma keys_dset_mono k v d x : x ∈ keys d -> x ∈ keys (dset k v d).
Proof.
  intros (v' & Hv)%keys_dget. destruct (decide (k = x)) as [->|].
  - apply dget_Some_keys with v. apply dget_dset_eq.
  - apply dget_Some_keys with v'. by rewrite dget_dset_ne.
Qed.

End dict_facts.

(** ** Ceiling division, sums and lengths *)

Lemma ceil_div_bounds n d :
  0 < d -> (ceil_div n d - 1) * d < n <= ceil_div n d * d.
Proof.
  intros Hd. unfold ceil_div.
  pose proof (Z.div_mod (- n) d ltac:(lia)) as Hdm.
  pose proof (Z.mod_pos_bound (- n) d Hd) as Hm.
  nia.
Qed.

Lemma ceil_div_unique n d q :
  0 < d -> (q - 1) * d < n <= q * d -> ceil_div n d = q.
Proof.
  intros Hd Hq. pose proof (ceil_div_bounds n d Hd) as Hc. nia.
Qed.

Lemma ceil_div_mul k d : 0 < d -> ceil_div (k * d) d = k.
Proof. intros Hd. apply ceil_div_unique; [done | nia]. Qed.

Lemma ceil_div_nonneg n d : 0 < d -> 0 <= n -> 0 <= ceil_div n d.
Proof. intros Hd Hn. pose proof (ceil_div_bounds n d Hd). nia. Qed.

Lemma ceil_div_succ_aligned m d :
  0 < d -> m `mod` d = 0 ->
  ceil_div (m + 1) d = ceil_div m d + 1 /\ m / d = ceil_div m d.
Proof.
  intros Hd Hm. pose proof (Z.div_mod m d ltac:(lia)) as Hdm.
  assert (ceil_div m d = m / d) as ->.
  { apply ceil_div_unique; [done | nia]. }
  split; [|done]. apply ceil_div_unique; [done | nia].
Qed.

Lemma ceil_div_succ_inside m d :
  0 < d -> m `mod` d <> 0 ->
  ceil_div (m + 1) d = ceil_div m d /\ m / d = ceil_div m d - 1.
Proof.
  intros Hd Hm. pose proof (Z.div_mod m d ltac:(lia)) as Hdm.
  pose proof (Z.mod_pos_bound m d Hd) as Hb.
  assert (ceil_div m d = m / d + 1) as ->.
  { apply ceil_div_unique; [done | nia]. }
  split; [|lia]. apply ceil_div_unique; [done | nia].
Qed.

Lemma block_size_positive cfg : 0 < block_size cfg.
Proof. unfold block_size. lia. Qed.

Lemma len_nil {A} : len (@nil A) = 0.
Proof. done. Qed.

Lemma len_app {A} (l1 l2 : list A) : len (l1 ++ l2) = len l1 + len l2.
Proof. unfold len. rewrite length_app. lia. Qed.

Lemma len_nonneg {A} (l : list A) : 0 <= len l.
Proof. unfold len. lia. Qed.

Lemma len_zero_nil {A} (l : list A) : len l = 0 <-> l = [].
Proof. unfold len. destruct l; simpl; split; (done || lia). Qed.

Lemma sum_app l1 l2 : sum (l1 ++ l2) = sum l1 + sum l2.
Proof. unfold sum. induction l1 as [|x l1 IH]; simpl; lia. Qed.

Lemma sum_cons x l : sum (x :: l) = x + sum l.
Proof. done. Qed.

Lemma sum_len_concat (ls : list (list Z)) : sum (len <$> ls) = len (concat ls).
Proof.
  induction ls as [|l ls IH]; [done|].
  rewrite fmap_cons, sum_cons, IH. simpl. by rewrite len_app.
Qed.

Lemma len_range n : 0 <= n -> len (range n) = n.
Proof. intros. unfold len, range. rewrite length_seqZ. lia. Qed.

(** ** The fresh runner *)

Lemma fresh_runner_inv cfg num_blocks :
  0 <= n_blocks (fresh_runner cfg num_blocks) ->
  runner_inv cfg (fresh_runner cfg num_blocks).
Proof.
  intros Hn. unfold fresh_runner, _set_blocks in *. simpl in *.
  split; simpl; try done.
  - unfold all_blocks. simpl. by rewrite app_nil_r.
  - apply NoDup_nil_2.
  - apply NoDup_nil_2.
  - intros k r []%elem_of_nil.
  - intros k b []%elem_of_nil.
Qed.

(** ** Steps that only extend output tokens *)

Lemma extend_output_inv cfg s k r toks :
  runner_inv cfg s ->
  dget k (requests s) = Some r ->
  runner_inv cfg
    (set_requests (dset k (CachedRequestState.extend_output toks r) (requests s)) s).
Proof.
  intros [] Hk. split; simpl; try done.
  - rewrite keys_dset_in; [done | by eapply dget_Some_keys].
  - intros k' r'. pose proof Hk as (d1 & d2 & Hd & Hn)%dget_split.
    rewrite Hd, dset_middle by done.
    intros Hin. assert ((k', r') ∈ requests s \/
                        (k' = k /\ r' = CachedRequestState.extend_output toks r)) as [?|[-> ->]].
    { rewrite Hd. rewrite !elem_of_app, !elem_of_cons in *.
      destruct Hin as [?|[[= -> ->]|?]]; auto. }
    + by apply inv_request0.
    + simpl. apply (inv_request0 k r). by apply dget_elem_of.
Qed.

Lemma update_cached_req_inv cfg req_data i req_id s s' :
  runner_inv cfg s ->
  update_cached_req req_data i req_id s = Ok s' ->
  runner_inv cfg s'.
Proof.
  intros Hinv H. unfold update_cached_req in H.
  inv_bind H. inv_bind H. inv_bind H. inv_bind H.
  injection H as <-.
  unfold dindex in Hstep. destruct (dget req_id (requests s)) as [r|] eqn:Er; [|done].
  injection Hstep as ->.
  destruct (Z.eqb _ 1) eqn:E1.
  - inv_bind Hstep2. injection Hstep2 as <-. by apply extend_output_inv.
  - destruct (Z.ltb 0 (_ - _)) eqn:E2; injection Hstep2 as <-.
    + by apply extend_output_inv.
    + rewrite dset_id by done. by destruct s.
Qed.

Lemma update_cached_reqs_inv cfg req_data reqs s s' :
  runner_inv cfg s ->
  update_cached_reqs req_data reqs s = Ok s' ->
  runner_inv cfg s'.
Proof.
  revert s. induction reqs as [|[i req_id] reqs IH]; simpl; intros s Hinv H.
  - by injection H as <-.
  - inv_bind H. eauto using update_cached_req_inv.
Qed.

Lemma append_sampled_inv cfg req_ids sampled s s' :
  runner_inv cfg s ->
  append_sampled req_ids sampled s = Ok s' ->
  runner_inv cfg s'.
Proof.
  revert s. induction req_ids as [|[i req] req_ids IH]; simpl; intros s Hinv H.
  - by injection H as <-.
  - inv_bind H. inv_bind H.
    unfold dindex in Hstep. destruct (dget req (requests s)) as [r|] eqn:Er; [|done].
    injection Hstep as <-. eapply IH; [|done]. by apply extend_output_inv.
Qed.

(** ** [update_states] *)

Lemma dpops_cons {V} k ks (d : dict V) : dpops (k :: ks) d = dpops ks (dpop k d).
Proof. done. Qed.

Lemma removes_cons k ks b :
  removes (k :: ks) b = removes ks (InputBatch.remove_request k b).
Proof. done. Qed.

Lemma keys_dpops {V} ks (d : dict V) : keys (dpops ks d) = removes ks (keys d).
Proof.
  revert d. induction ks as [|k ks IH]; intros d; [done|].
  by rewrite dpops_cons, removes_cons, IH, keys_dpop.
Qed.

Lemma elem_of_dpop {V} k (d : dict V) x : x ∈ dpop k d -> x ∈ d.
Proof.
  induction d as [|[k1 v1] d IH]; simpl; [done|].
  case_decide.
  - by right.
  - intros [->|?]%elem_of_cons; [left | right; auto].
Qed.

Lemma elem_of_dpops {V} ks (d : dict V) x : x ∈ dpops ks d -> x ∈ d.
Proof.
  revert d. induction ks as [|k ks IH]; intros d; [done|].
  rewrite dpops_cons. intros ?%IH. by eapply elem_of_dpop.
Qed.

Lemma NoDup_keys_dpops {V} ks (d : dict V) :
  NoDup (keys d) -> NoDup (keys (dpops ks d)).
Proof.
  revert d. induction ks as [|k ks IH]; intros d Hd; [done|].
  rewrite dpops_cons. by apply IH, NoDup_keys_dpop.
Qed.

Lemma dget_dpops_elem {V} k ks (d : dict V) :
  NoDup (keys d) -> k ∈ ks -> dget k (dpops ks d) = None.
Proof.
  revert d. induction ks as [|k1 ks IH]; intros d Hd Hin.
  - by apply elem_of_nil in Hin.
  - rewrite dpops_cons. destruct (decide (k ∈ ks)) as [Hk|Hk].
    + by apply IH; [apply NoDup_keys_dpop|].
    + apply elem_of_cons in Hin as [->|?]; [|done].
      apply dget_None. intros Hin.
      assert (k1 ∈ keys (dpop k1 d)) as Hin'.
      { unfold keys in *. apply list_elem_of_fmap in Hin as (x & -> & Hx).
        apply list_elem_of_fmap. exists x. split; [done|]. by eapply elem_of_dpops. }
      apply dget_None in Hin'; [done|]. by apply dget_dpop_eq.
Qed.

Lemma remove_finished_eq finished s :
  remove_finished finished s
  = set_requests (dpops finished (requests s))
      (set_input_batch (removes finished (input_batch s)) s).
Proof.
  revert s. induction finished as [|k ks IH]; intros s; simpl.
  - by destruct s.
  - by rewrite IH.
Qed.

Lemma base_update_states_finished so s s1 :
  update_cached_reqs (SchedulerOutput.scheduled_cached_reqs so)
    (enumerate (CachedRequestData.req_ids (SchedulerOutput.scheduled_cached_reqs so))) s
  = Ok s1 ->
  base_update_states so s
  = Ok (set_requests (dpops (SchedulerOutput.finished_req_ids so) (requests s1))
          (set_input_batch
             (removes (SchedulerOutput.finished_req_ids so) (input_batch s1)) s1)).
Proof.
  intros H. unfold base_update_states. rewrite H. simpl.
  destruct (SchedulerOutput.finished_req_ids so) as [|k ks] eqn:E.
  - by destruct s1.
  - by rewrite remove_finished_eq.
Qed.

Lemma all_blocks_dpop s k b :
  dget k (req_ids2blocks s) = Some b ->
  block_pool s ++ b ++ concat (values (dpop k (req_ids2blocks s)))
  ≡ₚ all_blocks s.
Proof.
  intros (d1 & d2 & Hd & Hn)%dget_split. unfold all_blocks.
  rewrite Hd, dpop_middle by done. unfold values.
  rewrite !fmap_app, !concat_app. simpl.
  apply Permutation_app_head. by rewrite Permutation_app_swap_app.
Qed.

(** One finished id: the step never raises on a coherent ledger. *)
Lemma free_finished_req_spec req_id s :
  ledger_coherent s ->
  exists s',
    free_finished_req req_id s = Ok s'
    /\ req_ids2blocks s' = dpop req_id (req_ids2blocks s)
    /\ requests s' = requests s /\ input_batch s' = input_batch s
    /\ tkv s' = tkv s /\ n_blocks s' = n_blocks s
    /\ all_blocks s' ≡ₚ all_blocks s
    /\ ledger_coherent s'
    /\ (forall k, k ∈ keys (req_ids2reserved_blocks s') ->
                  k ∈ keys (req_ids2reserved_blocks s))
    /\ (exists freed, block_pool s' = block_pool s ++ freed
                      /\ from_option (fun b => freed = b) (freed = [])
                           (dget req_id (req_ids2blocks s)))
    /\ (forall b, dget req_id (req_ids2blocks s) = Some b -> b <> [] ->
                  req_ids2reserved_blocks s'
                  = dpop req_id (req_ids2reserved_blocks s))
    /\ (dget req_id (req_ids2blocks s) = None -> s' = s).
Proof.
  intros (HD & HL & Hsub). unfold free_finished_req.
  destruct (dget req_id (req_ids2blocks s)) as [[|b0 b]|] eqn:E.
  - eexists. split; [done|]. simpl. split_and!; try done; try (by auto).
    + unfold all_blocks. simpl. by rewrite <- (all_blocks_dpop s req_id []).
    + split_and!; simpl; [by apply NoDup_keys_dpop | done |].
      intros k ?%keys_dpop_subseteq. auto.
    + exists []. by rewrite app_nil_r.
    + by intros b [= <-].
  - assert (req_id ∈ keys (req_ids2reserved_blocks s)) as (v & Hv)%keys_dget.
    { apply Hsub. by eapply dget_Some_keys. }
    unfold dindex. simpl. rewrite Hv. simpl.
    eexists. split; [done|]. simpl. split_and!; try done; try (by auto).
    + unfold all_blocks. simpl. rewrite <- (all_blocks_dpop s req_id (b0 :: b)) by done.
      by rewrite <- app_assoc.
    + split_and!; simpl; [by apply NoDup_keys_dpop | by apply NoDup_keys_dpop |].
      intros k Hk. assert (k <> req_id).
      { intros ->. apply dget_None in Hk; [done|]. by apply dget_dpop_eq. }
      apply keys_dpop_ne; [done|]. apply Hsub. by eapply keys_dpop_subseteq.
    + intros k. apply keys_dpop_subseteq.
    + by eexists.
  - eexists. split; [done|]. simpl.
    assert (dpop req_id (req_ids2blocks s) = req_ids2blocks s) as Heq.
    { apply dpop_absent. by apply dget_None. }
    rewrite Heq. split_and!; try done; try (by auto).
    + exists []. by rewrite app_nil_r.
    + intros _. by destruct s.
Qed.

Lemma free_finished_spec finished s :
  ledger_coherent s ->
  exists s',
    free_finished finished s = Ok s'
    /\ req_ids2blocks s' = dpops finished (req_ids2blocks s)
    /\ requests s' = requests s /\ input_batch s' = input_batch s
    /\ tkv s' = tkv s /\ n_blocks s' = n_blocks s
    /\ all_blocks s' ≡ₚ all_blocks s
    /\ ledger_coherent s'
    /\ (forall k, k ∈ keys (req_ids2reserved_blocks s') ->
                  k ∈ keys (req_ids2reserved_blocks s))
    /\ (exists freed, block_pool s' = block_pool s ++ freed).
Proof.
  revert s. induction finished as [|k ks IH]; intros s Hc; simpl.
  - exists s. split_and!; try done. exists []. by rewrite app_nil_r.
  - destruct (free_finished_req_spec k s Hc)
      as (s1 & -> & HD & Hr & Hi & Ht & Hn & Hp & Hc1 & Hl & (fr & Hfr & _) & _).
    simpl. destruct (IH s1 Hc1)
      as (s' & -> & HD' & Hr' & Hi' & Ht' & Hn' & Hp' & Hc' & Hl' & (fr' & Hfr')).
    exists s'.
    split_and!;
      [ done | by rewrite HD', HD | congruence | congruence | congruence
      | congruence | by rewrite Hp' | done | auto | ].
    exists (fr ++ fr'). by rewrite Hfr', Hfr, app_assoc.
Qed.

Lemma tables_nonempty_dpop k s s' :
  tables_nonempty s ->
  req_ids2blocks s' = dpop k (req_ids2blocks s) ->
  tables_nonempty s'.
Proof.
  intros Hne HD k' b. rewrite HD. intros ?%elem_of_dpop. by eapply Hne.
Qed.

(** What finishing does to a request that holds blocks. *)
Lemma free_finished_effect finished s s' rid b :
  ledger_coherent s -> tables_nonempty s ->
  free_finished finished s = Ok s' ->
  rid ∈ finished ->
  dget rid (req_ids2blocks s) = Some b ->
  dget rid (req_ids2blocks s') = None
  /\ dget rid (req_ids2reserved_blocks s') = None
  /\ b ⊆ block_pool s'.
Proof.
  revert s. induction finished as [|k ks IH]; intros s Hc Hne H Hin Hb.
  - by apply elem_of_nil in Hin.
  - simpl in H.
    destruct (free_finished_req_spec k s Hc)
      as (s1 & E1 & HD & _ & _ & _ & _ & _ & Hc1 & _ & (fr & Hfr & Hfr') & HL & _).
    rewrite E1 in H. simpl in H.
    pose proof (tables_nonempty_dpop k s s1 Hne HD) as Hne1.
    destruct (decide (rid = k)) as [->|Hk].
    + rewrite Hb in Hfr'. simpl in Hfr'. subst fr.
      destruct (free_finished_spec ks s1 Hc1)
        as (s'' & E2 & HD' & _ & _ & _ & _ & _ & _ & Hl' & (fr' & Hfr2)).
      rewrite E2 in H. injection H as <-.
      split_and!.
      * rewrite HD', HD, <- dpops_cons. apply dget_dpops_elem; [apply Hc | left].
      * apply dget_None. intros ?%Hl'.
        assert (dget k (req_ids2reserved_blocks s1) = None) as ?%dget_None; [|done].
        rewrite (HL b Hb); [apply dget_dpop_eq, Hc|].
        apply (Hne k). by apply dget_elem_of.
      * rewrite Hfr2, Hfr. intros x Hx. rewrite !elem_of_app. auto.
    + apply elem_of_cons in Hin as [?|Hin]; [done|].
      apply (IH s1); try done. rewrite HD. by rewrite dget_dpop_ne.
Qed.

Lemma inv_ledger_coherent cfg s : runner_inv cfg s -> ledger_coherent s.
Proof. intros []. by split_and!. Qed.

Lemma inv_tables_nonempty cfg s : runner_inv cfg s -> tables_nonempty s.
Proof.
  intros [] k b Hin ->.
  assert (k ∈ keys (requests s)) as Hk.
  { rewrite inv_requests_keys0. unfold keys. apply list_elem_of_fmap. by exists (k, []). }
  apply keys_dget in Hk as (r & Hr%dget_elem_of).
  apply inv_request0 in Hr as [_ Hr]. apply inv_table0 in Hin.
  change (len []) with 0 in Hin. lia.
Qed.

Lemma update_states_inv cfg so s s' :
  runner_inv cfg s ->
  update_states so s = Ok s' ->
  runner_inv cfg s'.
Proof.
  intros Hinv H. unfold update_states in H. inv_bind H. rename a into s2.
  pose proof Hstep as Hb. unfold base_update_states in Hb.
  apply bind_Ok in Hb as (s1 & Hs1 & _).
  rewrite (base_update_states_finished so s s1 Hs1) in Hstep.
  injection Hstep as <-.
  apply (update_cached_reqs_inv cfg) in Hs1 as Hinv1; [|done].
  set (F := SchedulerOutput.finished_req_ids so) in *.
  set (s2 := set_requests _ _) in *.
  assert (ledger_coherent s2) as Hc2.
  { apply (inv_ledger_coherent cfg) in Hinv1. by destruct s1. }
  destruct (free_finished_spec F s2 Hc2)
    as (s'' & E & HD & Hr & Hi & Ht & Hn & Hp & (HcD & HcL & Hcs) & _ & _).
  rewrite E in H. injection H as <-. destruct Hinv1.
  split.
  - by rewrite Hn.
  - by rewrite Hp, Hn.
  - rewrite Hr, HD. simpl. by rewrite !keys_dpops, inv_requests_keys0.
  - rewrite Hi, HD. simpl. by rewrite keys_dpops, inv_input_batch0.
  - done.
  - done.
  - done.
  - intros k r. rewrite Hr, Ht. simpl. intros ?%elem_of_dpops. auto.
  - intros k b. rewrite HD, Ht. simpl. intros ?%elem_of_dpops. eauto.
Qed.

(** ** [reduce_left_padding] *)

Lemma py_min_spec l m :
  py_min l = Ok m -> m ∈ l /\ forall x, x ∈ l -> m <= x.
Proof.
  revert m. induction l as [|x l IH]; intros m; [done|].
  destruct l as [|y l].
  - intros [= ->]. split; [left|]. intros z ->%list_elem_of_singleton. lia.
  - change (py_min (x :: y :: l)) with (py_min (y :: l) ≫= fun m => Ok (Z.min x m)).
    intros H. inv_bind H. injection H as <-.
    destruct (IH a Hstep) as [Hin Hle]. split.
    + destruct (Z.min_spec x a) as [[_ ->]|[_ ->]]; [left | by right].
    + intros z [->|Hz]%elem_of_cons; [lia|]. specialize (Hle z Hz). lia.
Qed.

Lemma py_min_total l : l <> [] -> exists m, py_min l = Ok m.
Proof.
  induction l as [|x l IH]; [done|]. intros _.
  destruct l as [|y l]; [by eexists|].
  destruct IH as [m Hm]; [done|].
  change (py_min (x :: y :: l)) with (py_min (y :: l) ≫= fun m => Ok (Z.min x m)).
  rewrite Hm. by eexists.
Qed.

Lemma free_left_blocks_spec n : forall req_id s b v,
  dget req_id (req_ids2blocks s) = Some b ->
  (n <= length b)%nat ->
  dget req_id (req_ids2reserved_blocks s) = Some v ->
  free_left_blocks n req_id s
  = Ok (set_req_ids2reserved_blocks
          (dset req_id (v - Z.of_nat n) (req_ids2reserved_blocks s))
          (set_block_pool (block_pool s ++ take n b)
             (set_req_ids2blocks (dset req_id (drop n b) (req_ids2blocks s)) s))).
Proof.
  induction n as [|n IH]; intros req_id s b v Hb Hn Hv.
  - simpl. rewrite drop_0, app_nil_r, Z.sub_0_r, !dset_id by done. by destruct s.
  - destruct b as [|x b]; [simpl in Hn; lia|].
    simpl. unfold dindex. rewrite Hb. simpl. rewrite Hv. simpl.
    erewrite IH; simpl.
    + rewrite !dset_dset, <- app_assoc. simpl.
      by replace (v - 1 - Z.of_nat n) with (v - Z.pos (Pos.of_succ_nat n)) by lia.
    + apply dget_dset_eq.
    + simpl in Hn. lia.
    + apply dget_dset_eq.
Qed.

Lemma keys_nil_inv {V} (d : dict V) : keys d = [] -> d = [].
Proof. by destruct d. Qed.

Lemma reduce_reqs_spec offset n reqs : forall done todo s,
  req_ids2blocks s = done ++ todo ->
  keys todo = keys reqs ->
  NoDup (keys (done ++ todo)) ->
  (forall k r, (k, r) ∈ reqs -> CachedRequestState.req_id r = k) ->
  (forall k b, (k, b) ∈ todo -> (Z.to_nat n <= length b)%nat) ->
  (forall k, k ∈ keys todo -> k ∈ keys (req_ids2reserved_blocks s)) ->
  exists s',
    reduce_reqs reqs offset n s
    = Ok (prod_map id (fun r => CachedRequestState.set_left_padding
                                  (CachedRequestState.left_padding r - offset) r)
            <$> reqs, s')
    /\ req_ids2blocks s' = done ++ (prod_map id (drop (Z.to_nat n)) <$> todo)
    /\ block_pool s' = block_pool s ++ concat (take (Z.to_nat n) <$> values todo)
    /\ keys (req_ids2reserved_blocks s') = keys (req_ids2reserved_blocks s)
    /\ requests s' = requests s /\ input_batch s' = input_batch s
    /\ tkv s' = tkv s /\ n_blocks s' = n_blocks s.
Proof.
  induction reqs as [|[k r] reqs IH]; intros dn todo s HD Hk Hnd Hid Hlen Hled.
  - apply keys_nil_inv in Hk as ->. exists s. simpl.
    rewrite app_nil_r in HD. rewrite !app_nil_r. by split_and!.
  - destruct todo as [|[k' b] todo]; [done|].
    injection Hk as -> Hk.
    assert (k ∉ keys dn) as Hfresh.
    { unfold keys in *. rewrite fmap_app in Hnd. simpl in Hnd.
      apply NoDup_app in Hnd as (_ & Hnd & _). intros Hin.
      apply (Hnd _ Hin). left. }
    assert (CachedRequestState.req_id r = k) as Hr by (apply Hid; left).
    destruct (keys_dget k (req_ids2reserved_blocks s)) as [v Hv].
    { apply Hled. left. }
    simpl. rewrite Hr.
    erewrite free_left_blocks_spec;
      [| rewrite HD; by apply dget_middle | apply (Hlen k); left | done].
    simpl. rewrite HD, dset_middle by done.
    set (s1 := set_req_ids2reserved_blocks _ _).
    destruct (IH (dn ++ [(k, drop (Z.to_nat n) b)]) todo s1)
      as (s' & -> & HD' & Hp' & Hl' & Hr' & Hi' & Ht' & Hn').
    + subst s1. simpl. by rewrite <- app_assoc.
    + done.
    + unfold keys in *. rewrite <- app_assoc. rewrite !fmap_app in *. done.
    + intros k0 r0 ?. apply Hid. by right.
    + intros k0 b0 ?. apply (Hlen k0). by right.
    + intros k0 ?. subst s1. simpl. apply keys_dset_mono. apply Hled. by right.
    + exists s'. simpl. split_and!; try done.
      * rewrite HD', <- app_assoc. done.
      * rewrite Hp'. subst s1. simpl. by rewrite <- app_assoc.
      * rewrite Hl'. subst s1. simpl. apply keys_dset_in. by eapply dget_Some_keys.
Qed.

Lemma concat_take_drop n (ls : list (list Z)) :
  concat (take n <$> ls) ++ concat (drop n <$> ls) ≡ₚ concat ls.
Proof.
  induction ls as [|l ls IH]; [done|]. simpl.
  rewrite <- (take_drop n l) at 3. rewrite <- IH.
  rewrite <- !app_assoc. apply Permutation_app_head.
  rewrite !app_assoc. apply Permutation_app_tail. apply Permutation_app_comm.
Qed.

Lemma values_prod_map {A B} (f : A -> B) (d : dict A) :
  values (prod_map id f <$> d) = f <$> values d.
Proof.
  unfold values. rewrite <- !list_fmap_compose. by apply list_fmap_ext; intros ? [].
Qed.

Lemma keys_prod_map {A B} (f : A -> B) (d : dict A) :
  keys (prod_map id f <$> d) = keys d.
Proof.
  unfold keys. rewrite <- !list_fmap_compose. by apply list_fmap_ext; intros ? [].
Qed.

Lemma py_min_shift l m c :
  py_min l = Ok m -> py_min ((fun x => x - c) <$> l) = Ok (m - c).
Proof.
  revert m. induction l as [|x l IH]; intros m; [done|].
  destruct l as [|y l].
  - by intros [= ->].
  - change (py_min (x :: y :: l)) with (py_min (y :: l) ≫= fun m => Ok (Z.min x m)).
    intros H. inv_bind H. injection H as <-.
    specialize (IH a Hstep). set (f := fun x => x - c) in *.
    rewrite !fmap_cons in *.
    change (py_min (f x :: f y :: (f <$> l)))
      with (py_min (f y :: (f <$> l)) ≫= fun m => Ok (Z.min (f x) m)).
    rewrite IH. simpl. subst f. simpl. f_equal. lia.
Qed.

Lemma set_left_padding_id r :
  CachedRequestState.set_left_padding (CachedRequestState.left_padding r - 0) r = r.
Proof. destruct r. unfold CachedRequestState.set_left_padding. simpl. f_equal. lia. Qed.

Lemma concat_take_0 (ls : list (list Z)) : concat (take 0 <$> ls) = [].
Proof. induction ls; [done | by simpl]. Qed.

Lemma set_tkv_same s : set_tkv (tkv s - 0) s = s.
Proof. destruct s. unfold set_tkv. simpl. by rewrite Z.sub_0_r. Qed.

(** Nothing is reclaimed when the smallest left padding is below one
    block. *)
Lemma reduce_left_padding_small cfg s m :
  py_min (CachedRequestState.left_padding <$> values (requests s)) = Ok m ->
  0 <= m < block_size cfg ->
  reduce_left_padding cfg s = Ok s.
Proof.
  intros Hm Hb. unfold reduce_left_padding. case_bool_decide; [done|].
  rewrite Hm. simpl. rewrite Z.div_small by done. simpl. by rewrite set_tkv_same.
Qed.

Lemma reduce_left_padding_spec cfg s :
  runner_inv cfg s ->
  exists n s',
    0 <= n
    /\ (forall m, py_min (CachedRequestState.left_padding <$> values (requests s)) = Ok m ->
                  n = m / block_size cfg)
    /\ reduce_left_padding cfg s = Ok s'
    /\ tkv s' = tkv s - n * block_size cfg
    /\ requests s'
       = prod_map id (fun r => CachedRequestState.set_left_padding
                                 (CachedRequestState.left_padding r - n * block_size cfg) r)
           <$> requests s
    /\ req_ids2blocks s' = prod_map id (drop (Z.to_nat n)) <$> req_ids2blocks s
    /\ block_pool s'
       = block_pool s ++ concat (take (Z.to_nat n) <$> values (req_ids2blocks s))
    /\ (forall k b, (k, b) ∈ req_ids2blocks s -> n <= len b)
    /\ (forall k r, (k, r) ∈ requests s ->
                    n * block_size cfg <= CachedRequestState.left_padding r)
    /\ keys (req_ids2reserved_blocks s') = keys (req_ids2reserved_blocks s)
    /\ input_batch s' = input_batch s /\ n_blocks s' = n_blocks s.
Proof.
  intros Hinv. pose proof (block_size_positive cfg) as Hbs.
  unfold reduce_left_padding. destruct (decide (requests s = [])) as [Ereq|Ereq].
  - assert (req_ids2blocks s = []) as HD.
    { apply keys_nil_inv. by rewrite <- (inv_requests_keys cfg s Hinv), Ereq. }
    exists 0, s. rewrite HD, Ereq. simpl. split_and!; try done; try lia.
    + by rewrite app_nil_r.
    + by intros k b []%elem_of_nil.
    + by intros k b []%elem_of_nil.
  - rewrite bool_decide_eq_false_2 by (by rewrite len_zero_nil).
    destruct (py_min_total (CachedRequestState.left_padding <$> values (requests s)))
      as [m Hm].
    { unfold values. by destruct (requests s). }
    rewrite Hm. simpl. destruct (py_min_spec _ _ Hm) as [Hin Hle].
    assert (forall k r, (k, r) ∈ requests s -> m <= CachedRequestState.left_padding r) as Hmle.
    { intros k r Hr. apply Hle. unfold values.
      rewrite <- list_fmap_compose. apply list_elem_of_fmap. by exists (k, r). }
    assert (0 <= m < tkv s) as Hm0.
    { unfold values in Hin. rewrite <- list_fmap_compose in Hin.
      apply list_elem_of_fmap in Hin as ([k r] & -> & Hr). simpl.
      by apply (inv_request cfg s Hinv) in Hr as [_ ?]. }
    set (n := m / block_size cfg).
    assert (0 <= n) as Hn by (apply Z.div_pos; lia).
    assert (n * block_size cfg <= m) as Hnm.
    { subst n. pose proof (Z.mul_div_le m (block_size cfg) Hbs). lia. }
    assert (forall k b, (k, b) ∈ req_ids2blocks s -> n <= len b) as Hlen.
    { intros k b Hb. apply (inv_table cfg s Hinv) in Hb. nia. }
    exists n. destruct (0 <? n * block_size cfg) eqn:Eoff.
    + destruct (reduce_reqs_spec (n * block_size cfg) n (requests s) [] (req_ids2blocks s) s)
        as (s1 & E1 & HD & Hp & Hl & Hr & Hi & Ht & Hnb).
      * done.
      * symmetry. apply Hinv.
      * apply Hinv.
      * intros k r Hr. by apply (inv_request cfg s Hinv).
      * intros k b Hb. apply Hlen in Hb. unfold len in Hb. lia.
      * apply Hinv.
      * rewrite E1. simpl. eexists. split_and!; try done.
        -- intros m' [= ->]. done.
        -- simpl. lia.
        -- intros k r Hkr. specialize (Hmle k r Hkr). lia.
    + assert (n = 0) as Hn0 by (apply Z.ltb_ge in Eoff; nia).
      rewrite Hn0 in *. simpl. eexists. split_and!; try done.
      * intros m' [= ->]. done.
      * symmetry. etrans; [|apply list_fmap_id].
        apply list_fmap_ext. intros i [k r] _. simpl. unfold prod_map. simpl.
        f_equal. apply set_left_padding_id.
      * simpl. symmetry. etrans; [|apply list_fmap_id].
        apply list_fmap_ext. by intros i [k b] _.
      * simpl. by rewrite concat_take_0, app_nil_r.
      * intros k r Hr. specialize (Hmle k r Hr). lia.
Qed.

Lemma len_drop {A} n (l : list A) :
  0 <= n <= len l -> len (drop (Z.to_nat n) l) = len l - n.
Proof. unfold len. rewrite length_drop. lia. Qed.

Lemma reduce_left_padding_inv cfg s s' :
  runner_inv cfg s ->
  reduce_left_padding cfg s = Ok s' ->
  runner_inv cfg s'.
Proof.
  intros Hinv H.
  destruct (reduce_left_padding_spec cfg s Hinv)
    as (n & s'' & Hn & _ & E & Ht & Hr & HD & Hp & Hlen & Hlp & Hl & Hi & Hnb).
  rewrite E in H. injection H as <-. destruct Hinv.
  split.
  - by rewrite Hnb.
  - unfold all_blocks. rewrite Hp, HD, Hnb, values_prod_map, <- app_assoc.
    by rewrite concat_take_drop.
  - by rewrite Hr, HD, !keys_prod_map.
  - by rewrite Hi, HD, keys_prod_map.
  - by rewrite HD, keys_prod_map.
  - intros k. rewrite HD, keys_prod_map, Hl. auto.
  - by rewrite Hl.
  - intros k r'. rewrite Hr, Ht.
    intros ([k0 r] & [= -> ->] & Hin)%list_elem_of_fmap. simpl.
    destruct (inv_request0 _ _ Hin) as [? ?]. specialize (Hlp _ _ Hin).
    split; [done | lia].
  - intros k b'. rewrite HD, Ht.
    intros ([k0 b] & [= -> ->] & Hin)%list_elem_of_fmap. simpl.
    specialize (inv_table0 _ _ Hin). specialize (Hlen _ _ Hin).
    rewrite len_drop by lia. nia.
Qed.

(** ** [_prepare_prompt] *)

Lemma fill_block_table_step cfg pool0 m pool blocks slots bn :
  0 <= m ->
  fill_inv cfg pool0 m pool blocks slots bn ->
  forall pool1 blocks1 bn1,
    (if decide (m `mod` block_size cfg = 0)
     then popleft pool ≫= fun '(b, pool) => Ok (pool, blocks ++ [b], Some b)
     else Ok (pool, blocks, bn)) = Ok (pool1, blocks1, bn1) ->
    exists b, bn1 = Some b
      /\ fill_inv cfg pool0 (m + 1) pool1 blocks1
           (slots ++ [b * block_size cfg + m `mod` block_size cfg]) (Some b).
Proof.
  intros Hm (Hpool & Hlen & Hslots & Hbn & Hpos) pool1 blocks1 bn1 H.
  pose proof (block_size_positive cfg) as Hbs.
  assert (length slots = Z.to_nat m) as Hslots' by (unfold len in Hslots; lia).
  case_decide as Hmod.
  - destruct pool as [|b pool]; [done|]. simpl in H. injection H as <- <- <-.
    destruct (ceil_div_succ_aligned m (block_size cfg) Hbs Hmod) as [Hc1 Hc2].
    exists b. split; [done|]. split_and!.
    + by rewrite <- app_assoc.
    + rewrite len_app, Hlen, Hc1. done.
    + rewrite len_app, Hslots. done.
    + intros _. by rewrite last_snoc.
    + intros i Hi. destruct (decide (i = m)) as [->|Hne].
      * exists b. split.
        -- rewrite Hc2, <- Hlen. unfold len. rewrite Nat2Z.id.
           by rewrite lookup_app_r, Nat.sub_diag.
        -- by rewrite lookup_app_r, Hslots', Nat.sub_diag by lia.
      * destruct (Hpos i ltac:(lia)) as (b' & Hb1 & Hb2).
        exists b'. split; by apply lookup_app_l_Some.
  - injection H as <- <- <-.
    destruct (ceil_div_succ_inside m (block_size cfg) Hbs Hmod) as [Hc1 Hc2].
    assert (0 < m) as Hm0.
    { destruct (decide (m = 0)) as [->|]; [|lia]. by rewrite Z.mod_0_l in Hmod by lia. }
    destruct (last blocks) as [b|] eqn:Elast.
    2:{ apply last_None in Elast. subst blocks.
        pose proof (ceil_div_bounds m (block_size cfg) Hbs). change (len []) with 0 in Hlen. nia. }
    exists b. split; [by rewrite Hbn|]. split_and!.
    + done.
    + by rewrite Hlen, Hc1.
    + rewrite len_app, Hslots. done.
    + done.
    + intros i Hi. destruct (decide (i = m)) as [->|Hne].
      * exists b. split.
        -- rewrite Hc2, <- Hlen. rewrite last_lookup in Elast.
           rewrite <- Elast. f_equal. unfold len. lia.
        -- by rewrite lookup_app_r, Hslots', Nat.sub_diag by lia.
      * destruct (Hpos i ltac:(lia)) as (b' & Hb1 & Hb2).
        exists b'. split; [done | by apply lookup_app_l_Some].
Qed.

Lemma fill_block_table_inv cfg pool0 cnt :
  forall m pool blocks slots bn pool' blocks' slots',
    0 <= m ->
    fill_inv cfg pool0 m pool blocks slots bn ->
    fill_block_table cfg (seqZ m (Z.of_nat cnt)) pool blocks slots bn
    = Ok (pool', blocks', slots') ->
    fill_inv cfg pool0 (m + Z.of_nat cnt) pool' blocks' slots' (last blocks').
Proof.
  induction cnt as [|cnt IH]; intros m pool blocks slots bn pool' blocks' slots' Hm Hinv H.
  - rewrite seqZ_nil in H by lia. injection H as <- <- <-.
    rewrite Z.add_0_r. destruct Hinv as (? & ? & ? & ? & ?). by split_and!.
  - rewrite seqZ_cons in H by lia.
    replace (Z.pred (Z.of_nat (S cnt))) with (Z.of_nat cnt) in H by lia.
    cbn [fill_block_table] in H. apply bind_Ok in H as ([[pool1 blocks1] bn1] & Hstep & H).
    destruct (fill_block_table_step cfg pool0 m pool blocks slots bn Hm Hinv _ _ _ Hstep)
      as (b & -> & Hinv1).
    apply IH in H; [|lia|done].
    by replace (m + Z.of_nat (S cnt)) with (Z.succ m + Z.of_nat cnt) by lia.
Qed.

Lemma fill_block_table_range cfg n pool pool' blocks slots :
  0 <= n ->
  fill_block_table cfg (range n) pool [] [] None = Ok (pool', blocks, slots) ->
  fill_inv cfg pool n pool' blocks slots (last blocks).
Proof.
  intros Hn H. unfold range in H. rewrite <- (Z2Nat.id n) in H by done.
  apply (fill_block_table_inv cfg pool) in H; [| done |].
  - by rewrite Z.add_0_l, Z2Nat.id in H.
  - pose proof (block_size_positive cfg).
    split_and!;
      [done | symmetry; by apply (ceil_div_mul 0) | done | lia | intros i ?; lia].
Qed.

Lemma pad_input_ids_spec cfg prompt bp s :
  len prompt <= tkv s -> tkv s <= bp ->
  exists toks pos,
    pad_input_ids cfg prompt bp s
    = (set_model_n_pads_right (bp - tkv s) s, (toks, pos))
    /\ len toks = bp /\ len pos = bp.
Proof.
  intros Hp Hbp. unfold pad_input_ids, base_pad_input_ids.
  rewrite Z.max_l by done.
  set (pads := replicate _ _).
  assert (len pads = tkv s - len prompt) as Hpads.
  { subst pads. unfold len in *. rewrite length_replicate. lia. }
  assert (len (pads ++ prompt) = tkv s) as Hleft by (rewrite len_app; lia).
  assert (len (pads ++ range (len prompt)) = tkv s) as Hleft'.
  { rewrite len_app, len_range by apply len_nonneg. lia. }
  rewrite Hleft. destruct (0 <? bp - tkv s) eqn:E.
  - eexists _, _. split; [done|].
    rewrite !(len_app _ (replicate _ _)), Hleft, Hleft'.
    unfold len at 1 2. rewrite !length_replicate. lia.
  - eexists _, _. split; [done|]. apply Z.ltb_ge in E. lia.
Qed.

(** What a successful prefill has done, read off the code. *)
Lemma _prepare_prompt_Ok cfg request s s' mi :
  _prepare_prompt cfg [request] s = Ok (s', mi) ->
  let rid := NewRequestData.req_id request in
  let prompt := NewRequestData.prompt_token_ids request in
  let is_new_batch := bool_decide (req_ids2blocks s = []) in
  exists sp bp blocks slots toks pos,
    NewRequestData.sampling_params request = Some sp
    /\ bp = ceil_div (if is_new_batch then len prompt else tkv s) (block_size cfg)
            * block_size cfg
    /\ tkv s' = (if is_new_batch then bp else tkv s)
    /\ (req_ids2blocks s <> [] -> len prompt <= tkv s)
    /\ fill_block_table cfg (range bp) (block_pool s) [] [] None
       = Ok (block_pool s', blocks, slots)
    /\ req_ids2blocks s' = dset rid blocks (req_ids2blocks s)
    /\ req_ids2reserved_blocks s'
       = dset rid (ceil_div (tkv s' + SamplingParams.max_tokens sp - 1) (block_size cfg))
           (req_ids2reserved_blocks s)
    /\ requests s'
       = dset rid (CachedRequestState.mk rid prompt (Some sp) (SamplingParams.seed sp)
                     [] (tkv s' - len prompt)) (requests s)
    /\ input_batch s' = input_batch s ++ [rid]
    /\ n_blocks s' = n_blocks s
    /\ model_indices s' = [true]
    /\ mi = ModelForwardInputs.mk [toks] [pos] None None None [slots] true
    /\ len toks = bp /\ len pos = bp.
Proof.
  intros H rid prompt is_new_batch. pose proof (block_size_positive cfg) as Hbs.
  unfold _prepare_prompt in H.
  assert (bool_decide (len (req_ids2blocks s) = 0) = is_new_batch) as Hnew.
  { subst is_new_batch. apply bool_decide_ext, len_zero_nil. }
  rewrite Hnew in H. fold rid prompt in H.
  assert (len prompt <= ceil_div (len prompt) (block_size cfg) * block_size cfg) as Hceil1
    by apply ceil_div_bounds, Hbs.
  assert (tkv s <= ceil_div (tkv s) (block_size cfg) * block_size cfg) as Hceil2
    by apply ceil_div_bounds, Hbs.
  apply bind_Ok in H as (u & Hassert & H).
  assert (req_ids2blocks s <> [] -> len prompt <= tkv s) as Hjoin.
  { intros HD. subst is_new_batch. rewrite bool_decide_eq_false_2 in Hassert by done.
    simpl in Hassert. by apply py_assert_Ok, Z.leb_le in Hassert. }
  apply bind_Ok in H as ([[pool' blocks] slots] & Hfill & H). simpl in H.
  destruct (NewRequestData.sampling_params request) as [sp|] eqn:Esp; [|done].
  apply bind_Ok in H as (ib & Hib & H). simpl in H.
  unfold InputBatch.add_request in Hib.
  apply bind_Ok in Hib as (u' & Hcap & [= <-]).
  match type of H with
  | context [pad_input_ids cfg prompt ?bp ?st] =>
      destruct (pad_input_ids_spec cfg prompt bp st) as (toks & pos & Epad & Htoks & Hpos)
  end.
  { simpl. subst is_new_batch. destruct (decide (req_ids2blocks s = [])).
    - rewrite !bool_decide_eq_true_2 by done. lia.
    - rewrite !bool_decide_eq_false_2 by done. auto. }
  { simpl. subst is_new_batch. destruct (decide (req_ids2blocks s = [])).
    - rewrite !bool_decide_eq_true_2 by done. lia.
    - rewrite !bool_decide_eq_false_2 by done. lia. }
  rewrite Epad in H. injection H as <- <-. simpl.
  exists sp, (ceil_div (if is_new_batch then len prompt else tkv s) (block_size cfg)
              * block_size cfg), blocks, slots, toks, pos.
  by split_and!.
Qed.

Lemma inv_tkv_positive cfg s :
  runner_inv cfg s -> req_ids2blocks s <> [] -> 0 < tkv s.
Proof.
  intros Hinv HD. destruct (requests s) as [|[k r] reqs] eqn:E.
  - exfalso. apply HD, keys_nil_inv. by rewrite <- (inv_requests_keys cfg s Hinv), E.
  - assert ((k, r) ∈ requests s) as Hin by (rewrite E; left).
    apply (inv_request cfg s Hinv) in Hin. lia.
Qed.

Lemma inv_no_requests cfg s :
  runner_inv cfg s -> req_ids2blocks s = [] -> requests s = [].
Proof.
  intros Hinv HD. apply keys_nil_inv. by rewrite (inv_requests_keys cfg s Hinv), HD.
Qed.

Lemma _prepare_prompt_inv cfg request s s' mi :
  runner_inv cfg s ->
  NewRequestData.req_id request ∉ keys (requests s) ->
  NewRequestData.prompt_token_ids request <> [] ->
  _prepare_prompt cfg [request] s = Ok (s', mi) ->
  runner_inv cfg s'.
Proof.
  intros Hinv Hfresh Hprompt H. pose proof (block_size_positive cfg) as Hbs.
  apply _prepare_prompt_Ok in H
    as (sp & bp & blocks & slots & toks & pos & Esp & Hbp & Htkv & Hjoin & Hfill
        & HD & HL & HR & HI & HN & _).
  set (rid := NewRequestData.req_id request) in *.
  set (prompt := NewRequestData.prompt_token_ids request) in *.
  assert (0 < len prompt) as Hp.
  { pose proof (len_nonneg prompt). destruct (decide (len prompt = 0)) as [E|]; [|lia].
    by apply len_zero_nil in E. }
  assert (rid ∉ keys (req_ids2blocks s)) as Hfresh'
    by (by rewrite <- (inv_requests_keys cfg s Hinv)).
  assert (0 <= bp /\ len prompt <= tkv s' /\ tkv s' <= bp
          /\ (req_ids2blocks s <> [] -> tkv s' = tkv s)) as (Hbp0 & Hp' & Hle & Hsame).
  { rewrite Htkv, Hbp. destruct (decide (req_ids2blocks s = [])) as [E|E].
    - rewrite !bool_decide_eq_true_2 by done.
      pose proof (ceil_div_bounds (len prompt) (block_size cfg) Hbs). split_and!; [lia..|done].
    - rewrite !bool_decide_eq_false_2 by done.
      pose proof (ceil_div_bounds (tkv s) (block_size cfg) Hbs).
      pose proof (inv_tkv_positive cfg s Hinv E). split_and!; auto; lia. }
  apply fill_block_table_range in Hfill as (Hpool & Hlen & _); [|done].
  assert (tkv s' <= len blocks * block_size cfg) as Hblocks.
  { rewrite Hlen, Hbp, ceil_div_mul, <- Hbp by done. done. }
  rewrite dset_fresh in HD by done. rewrite dset_fresh in HR by done.
  destruct Hinv.
  split.
  - by rewrite HN.
  - rewrite HN. etrans; [|apply inv_blocks0]. unfold all_blocks.
    rewrite HD, Hpool. unfold values. rewrite fmap_app, concat_app. simpl.
    rewrite app_nil_r, (Permutation_app_comm blocks), <- !app_assoc.
    apply Permutation_app_head, Permutation_app_comm.
  - rewrite HR, HD. unfold keys in *. rewrite !fmap_app. by f_equal.
  - rewrite HI, HD. unfold keys in *. rewrite fmap_app. by f_equal.
  - rewrite HD. unfold keys in *. rewrite fmap_app. apply NoDup_app.
    split_and!; [done | | apply NoDup_singleton].
    intros x Hx ->%list_elem_of_singleton. done.
  - intros k. rewrite HD, HL. unfold keys at 1. rewrite fmap_app, elem_of_app.
    intros [Hk | ->%list_elem_of_singleton].
    + by apply keys_dset_mono, inv_ledger0.
    + eapply dget_Some_keys, dget_dset_eq.
  - rewrite HL. by apply NoDup_keys_dset.
  - intros k r. rewrite HR, elem_of_app.
    intros [Hin | [= -> ->]%list_elem_of_singleton].
    + assert (req_ids2blocks s <> []) as Hne.
      { intros E. rewrite (inv_no_requests cfg s) in Hin; [by apply elem_of_nil in Hin | | done].
        by split. }
      rewrite (Hsame Hne). eauto.
    + simpl. split; [done | lia].
  - intros k b. rewrite HD, elem_of_app.
    intros [Hin | [= -> ->]%list_elem_of_singleton]; [|done].
    assert (req_ids2blocks s <> []) as Hne.
    { intros E. rewrite E in Hin. by apply elem_of_nil in Hin. }
    rewrite (Hsame Hne). eauto.
Qed.

(** ** [_prepare_decode] *)

(** What one iteration of the decode loop has done, read off the code. *)
Lemma decode_req_Ok cfg crd rid s rows s' rows' :
  decode_req cfg crd rid s rows = Ok (s', rows') ->
  exists req_state blocks allocated lastb tok seq_len,
    dget rid (requests s) = Some req_state
    /\ dget rid (req_ids2blocks s) = Some blocks
    /\ (if bool_decide (len blocks < tkv s / block_size cfg + 1)
        then exists b, allocated = [b]
        else allocated = [])
    /\ block_pool s = allocated ++ block_pool s'
    /\ req_ids2blocks s' = dset rid (blocks ++ allocated) (req_ids2blocks s)
    /\ last (blocks ++ allocated) = Some lastb
    /\ last (CachedRequestState.output_token_ids req_state) = Some tok
    /\ rows' = mkDecodeRows
                 (rows_input_tokens rows ++ [[tok]])
                 (rows_input_positions rows ++ [[seq_len]])
                 (rows_block_table rows ++ [blocks ++ allocated])
                 (rows_slot_mapping rows
                    ++ [[lastb * block_size cfg + tkv s `mod` block_size cfg]])
                 (rows_left_padded_prompt_mask rows
                    ++ [CachedRequestState.left_padding req_state])
    /\ requests s' = requests s
    /\ req_ids2reserved_blocks s' = req_ids2reserved_blocks s
    /\ input_batch s' = input_batch s
    /\ tkv s' = tkv s /\ n_blocks s' = n_blocks s.
Proof.
  intros H. unfold decode_req in H.
  apply bind_Ok in H as (req_state & Hreq & H).
  apply bind_Ok in H as (blocks & Hblocks & H).
  apply bind_Ok in H as ([s1 blocks'] & Halloc & H). simpl in H.
  apply bind_Ok in H as (lastb & Hlast & H).
  apply bind_Ok in H as (tok & Htok & H).
  apply bind_Ok in H as (idx & Hidx & H).
  apply bind_Ok in H as (seq_len & Hseq & H).
  injection H as <- <-.
  unfold dindex in Hreq, Hblocks.
  destruct (dget rid (requests s)) as [r|] eqn:Er; [|done]. injection Hreq as ->.
  destruct (dget rid (req_ids2blocks s)) as [b0|] eqn:Eb; [|done]. injection Hblocks as ->.
  unfold py_last in Hlast, Htok.
  destruct (last blocks') as [lb|] eqn:Elast; [|done]. injection Hlast as ->.
  destruct (last (CachedRequestState.output_token_ids req_state)) as [t|] eqn:Et; [|done].
  injection Htok as ->.
  destruct (Z.ltb_spec (len blocks) (tkv s / block_size cfg + 1)) as [Hlt|Hge].
  - destruct (block_pool s) as [|b pool] eqn:Ep; [done|]. simpl in Halloc.
    injection Halloc as <- <-.
    exists req_state, blocks, [b], lastb, tok, seq_len.
    rewrite bool_decide_eq_true_2 by done. simpl. split_and!; try done. by exists b.
  - injection Halloc as <- <-.
    exists req_state, blocks, [], lastb, tok, seq_len.
    rewrite bool_decide_eq_false_2 by lia. rewrite !app_nil_r.
    split_and!; try done. by rewrite dset_id.
Qed.

Lemma values_dset_perm k (b b' : list Z) (d : dict (list Z)) :
  dget k d = Some b ->
  exists rest, concat (values d) ≡ₚ b ++ rest
               /\ concat (values (dset k b' d)) ≡ₚ b' ++ rest.
Proof.
  intros (d1 & d2 & -> & Hn)%dget_split. rewrite dset_middle by done.
  exists (concat (values d1) ++ concat (values d2)). unfold values.
  rewrite !fmap_app, !concat_app. simpl. split; solve_Permutation.
Qed.

Lemma elem_of_dset {V} k (v : V) d k' v' :
  (k', v') ∈ dset k v d -> (k', v') ∈ d \/ (k' = k /\ v' = v).
Proof.
  induction d as [|[k1 v1] d IH]; simpl.
  - intros [= -> ->]%list_elem_of_singleton. by right.
  - case_decide.
    + intros [[= -> ->]|?]%elem_of_cons; [by right | left; by right].
    + intros [[= -> ->]|[?|?]%IH]%elem_of_cons; [left; left | left; by right | by right].
Qed.

(** One decode iteration keeps every clause of the invariant that does not
    mention the cursor, never shrinks a table, and leaves the table of the
    request covering the position being written. *)
Lemma decode_req_step cfg crd rid s rows s' rows' :
  decode_req cfg crd rid s rows = Ok (s', rows') ->
  all_blocks s' ≡ₚ all_blocks s
  /\ keys (req_ids2blocks s') = keys (req_ids2blocks s)
  /\ requests s' = requests s
  /\ req_ids2reserved_blocks s' = req_ids2reserved_blocks s
  /\ input_batch s' = input_batch s
  /\ tkv s' = tkv s /\ n_blocks s' = n_blocks s
  /\ (forall k b', (k, b') ∈ req_ids2blocks s' ->
        exists b, (k, b) ∈ req_ids2blocks s /\ len b <= len b')
  /\ (forall b b', dget rid (req_ids2blocks s) = Some b ->
        dget rid (req_ids2blocks s') = Some b' ->
        tkv s <= len b * block_size cfg ->
        tkv s + 1 <= len b' * block_size cfg).
Proof.
  intros (r & blocks & alloc & lastb & tok & sl & Hr & Hb & Halloc & Hpool & HD
          & _ & _ & _ & HR & HL & HI & HT & HN)%decode_req_Ok.
  split_and!; try done.
  - unfold all_blocks. rewrite HD, Hpool.
    destruct (values_dset_perm rid blocks (blocks ++ alloc) _ Hb) as (rest & -> & ->).
    solve_Permutation.
  - rewrite HD. apply keys_dset_in. by eapply dget_Some_keys.
  - intros k b'. rewrite HD. intros [Hin | [-> ->]]%elem_of_dset.
    + by exists b'.
    + exists blocks. split; [by apply dget_elem_of|]. rewrite len_app.
      pose proof (len_nonneg alloc). lia.
  - intros b0 b'. rewrite Hb, HD, dget_dset_eq. intros [= <-] [= <-]. rewrite len_app.
    pose proof (block_size_positive cfg) as Hbs.
    pose proof (Z.div_mod (tkv s) (block_size cfg) ltac:(lia)) as Hdm.
    pose proof (Z.mod_pos_bound (tkv s) (block_size cfg) Hbs) as Hmb.
    case_bool_decide.
    + destruct Halloc as [b ->]. change (len [b]) with 1. nia.
    + subst alloc. change (len []) with 0. nia.
Qed.

Lemma decode_reqs_step cfg crd ids : forall s rows s' rows',
  decode_reqs cfg crd ids s rows = Ok (s', rows') ->
  all_blocks s' ≡ₚ all_blocks s
  /\ keys (req_ids2blocks s') = keys (req_ids2blocks s)
  /\ requests s' = requests s
  /\ req_ids2reserved_blocks s' = req_ids2reserved_blocks s
  /\ input_batch s' = input_batch s
  /\ tkv s' = tkv s /\ n_blocks s' = n_blocks s
  /\ (forall k b', (k, b') ∈ req_ids2blocks s' ->
        exists b, (k, b) ∈ req_ids2blocks s /\ len b <= len b')
  /\ (NoDup (keys (req_ids2blocks s)) ->
      (forall k b, (k, b) ∈ req_ids2blocks s -> tkv s <= len b * block_size cfg) ->
      forall k b', k ∈ ids -> (k, b') ∈ req_ids2blocks s' ->
                   tkv s + 1 <= len b' * block_size cfg).
Proof.
  pose proof (block_size_positive cfg) as Hbs.
  induction ids as [|rid ids IH]; intros s rows s' rows' H; simpl in H.
  - injection H as <- <-. split_and!; try done.
    + intros k b' ?. by exists b'.
    + by intros _ _ k b' ?%elem_of_nil.
  - apply bind_Ok in H as ([s1 rows1] & H1 & H).
    apply decode_req_step in H1 as (Hp1 & Hk1 & Hr1 & Hl1 & Hi1 & Ht1 & Hn1 & Hm1 & Hc1).
    apply IH in H as (Hp & Hk & Hr & Hl & Hi & Ht & Hn & Hm & Hc).
    assert (forall k b', (k, b') ∈ req_ids2blocks s' ->
              exists b, (k, b) ∈ req_ids2blocks s /\ len b <= len b') as Hmono.
    { intros k b' (b1 & (b & ? & ?)%Hm1 & ?)%Hm. exists b. split; [done | lia]. }
    split_and!; try congruence; try done.
    + by rewrite Hp, Hp1.
    + intros Hnd Htab k b' Hin Hb'.
      assert (NoDup (keys (req_ids2blocks s1))) as Hnd1 by (by rewrite Hk1).
      assert (forall k b, (k, b) ∈ req_ids2blocks s1 ->
                tkv s1 <= len b * block_size cfg) as Htab1.
      { intros k1 b1 (b & Hb%Htab & ?)%Hm1. rewrite Ht1. nia. }
      destruct (decide (k ∈ ids)) as [Hids|Hids].
      * rewrite <- Ht1. by eapply (Hc Hnd1 Htab1).
      * apply elem_of_cons in Hin as [->|?]; [|done].
        destruct (Hm _ _ Hb') as (b1 & Hb1 & Hle1).
        destruct (Hm1 _ _ Hb1) as (b & Hb & Hle).
        assert (tkv s + 1 <= len b1 * block_size cfg); [|nia].
        apply (Hc1 b b1); [by apply elem_of_dget | by apply elem_of_dget | by eapply Htab].
Qed.

(** What a successful decode step has done, read off the code. *)
Lemma _prepare_decode_Ok cfg crd s s' mi :
  _prepare_decode cfg crd s = Ok (s', mi) ->
  exists s1 rows,
    decode_reqs cfg crd (input_batch s) s (mkDecodeRows [] [] [] [] []) = Ok (s1, rows)
    /\ 0 < len (CachedRequestData.req_ids crd)
    /\ len (input_batch s) = len (CachedRequestData.req_ids crd)
    /\ tkv s' = tkv s1 + 1
    /\ requests s' = requests s1 /\ input_batch s' = input_batch s1
    /\ req_ids2blocks s' = req_ids2blocks s1
    /\ req_ids2reserved_blocks s' = req_ids2reserved_blocks s1
    /\ block_pool s' = block_pool s1 /\ n_blocks s' = n_blocks s1
    /\ (let single :=
          ModelForwardInputs.mk (rows_input_tokens rows) (rows_input_positions rows)
            (Some (replicate (length (rows_input_tokens rows)) (tkv s1 + 1)))
            (Some (rows_left_padded_prompt_mask rows))
            (Some (rows_block_table rows)) (rows_slot_mapping rows) false in
        if bool_decide (len (CachedRequestData.req_ids crd) = 1)
        then model_indices s' = [true; false]
             /\ mi = ModelForwardInputs.mk
                  (rows_input_tokens rows ++ rows_input_tokens rows)
                  (rows_input_positions rows ++ rows_input_positions rows)
                  (Some (replicate (length (rows_input_tokens rows)) (tkv s1 + 1)
                         ++ replicate (length (rows_input_tokens rows)) (tkv s1 + 1)))
                  (Some (rows_left_padded_prompt_mask rows
                         ++ rows_left_padded_prompt_mask rows))
                  (Some (rows_block_table rows ++ rows_block_table rows))
                  (rows_slot_mapping rows ++ rows_slot_mapping rows) false
        else model_indices s'
             = replicate (length (CachedRequestData.req_ids crd)) true
             /\ mi = single).
Proof.
  intros H. unfold _prepare_decode in H.
  apply bind_Ok in H as (u1 & Hne%py_assert_Ok%Z.ltb_lt & H).
  apply bind_Ok in H as (u2 & Hlen%py_assert_Ok%bool_decide_eq_true & H).
  unfold InputBatch.sorted_requests_ids in H.
  apply bind_Ok in H as ([s1 rows] & Hloop & H). simpl in H.
  apply bind_Ok in H as (u3 & Hrect & H).
  apply bind_Ok in H as ([s2 mi2] & Hpad & H).
  apply bind_Ok in H as (u4 & Hmin & H). injection H as <- <-.
  exists s1, rows. split_and!; try done;
    try (case_bool_decide; [apply bind_Ok in Hpad as (? & _ & Hpad)|];
         by injection Hpad as <- <-).
  case_bool_decide as Hone.
  - apply bind_Ok in Hpad as (? & _ & Hpad). injection Hpad as <- <-. simpl.
    split; [|done]. unfold len in Hone.
    by replace (length (CachedRequestData.req_ids crd)) with 1%nat by lia.
  - by injection Hpad as <- <-.
Qed.

Lemma _prepare_decode_inv cfg crd s s' mi :
  runner_inv cfg s ->
  _prepare_decode cfg crd s = Ok (s', mi) ->
  runner_inv cfg s'.
Proof.
  intros Hinv H.
  apply _prepare_decode_Ok in H
    as (s1 & rows & Hloop & _ & _ & Ht & Hr & Hi & HD & HL & HP & HN & _).
  apply decode_reqs_step in Hloop
    as (Hp1 & Hk1 & Hr1 & Hl1 & Hi1 & Ht1 & Hn1 & Hm1 & Hc1).
  destruct Hinv. split.
  - by rewrite HN, Hn1.
  - rewrite HN, Hn1. etrans; [|apply inv_blocks0]. etrans; [|apply Hp1].
    unfold all_blocks. by rewrite HP, HD.
  - by rewrite Hr, HD, Hr1, Hk1.
  - by rewrite Hi, HD, Hi1, Hk1.
  - by rewrite HD, Hk1.
  - intros k. rewrite HD, HL, Hk1, Hl1. auto.
  - by rewrite HL, Hl1.
  - intros k r. rewrite Hr, Hr1, Ht, Ht1. intros [? ?]%inv_request0. split; [done | lia].
  - intros k b'. rewrite HD, Ht, Ht1. intros Hb'.
    apply (Hc1 inv_nodup0 inv_table0 k); [|done].
    rewrite inv_input_batch0, <- Hk1. unfold keys. apply list_elem_of_fmap. by exists (k, b').
Qed.

(** ** Every reachable state satisfies the invariant *)

Lemma reachable_inv cfg s : reachable cfg s -> runner_inv cfg s.
Proof.
  induction 1;
    eauto using fresh_runner_inv, update_states_inv, reduce_left_padding_inv,
      _prepare_prompt_inv, _prepare_decode_inv, append_sampled_inv.
Qed.

(** ** [execute_model] stays within the reachable states *)

Lemma update_cached_reqs_keys req_data reqs : forall s s1,
  update_cached_reqs req_data reqs s = Ok s1 ->
  keys (requests s1) = keys (requests s).
Proof.
  induction reqs as [|[i req_id] reqs IH]; intros s s1 H; simpl in H.
  - by injection H as <-.
  - apply bind_Ok in H as (s0 & H0 & H). rewrite (IH _ _ H).
    unfold update_cached_req in H0.
    apply bind_Ok in H0 as (r & Hr & H0). apply bind_Ok in H0 as (? & _ & H0).
    apply bind_Ok in H0 as (? & _ & H0). apply bind_Ok in H0 as (? & _ & H0).
    injection H0 as <-. simpl. apply keys_dset_in.
    unfold dindex in Hr. destruct (dget req_id (requests s)) eqn:E; [|done].
    by eapply dget_Some_keys.
Qed.

Lemma update_states_keys cfg so s s' k :
  runner_inv cfg s ->
  update_states so s = Ok s' ->
  k ∈ keys (requests s') -> k ∈ keys (requests s).
Proof.
  intros Hinv H. unfold update_states in H. apply bind_Ok in H as (s2 & Hbase & H).
  pose proof Hbase as Hb1. unfold base_update_states in Hb1.
  apply bind_Ok in Hb1 as (s1 & Hs1 & _).
  rewrite (base_update_states_finished so s s1 Hs1) in Hbase. injection Hbase as <-.
  pose proof (update_cached_reqs_inv cfg _ _ _ _ Hinv Hs1) as Hinv1.
  apply update_cached_reqs_keys in Hs1 as <-.
  set (s2 := set_requests _ _) in *.
  destruct (free_finished_spec (SchedulerOutput.finished_req_ids so) s2)
    as (s'' & E & _ & Hr & _).
  { apply (inv_ledger_coherent cfg) in Hinv1. by destruct s1. }
  rewrite E in H. injection H as <-. rewrite Hr. subst s2. simpl.
  unfold keys. intros (x & -> & Hx)%list_elem_of_fmap.
  apply list_elem_of_fmap. exists x. split; [done|]. by eapply elem_of_dpops.
Qed.

(** A whole step keeps the runner reachable, provided the new request
    carries an id that is not resident and a prompt that is not empty. *)
Lemma execute_model_reachable cfg model_sample so s s' out :
  reachable cfg s ->
  (forall request, request ∈ SchedulerOutput.scheduled_new_reqs so ->
     (NewRequestData.req_id request ∉ keys (requests s))
     /\ NewRequestData.prompt_token_ids request <> []) ->
  execute_model cfg model_sample so s = Ok (s', out) ->
  reachable cfg s'.
Proof.
  intros Hreach Hnew H. unfold execute_model, base_execute_model in H.
  apply bind_Ok in H as ([s3 output] & H & [= -> _]).
  apply bind_Ok in H as (s0 & Hupd & H).
  pose proof (reach_update_states cfg so s s0 Hreach Hupd) as Hreach0.
  destruct (_ =? 0); [by injection H as <- _|].
  apply bind_Ok in H as ([s2 mi] & Hprep & H). simpl in H.
  apply bind_Ok in H as (s4 & Happ & H).
  assert (s' = s4) as ->.
  { by destruct (is_driver_worker cfg); simpl in H; injection H as <- _. }
  eapply (reach_append_sampled cfg _ _ s2); [|exact Happ].
  unfold prepare_model_input in Hprep. apply bind_Ok in Hprep as (s1 & Hred & Hprep).
  pose proof (reach_reduce_left_padding cfg s0 s1 Hreach0 Hred) as Hreach1.
  unfold base_prepare_model_input in Hprep.
  destruct (0 <? len (SchedulerOutput.scheduled_new_reqs so)).
  - apply bind_Ok in Hprep as (u & _ & Hprep).
    destruct (SchedulerOutput.scheduled_new_reqs so) as [|request [|]] eqn:E;
      try done.
    destruct (Hnew request ltac:(left)) as [Hfresh Hprompt].
    apply (reach_prepare_prompt cfg request s1 s2 mi); try done.
    intros Hin. apply Hfresh.
    apply (update_states_keys cfg so s s0); [by apply reachable_inv | done |].
    destruct (reduce_left_padding_spec cfg s0 (reachable_inv cfg s0 Hreach0))
      as (n & s1' & _ & _ & E1 & _ & Hr & _).
    rewrite E1 in Hred. injection Hred as ->.
    by rewrite Hr, keys_prod_map in Hin.
  - by eapply (reach_prepare_decode cfg _ s1 s2 mi).
Qed.

(** ** The worked scenario is reachable *)

Lemma scenario_s0_reachable : reachable Scenario.cfg Scenario.s0.
Proof. apply reach_fresh. by vm_compute. Qed.

Lemma scenario_s1_reachable : reachable Scenario.cfg Scenario.s1.
Proof.
  eapply (reach_prepare_prompt _ Scenario.req_a Scenario.s0);
    [apply scenario_s0_reachable | apply not_elem_of_nil | by vm_compute |].
  vm_compute. reflexivity.
Qed.

Lemma scenario_s2_reachable : reachable Scenario.cfg Scenario.s2.
Proof.
  eapply (reach_append_sampled _ [(0%nat, "a")] [[42]] Scenario.s1);
    [apply scenario_s1_reachable|].
  vm_compute. reflexivity.
Qed.

Lemma scenario_s3_reachable : reachable Scenario.cfg Scenario.s3.
Proof.
  eapply (reach_prepare_decode _ Scenario.decode_a Scenario.s2);
    [apply scenario_s2_reachable|].
  vm_compute. reflexivity.
Qed.

(** * The properties *)

(** ** Block conservation *)

Lemma dget_subseteq_concat k (b : list Z) (d : dict (list Z)) :
  dget k d = Some b -> b ⊆ concat (values d).
Proof.
  intros (d1 & d2 & -> & _)%dget_split. unfold values.
  rewrite fmap_app, concat_app. simpl. intros x Hx. rewrite !elem_of_app. auto.
Qed.

Lemma tables_disjoint (d : dict (list Z)) r1 r2 b1 b2 x :
  NoDup (concat (values d)) ->
  r1 <> r2 -> dget r1 d = Some b1 -> dget r2 d = Some b2 ->
  x ∈ b1 -> x ∉ b2.
Proof.
  induction d as [|[k v] d IH]; [done|].
  unfold values. simpl. fold (values d).
  intros (Hv & Hdisj & Hrest)%NoDup_app Hne.
  case_decide as E1; case_decide as E2.
  - congruence.
  - intros [= <-] H2%dget_subseteq_concat Hx1 Hx2. apply (Hdisj x); auto.
  - intros H1%dget_subseteq_concat [= <-] Hx1 Hx2. apply (Hdisj x); auto.
  - by apply IH.
Qed.

(** C1. In every reachable state of the continuous-batching runner the
    number of block ids in the free pool plus the number of blocks held by
    the resident requests equals [n_blocks]; no block id occurs twice among
    the pool and the block tables, so no block is held by two resident
    requests at once. *)
Theorem block_conservation cfg s :
  reachable cfg s ->
  len (block_pool s) + blocks_held s = n_blocks s
  /\ NoDup (all_blocks s)
  /\ forall r1 r2 b1 b2 x,
       r1 <> r2 ->
       dget r1 (req_ids2blocks s) = Some b1 ->
       dget r2 (req_ids2blocks s) = Some b2 ->
       x ∈ b1 -> x ∉ b2.
Proof.
  intros Hinv%reachable_inv. destruct Hinv.
  assert (NoDup (all_blocks s)) as Hnd.
  { rewrite inv_blocks0. apply NoDup_seqZ. }
  split_and!; [|done|].
  - unfold blocks_held. rewrite sum_len_concat, <- len_app.
    fold (all_blocks s). unfold len. rewrite inv_blocks0.
    fold (len (range (n_blocks s))). by apply len_range.
  - intros r1 r2 b1 b2 x. apply tables_disjoint.
    unfold all_blocks in Hnd. by apply NoDup_app in Hnd as (_ & _ & ?).
Qed.

Lemma block_conservation_witness :
  reachable Scenario.cfg Scenario.s3
  /\ len (block_pool Scenario.s3) + blocks_held Scenario.s3 = n_blocks Scenario.s3.
Proof.
  split; [apply scenario_s3_reachable|].
  apply (block_conservation Scenario.cfg Scenario.s3), scenario_s3_reachable.
Defined.

(** ** The free-block count reported to the scheduler *)

(** C4, as the claim states it, fails: after the prefill of the scenario
    the pool holds 6 block ids while [get_n_free_blocks] reports 5. *)
Lemma free_count_is_not_pool_size :
  reachable Scenario.cfg Scenario.s1
  /\ len (block_pool Scenario.s1) = 6
  /\ get_n_free_blocks Scenario.s1 = 5
  /\ get_n_free_blocks Scenario.s1 <> len (block_pool Scenario.s1).
Proof. split; [apply scenario_s1_reachable | by vm_compute]. Qed.

(** C4, amended. In every reachable state [get_n_free_blocks] is
    [n_blocks] minus the sum of the reservation ledger, that is the size of
    the free pool plus the blocks held minus the blocks reserved; it is the
    size of the pool exactly when the reservations add up to the blocks
    held. *)
Theorem free_count_is_unreserved cfg s :
  reachable cfg s ->
  get_n_free_blocks s = n_blocks s - blocks_reserved s
  /\ get_n_free_blocks s = len (block_pool s) + blocks_held s - blocks_reserved s
  /\ (get_n_free_blocks s = len (block_pool s) <-> blocks_reserved s = blocks_held s).
Proof.
  intros Hreach.
  destruct (reachable_inv cfg s Hreach) as [_ Hperm _ _ _ _ _ _ _].
  pose proof (reachable_inv cfg s Hreach) as [Hn _ _ _ _ _ _ _ _].
  assert (len (block_pool s) + blocks_held s = n_blocks s) as Hcons.
  { unfold blocks_held. rewrite sum_len_concat, <- len_app.
    fold (all_blocks s). unfold len. rewrite Hperm.
    fold (len (range (n_blocks s))). by apply len_range. }
  unfold get_n_free_blocks, blocks_reserved. split_and!; lia.
Qed.

Lemma free_count_is_unreserved_witness :
  reachable Scenario.cfg Scenario.s1
  /\ get_n_free_blocks Scenario.s1
     = len (block_pool Scenario.s1) + blocks_held Scenario.s1
       - blocks_reserved Scenario.s1.
Proof.
  split; [apply scenario_s1_reachable|].
  apply (free_count_is_unreserved Scenario.cfg Scenario.s1), scenario_s1_reachable.
Defined.

(** ** Prefill *)

(** C7. The ledger entry recorded by a prefill is
    [ceil((tkv + max_tokens - 1) / block_size)], with [tkv] the cursor after
    the prefill has (re)initialised it: the padded prompt length for a new
    batch, the unchanged cursor when joining. The source computes the
    ceiling through a floating-point quotient, so the statement is for a
    numerator [tkv + max_tokens - 1] in the range where that is exact. *)
Theorem reservation_at_admission cfg request s s' mi :
  _prepare_prompt cfg [request] s = Ok (s', mi) ->
  (forall sp, NewRequestData.sampling_params request = Some sp ->
              float_exact (tkv s' + SamplingParams.max_tokens sp - 1)) ->
  exists sp,
    NewRequestData.sampling_params request = Some sp
    /\ tkv s' = (if bool_decide (req_ids2blocks s = [])
                 then ceil_div (len (NewRequestData.prompt_token_ids request))
                        (block_size cfg) * block_size cfg
                 else tkv s)
    /\ dget (NewRequestData.req_id request) (req_ids2reserved_blocks s')
       = Some (ceil_div (tkv s' + SamplingParams.max_tokens sp - 1) (block_size cfg)).
Proof.
  intros H _. apply _prepare_prompt_Ok in H
    as (sp & bp & blocks & slots & toks & pos & Esp & Hbp & Htkv & _ & _ & _ & HL & _).
  exists sp. split_and!; [done | |].
  - rewrite Htkv, Hbp. by case_bool_decide.
  - rewrite HL. apply dget_dset_eq.
Qed.

Lemma reservation_at_admission_witness :
  _prepare_prompt Scenario.cfg [Scenario.req_a] Scenario.s0
  = Ok (Scenario.s1,
        Scenario.mi_of (_prepare_prompt Scenario.cfg [Scenario.req_a] Scenario.s0))
  /\ tkv Scenario.s1 = 128
  /\ dget "a" (req_ids2reserved_blocks Scenario.s1) = Some (ceil_div (128 + 20 - 1) 64).
Proof.
  assert (_prepare_prompt Scenario.cfg [Scenario.req_a] Scenario.s0
          = Ok (Scenario.s1,
                Scenario.mi_of (_prepare_prompt Scenario.cfg [Scenario.req_a] Scenario.s0)))
    as H by (by vm_compute).
  split; [exact H|].
  destruct (reservation_at_admission _ _ _ _ _ H) as (sp & Esp & Ht & Hl).
  { intros sp [= <-]. by vm_compute. }
  injection Esp as <-. split; [by vm_compute | exact Hl].
Defined.

(** C3, as the claim states it, fails when joining: with the cursor at 129
    (one decode step after a prefill padded to 128) the prefill of a
    100-token prompt is padded to 192 positions and takes 3 blocks; the
    padded length is not the cursor. *)
Lemma joining_prefill_not_padded_to_cursor :
  exists s' mi toks slots,
    _prepare_prompt Scenario.cfg [Scenario.req_b] Scenario.s3 = Ok (s', mi)
    /\ req_ids2blocks Scenario.s3 <> []
    /\ tkv Scenario.s3 = 129 /\ tkv s' = 129
    /\ ModelForwardInputs.input_tokens mi = [toks]
    /\ ModelForwardInputs.slot_mapping mi = [slots]
    /\ len toks = 192 /\ len slots = 192
    /\ dget "b" (req_ids2blocks s') = Some [3; 4; 5]
    /\ len toks <> tkv Scenario.s3.
Proof.
  destruct (_prepare_prompt Scenario.cfg [Scenario.req_b] Scenario.s3)
    as [[s' mi]|e] eqn:E; [|by vm_compute in E].
  exists s', mi.
  destruct mi as [[|toks [|]] pos ctm lpm bt [|slots [|]] isp];
    try (by vm_compute in E).
  exists toks, slots. vm_compute in E. injection E as <- <- <- <- <- <- <- <-.
  by vm_compute.
Qed.

(** C3, amended. A successful prefill of one request pads the prompt to
    [ceil(n / block_size) * block_size] positions, where [n] is the prompt
    length for a new batch and the current cursor when joining (so the
    padded length is the cursor rounded up to the next block boundary, and
    the cursor itself only when it is block aligned); the cursor becomes the
    padded length for a new batch and is unchanged when joining. One block
    per block-size chunk of the padded length is taken from the front of
    the pool, and position [i] is mapped to slot
    [block(i / block_size) * block_size + i mod block_size]. *)
Theorem prefill_padding_and_slots cfg request s s' mi :
  _prepare_prompt cfg [request] s = Ok (s', mi) ->
  exists padded blocks toks slots,
    ModelForwardInputs.input_tokens mi = [toks]
    /\ ModelForwardInputs.slot_mapping mi = [slots]
    /\ len toks = padded /\ len slots = padded
    /\ (req_ids2blocks s = [] ->
        padded = ceil_div (len (NewRequestData.prompt_token_ids request))
                   (block_size cfg) * block_size cfg
        /\ tkv s' = padded)
    /\ (req_ids2blocks s <> [] ->
        padded = ceil_div (tkv s) (block_size cfg) * block_size cfg
        /\ tkv s' = tkv s)
    /\ block_pool s = blocks ++ block_pool s'
    /\ len blocks * block_size cfg = padded
    /\ dget (NewRequestData.req_id request) (req_ids2blocks s') = Some blocks
    /\ forall i, 0 <= i < padded ->
         exists b, blocks !! Z.to_nat (i / block_size cfg) = Some b
                   /\ slots !! Z.to_nat i
                      = Some (b * block_size cfg + i `mod` block_size cfg).
Proof.
  intros H. pose proof (block_size_positive cfg) as Hbs.
  apply _prepare_prompt_Ok in H
    as (sp & bp & blocks & slots & toks & pos & Esp & Hbp & Htkv & Hjoin & Hfill
        & HD & _ & _ & _ & _ & _ & -> & Htoks & _).
  assert (0 <= bp) as Hbp0.
  { rewrite Hbp. case_bool_decide as E.
    - pose proof (ceil_div_nonneg (len (NewRequestData.prompt_token_ids request))
                    (block_size cfg) Hbs (len_nonneg _)). nia.
    - specialize (Hjoin E).
      pose proof (len_nonneg (NewRequestData.prompt_token_ids request)).
      pose proof (ceil_div_nonneg (tkv s) (block_size cfg) Hbs ltac:(lia)). nia. }
  apply fill_block_table_range in Hfill as (Hpool & Hlen & Hslots & _ & Hpos); [|done].
  exists bp, blocks, toks, slots. simpl. split_and!; try done.
  - intros E. rewrite Htkv, Hbp. by rewrite !bool_decide_eq_true_2.
  - intros E. rewrite Htkv, Hbp. by rewrite !bool_decide_eq_false_2.
  - rewrite Hlen. rewrite Hbp at 1. by rewrite ceil_div_mul.
  - rewrite HD. apply dget_dset_eq.
Qed.

Lemma prefill_padding_and_slots_witness :
  _prepare_prompt Scenario.cfg [Scenario.req_a] Scenario.s0
  = Ok (Scenario.s1,
        Scenario.mi_of (_prepare_prompt Scenario.cfg [Scenario.req_a] Scenario.s0))
  /\ exists blocks, block_pool Scenario.s0 = blocks ++ block_pool Scenario.s1
                    /\ len blocks * 64 = tkv Scenario.s1.
Proof.
  assert (_prepare_prompt Scenario.cfg [Scenario.req_a] Scenario.s0
          = Ok (Scenario.s1,
                Scenario.mi_of (_prepare_prompt Scenario.cfg [Scenario.req_a] Scenario.s0)))
    as H by (by vm_compute).
  split; [exact H|].
  destruct (prefill_padding_and_slots _ _ _ _ _ H)
    as (padded & blocks & toks & slots & _ & _ & _ & _ & Hnew & _ & Hpool & Hlen & _).
  exists blocks. split; [exact Hpool|].
  destruct (Hnew eq_refl) as [_ ->]. exact Hlen.
Defined.

Lemma fill_block_table_raises cfg positions : forall pool blocks slots bn e,
  fill_block_table cfg positions pool blocks slots bn = Raise e ->
  e = IndexError "pop from an empty deque" \/ e = UnboundLocalError "block_number".
Proof.
  induction positions as [|pos_i rest IH]; intros pool blocks slots bn e H; [done|].
  cbn [fill_block_table] in H. case_decide.
  - destruct pool as [|b pool]; simpl in H; [injection H as <-; by left|].
    by apply IH in H.
  - simpl in H. destruct bn as [bn|]; [by apply IH in H|].
    injection H as <-. by right.
Qed.

(** Everything a prefill does after the cursor check raises something
    else than the shape violation, or returns. *)
Ltac prefill_after_check H :=
  let E := fresh "E" in
  destruct (fill_block_table _ _ _ _ _ _) as [[[? ?] ?]|?] eqn:E; simpl in H;
  [ destruct (NewRequestData.sampling_params _); [|done];
    unfold InputBatch.add_request, py_assert in H;
    destruct (_ <? _); simpl in H; [|done];
    by destruct (pad_input_ids _ _ _ _) as [? [? ?]]
  | injection H as ->; by apply fill_block_table_raises in E as [?|?] ].

(** C8. A prefill raises the shape violation [prompt_len <= self.tkv]
    exactly when it joins a non-empty batch with a prompt longer than the
    cursor: it always does so in that case, before anything else is done,
    and never when the prompt fits or the batch is new. *)
Theorem prefill_shape_violation cfg request s :
  _prepare_prompt cfg [request] s = Raise (AssertionError "prompt_len <= self.tkv")
  <-> req_ids2blocks s <> []
      /\ tkv s < len (NewRequestData.prompt_token_ids request).
Proof.
  unfold _prepare_prompt.
  rewrite (bool_decide_ext (len (req_ids2blocks s) = 0) (req_ids2blocks s = []))
    by apply len_zero_nil.
  split.
  - intros H. destruct (decide (req_ids2blocks s = [])) as [E|E].
    + exfalso. rewrite bool_decide_eq_true_2 in H by done. simpl in H.
      prefill_after_check H.
    + split; [done|]. rewrite bool_decide_eq_false_2 in H by done. simpl in H.
      destruct (Z.leb_spec (len (NewRequestData.prompt_token_ids request)) (tkv s))
        as [Hle|Hgt]; [|done].
      exfalso. simpl in H. prefill_after_check H.
  - intros [E Hgt]. rewrite bool_decide_eq_false_2 by done. simpl.
    by rewrite (proj2 (Z.leb_gt _ _) Hgt).
Qed.

Lemma prefill_shape_violation_witness :
  _prepare_prompt Scenario.cfg [Scenario.req_c] Scenario.s3
  = Raise (AssertionError "prompt_len <= self.tkv").
Proof.
  apply (proj2 (prefill_shape_violation Scenario.cfg Scenario.req_c Scenario.s3)).
  by vm_compute.
Defined.

(** ** Decode *)

(** The decode loop, request by request: the blocks taken from the pool,
    the block tables and the slot of every request in the batch. *)
Lemma decode_reqs_spec cfg crd ids : forall s rows s' rows',
  decode_reqs cfg crd ids s rows = Ok (s', rows') ->
  NoDup ids ->
  exists allocated tabs slots,
    block_pool s = allocated ++ block_pool s'
    /\ tkv s' = tkv s
    /\ rows_block_table rows' = rows_block_table rows ++ tabs
    /\ rows_slot_mapping rows' = rows_slot_mapping rows ++ slots
    /\ (forall k, k ∉ ids -> dget k (req_ids2blocks s') = dget k (req_ids2blocks s))
    /\ forall i rid, ids !! i = Some rid ->
         exists blocks blocks' lastb,
           dget rid (req_ids2blocks s) = Some blocks
           /\ dget rid (req_ids2blocks s') = Some blocks'
           /\ (if bool_decide (len blocks < tkv s / block_size cfg + 1)
               then exists b, b ∈ allocated /\ blocks' = blocks ++ [b]
               else blocks' = blocks)
           /\ last blocks' = Some lastb
           /\ tabs !! i = Some blocks'
           /\ slots !! i
              = Some [lastb * block_size cfg + tkv s `mod` block_size cfg].
Proof.
  induction ids as [|rid ids IH]; intros s rows s' rows' H Hnd; simpl in H.
  - injection H as <- <-. exists [], [], []. rewrite !app_nil_r.
    by split_and!.
  - apply bind_Ok in H as ([s1 rows1] & H1 & H).
    apply NoDup_cons in Hnd as [Hrid Hnd].
    apply decode_req_Ok in H1
      as (r & blocks & alloc & lastb & tok & sl & _ & Hb & Halloc & Hpool & HD
          & Hlast & _ & -> & _ & _ & _ & HT & _).
    destruct (IH _ _ _ _ H Hnd)
      as (alloc2 & tabs2 & slots2 & Hpool2 & HT2 & Htabs & Hslots & Hframe & Hidx).
    simpl in Htabs, Hslots.
    exists (alloc ++ alloc2), ((blocks ++ alloc) :: tabs2),
      ([lastb * block_size cfg + tkv s `mod` block_size cfg] :: slots2).
    split_and!.
    + by rewrite Hpool, Hpool2, app_assoc.
    + congruence.
    + by rewrite Htabs, <- app_assoc.
    + by rewrite Hslots, <- app_assoc.
    + intros k [Hk1 Hk2]%not_elem_of_cons.
      by rewrite (Hframe k Hk2), HD, dget_dset_ne.
    + intros [|i] rid'; simpl.
      * intros [= <-]. exists blocks, (blocks ++ alloc), lastb.
        split_and!; try done.
        -- by rewrite (Hframe rid Hrid), HD, dget_dset_eq.
        -- case_bool_decide.
           ++ destruct Halloc as [b ->]. exists b. split; [|done].
              apply elem_of_app. left. left.
           ++ subst alloc. by rewrite app_nil_r.
      * intros Hi. destruct (Hidx i rid' Hi)
          as (blocks1 & blocks1' & lastb1 & Hb1 & Hb1' & Hcond & Hlast1 & Ht1 & Hs1).
        assert (rid <> rid') as Hne.
        { intros ->. apply Hrid. by eapply list_elem_of_lookup_2. }
        exists blocks1, blocks1', lastb1. rewrite HT in *.
        split_and!; try done.
        -- by rewrite HD, dget_dset_ne in Hb1.
        -- case_bool_decide; [|done]. destruct Hcond as (b & Hin & ->).
           exists b. split; [|done]. apply elem_of_app. by right.
Qed.

(** C2, as the claim states it, fails: one decode step from cursor 128
    appends block 2 and writes slot [2 * 64 + 128 mod 64 = 128], computed
    from the cursor before it is advanced; with the advanced cursor 129 the
    slot would be 129. *)
Lemma decode_slot_uses_cursor_before_advance :
  exists s' mi,
    _prepare_decode Scenario.cfg Scenario.decode_a Scenario.s2 = Ok (s', mi)
    /\ tkv Scenario.s2 = 128 /\ tkv s' = 129
    /\ dget "a" (req_ids2blocks s') = Some [0; 1; 2]
    /\ ModelForwardInputs.slot_mapping mi = [[128]; [128]]
    /\ ModelForwardInputs.slot_mapping mi !! 0%nat
       <> Some [2 * block_size Scenario.cfg + tkv s' `mod` block_size Scenario.cfg].
Proof.
  destruct (_prepare_decode Scenario.cfg Scenario.decode_a Scenario.s2)
    as [[s' mi]|e] eqn:E; [|by vm_compute in E].
  exists s', mi. vm_compute in E. injection E as <- <-. by vm_compute.
Qed.

(** C2, amended. A successful decode step from a reachable state advances
    the cursor by exactly 1. A resident request whose block table does not
    reach the position being written (the cursor before the advance sits at
    the end of its last block) gets exactly one block, taken from the pool
    and appended to its table; the others keep their table. The slot of
    every request is [last_block_id * block_size + tkv mod block_size] with
    [tkv] the cursor before the advance. *)
Theorem decode_step cfg crd s s' mi :
  reachable cfg s ->
  _prepare_decode cfg crd s = Ok (s', mi) ->
  tkv s' = tkv s + 1
  /\ exists allocated,
       block_pool s = allocated ++ block_pool s'
       /\ forall i rid, input_batch s !! i = Some rid ->
            exists blocks blocks' lastb,
              dget rid (req_ids2blocks s) = Some blocks
              /\ dget rid (req_ids2blocks s') = Some blocks'
              /\ (len blocks < tkv s / block_size cfg + 1
                  <-> tkv s = len blocks * block_size cfg)
              /\ (if bool_decide (len blocks < tkv s / block_size cfg + 1)
                  then exists b, b ∈ allocated /\ blocks' = blocks ++ [b]
                  else blocks' = blocks)
              /\ last blocks' = Some lastb
              /\ ModelForwardInputs.slot_mapping mi !! i
                 = Some [lastb * block_size cfg + tkv s `mod` block_size cfg].
Proof.
  intros Hinv%reachable_inv H. pose proof (block_size_positive cfg) as Hbs.
  apply _prepare_decode_Ok in H
    as (s1 & rows & Hloop & _ & _ & Ht & _ & _ & HD & _ & HP & _ & Hmi).
  apply decode_reqs_spec in Hloop
    as (allocated & tabs & slots & Hpool & HT & _ & Hslots & _ & Hidx).
  2:{ rewrite (inv_input_batch cfg s Hinv). apply Hinv. }
  simpl in Hslots. split; [lia|]. exists allocated. split; [by rewrite HP|].
  intros i rid Hi.
  destruct (Hidx i rid Hi) as (blocks & blocks' & lastb & Hb & Hb' & Hcond & Hlast & _ & Hs).
  exists blocks, blocks', lastb. rewrite HD. split_and!; try done.
  - apply dget_elem_of, (inv_table cfg s Hinv) in Hb.
    pose proof (Z.div_mod (tkv s) (block_size cfg) ltac:(lia)) as Hdm.
    pose proof (Z.mod_pos_bound (tkv s) (block_size cfg) Hbs) as Hmb.
    pose proof (len_nonneg blocks). split; intros; nia.
  - simpl in Hmi.
    destruct (bool_decide (len (CachedRequestData.req_ids crd) = 1));
      destruct Hmi as [_ ->]; simpl; rewrite Hslots.
    + by apply lookup_app_l_Some.
    + done.
Qed.

Lemma decode_step_witness :
  reachable Scenario.cfg Scenario.s2
  /\ _prepare_decode Scenario.cfg Scenario.decode_a Scenario.s2
     = Ok (Scenario.s3,
           Scenario.mi_of (_prepare_decode Scenario.cfg Scenario.decode_a Scenario.s2))
  /\ tkv Scenario.s3 = tkv Scenario.s2 + 1.
Proof.
  assert (_prepare_decode Scenario.cfg Scenario.decode_a Scenario.s2
          = Ok (Scenario.s3,
                Scenario.mi_of
                  (_prepare_decode Scenario.cfg Scenario.decode_a Scenario.s2)))
    as H by (by vm_compute).
  split; [apply scenario_s2_reachable|]. split; [exact H|].
  apply (decode_step _ _ _ _ _ scenario_s2_reachable H).
Defined.

Lemma len_one_singleton {A} (l : list A) : len l = 1 -> exists x, l = [x].
Proof.
  unfold len. destruct l as [|x [|y l]]; simpl; intros; try lia. by exists x.
Qed.

(** C9. When exactly one request is scheduled for (and resident in) a
    decode step, every decode input is the single real row twice, the
    active-row mask is [True, False], and only row 0 of the sampled token
    ids is appended to the request's output: nothing sampled for the
    duplicate row reaches any request. *)
Theorem single_request_decode cfg model_sample so s sF out :
  execute_model cfg model_sample so s = Ok (sF, out) ->
  SchedulerOutput.total_num_scheduled_tokens so <> 0 ->
  SchedulerOutput.scheduled_new_reqs so = [] ->
  len (CachedRequestData.req_ids (SchedulerOutput.scheduled_cached_reqs so)) = 1 ->
  exists s0 s1 s2 mi rid r tok pos table slot,
    update_states so s = Ok s0
    /\ reduce_left_padding cfg s0 = Ok s1
    /\ _prepare_decode cfg (SchedulerOutput.scheduled_cached_reqs so) s1 = Ok (s2, mi)
    /\ input_batch s1 = [rid]
    /\ dget rid (requests s2) = Some r
    /\ dget rid (req_ids2blocks s2) = Some table
    /\ mi = ModelForwardInputs.mk
              [[tok]; [tok]] [[pos]; [pos]]
              (Some [tkv s2; tkv s2])
              (Some [CachedRequestState.left_padding r;
                     CachedRequestState.left_padding r])
              (Some [table; table]) [[slot]; [slot]] false
    /\ model_indices s2 = [true; false]
    /\ exists row0 rest,
         model_sample mi (model_indices s2) = row0 :: rest
         /\ requests sF
            = dset rid (CachedRequestState.extend_output row0 r) (requests s2).
Proof.
  intros H Htot Hnew Hone. unfold execute_model, base_execute_model in H.
  apply bind_Ok in H as ([s3 output] & H & [= -> <-]).
  apply bind_Ok in H as (s0 & Hupd & H).
  rewrite (proj2 (Z.eqb_neq _ _) Htot) in H.
  apply bind_Ok in H as ([s2 mi] & Hprep & H). simpl in H.
  unfold prepare_model_input in Hprep.
  apply bind_Ok in Hprep as (s1 & Hred & Hprep).
  unfold base_prepare_model_input in Hprep. rewrite Hnew in Hprep. simpl in Hprep.
  pose proof Hprep as Hdec.
  apply _prepare_decode_Ok in Hprep
    as (sl & rows & Hloop & _ & Hlen & Ht & Hr & Hi & HD & _ & _ & _ & Hmi).
  rewrite Hone in Hlen. apply len_one_singleton in Hlen as [rid Hib].
  rewrite Hib in Hloop. simpl in Hloop.
  apply bind_Ok in Hloop as ([sl' rows'] & Hreq & [= -> ->]).
  apply decode_req_Ok in Hreq
    as (r & blocks & alloc & lastb & tok & pos & Hrq & _ & _ & _ & HDl & _ & _ & ->
        & HR & _ & HI & _ & _).
  simpl in Hmi. rewrite bool_decide_eq_true_2 in Hmi by done.
  destruct Hmi as [Hidx ->].
  apply bind_Ok in H as (s4 & Happ & H).
  assert (sF = s4) as ->.
  { by destruct (is_driver_worker cfg); simpl in H; injection H as <- _. }
  clear H. simpl in Happ. unfold InputBatch.sorted_requests_ids in Happ.
  rewrite Hi, HI, Hib in Happ. simpl in Happ.
  apply bind_Ok in Happ as (r' & Hr' & Happ).
  apply bind_Ok in Happ as (row0 & Hrow & [= <-]).
  unfold dindex in Hr'. rewrite Hr, HR, Hrq in Hr'. injection Hr' as <-.
  unfold py_nth in Hrow.
  destruct (model_sample _ _) as [|row0' rest] eqn:Es; [done|].
  injection Hrow as ->.
  eexists s0, s1, s2, _, rid, r, tok, pos, (blocks ++ alloc), _.
  split_and!; try done.
  - by rewrite Hr, HR.
  - by rewrite HD, HDl, dget_dset_eq.
  - simpl. by rewrite Ht.
  - exists row0, rest. split; [exact Es|]. by rewrite Hr, HR.
Qed.

(** ** Finished requests *)

Lemma update_cached_reqs_frame req_data reqs : forall s s1,
  update_cached_reqs req_data reqs s = Ok s1 ->
  req_ids2blocks s1 = req_ids2blocks s
  /\ req_ids2reserved_blocks s1 = req_ids2reserved_blocks s
  /\ block_pool s1 = block_pool s
  /\ input_batch s1 = input_batch s.
Proof.
  induction reqs as [|[i req_id] reqs IH]; intros s s1 H; simpl in H.
  - by injection H as <-.
  - apply bind_Ok in H as (s0 & H0 & H). apply IH in H as (-> & -> & -> & ->).
    unfold update_cached_req in H0.
    apply bind_Ok in H0 as (? & _ & H0). apply bind_Ok in H0 as (? & _ & H0).
    apply bind_Ok in H0 as (? & _ & H0). apply bind_Ok in H0 as (? & _ & H0).
    by injection H0 as <-.
Qed.

Lemma remove_request_absent rid (b : InputBatch.t) :
  rid ∉ b -> InputBatch.remove_request rid b = b.
Proof.
  induction b as [|r b IH]; simpl; [done|].
  rewrite not_elem_of_cons. intros [? ?]. rewrite decide_False by done. by rewrite IH.
Qed.

(** The end of a step in which [rid], resident with the blocks [blocks],
    was reported finished. *)
Lemma update_states_finished_effect cfg so s s' rid blocks :
  runner_inv cfg s ->
  update_states so s = Ok s' ->
  rid ∈ SchedulerOutput.finished_req_ids so ->
  dget rid (req_ids2blocks s) = Some blocks ->
  dget rid (req_ids2blocks s') = None
  /\ dget rid (req_ids2reserved_blocks s') = None
  /\ dget rid (requests s') = None
  /\ (rid ∉ input_batch s')
  /\ blocks ⊆ block_pool s'.
Proof.
  intros Hinv H Hin Hb. pose proof (update_states_inv cfg so s s' Hinv H) as Hinv'.
  unfold update_states in H. apply bind_Ok in H as (s2 & Hbase & H).
  pose proof Hbase as Hb1. unfold base_update_states in Hb1.
  apply bind_Ok in Hb1 as (s1 & Hs1 & _).
  rewrite (base_update_states_finished so s s1 Hs1) in Hbase. injection Hbase as <-.
  pose proof (update_cached_reqs_inv cfg _ _ _ _ Hinv Hs1) as Hinv1.
  apply update_cached_reqs_frame in Hs1 as (HD1 & HL1 & HP1 & HI1).
  set (s2 := set_requests _ _) in *.
  assert (ledger_coherent s2) as Hc2.
  { apply (inv_ledger_coherent cfg) in Hinv1. by destruct s1. }
  assert (tables_nonempty s2) as Hne2.
  { apply (inv_tables_nonempty cfg) in Hinv1. by destruct s1. }
  destruct (free_finished_effect _ s2 s' rid blocks Hc2 Hne2 H Hin)
    as (HD' & HL' & Hsub).
  { subst s2. simpl. by rewrite HD1. }
  split_and!; try done.
  - apply dget_None. rewrite (inv_requests_keys cfg s' Hinv'). by apply dget_None.
  - rewrite (inv_input_batch cfg s' Hinv'). by apply dget_None.
Qed.

Lemma update_states_total cfg so s :
  runner_inv cfg s ->
  CachedRequestData.req_ids (SchedulerOutput.scheduled_cached_reqs so) = [] ->
  exists s', update_states so s = Ok s'.
Proof.
  intros Hinv Hc. unfold update_states.
  rewrite (base_update_states_finished so s s) by (by rewrite Hc).
  simpl. set (s2 := set_requests _ _).
  destruct (free_finished_spec (SchedulerOutput.finished_req_ids so) s2) as (s' & E & _).
  { apply (inv_ledger_coherent cfg) in Hinv. by destruct s. }
  by exists s'.
Qed.

Lemma update_states_absent cfg so s rid :
  runner_inv cfg s ->
  CachedRequestData.req_ids (SchedulerOutput.scheduled_cached_reqs so) = [] ->
  SchedulerOutput.finished_req_ids so = [rid] ->
  dget rid (req_ids2blocks s) = None ->
  update_states so s = Ok s.
Proof.
  intros Hinv Hc Hf Hb. unfold update_states.
  rewrite (base_update_states_finished so s s) by (by rewrite Hc).
  rewrite Hf. simpl. apply dget_None in Hb.
  rewrite remove_request_absent by (by rewrite (inv_input_batch cfg s Hinv)).
  rewrite dpop_absent by (by rewrite (inv_requests_keys cfg s Hinv)).
  assert (set_requests (requests s) (set_input_batch (input_batch s) s) = s) as ->
    by (by destruct s).
  destruct (free_finished_req_spec rid s (inv_ledger_coherent cfg s Hinv))
    as (s' & E & _ & _ & _ & _ & _ & _ & _ & _ & _ & _ & Hsame).
  rewrite E. simpl. rewrite Hsame; [done|]. by apply dget_None.
Qed.

(** The truth test in [update_states] also skips a block table that is
    present but empty: the table is dropped and the ledger is left as it
    is. No reachable state has such a table ([inv_tables_nonempty]). *)
Lemma free_finished_req_empty_table rid s :
  dget rid (req_ids2blocks s) = Some [] ->
  free_finished_req rid s
  = Ok (set_req_ids2blocks (dpop rid (req_ids2blocks s)) s).
Proof. intros H. unfold free_finished_req. by rewrite H. Qed.

(** C5. From a reachable state: a finished id that is resident loses its
    block table, its blocks go back to the pool and its ledger entry goes;
    at the end of the step it has no block table, no ledger entry, no cached
    state and no slot, and its blocks are in the pool. A finished id that is
    not resident is a no-op: both loops leave the runner as it is. *)
Theorem finished_request_released cfg s rid :
  reachable cfg s ->
  (forall blocks, dget rid (req_ids2blocks s) = Some blocks ->
     (exists s1,
        free_finished_req rid s = Ok s1
        /\ req_ids2blocks s1 = dpop rid (req_ids2blocks s)
        /\ dget rid (req_ids2blocks s1) = None
        /\ block_pool s1 = block_pool s ++ blocks
        /\ req_ids2reserved_blocks s1 = dpop rid (req_ids2reserved_blocks s)
        /\ dget rid (req_ids2reserved_blocks s1) = None)
     /\ forall so s',
          rid ∈ SchedulerOutput.finished_req_ids so ->
          update_states so s = Ok s' ->
          dget rid (req_ids2blocks s') = None
          /\ dget rid (req_ids2reserved_blocks s') = None
          /\ dget rid (requests s') = None
          /\ (rid ∉ input_batch s')
          /\ blocks ⊆ block_pool s')
  /\ (dget rid (req_ids2blocks s) = None ->
      remove_finished [rid] s = s
      /\ free_finished_req rid s = Ok s
      /\ forall so,
           CachedRequestData.req_ids (SchedulerOutput.scheduled_cached_reqs so) = [] ->
           SchedulerOutput.finished_req_ids so = [rid] ->
           update_states so s = Ok s).
Proof.
  intros Hinv%reachable_inv. split.
  - intros blocks Hb. split.
    + destruct (free_finished_req_spec rid s (inv_ledger_coherent cfg s Hinv))
        as (s1 & E & HD & _ & _ & _ & _ & _ & _ & _ & (fr & Hfr & Hfr') & HL & _).
      rewrite Hb in Hfr'. simpl in Hfr'. subst fr.
      assert (blocks <> []) as Hne.
      { apply (inv_tables_nonempty cfg s Hinv rid). by apply dget_elem_of. }
      exists s1. split_and!; try done.
      * rewrite HD. apply dget_dpop_eq, Hinv.
      * by apply (HL blocks).
      * rewrite (HL blocks) by done. apply dget_dpop_eq, Hinv.
    + intros so s' Hin H. by apply (update_states_finished_effect cfg so s).
  - intros Hb. split_and!.
    + simpl. apply dget_None in Hb.
      rewrite remove_request_absent by (by rewrite (inv_input_batch cfg s Hinv)).
      rewrite dpop_absent by (by rewrite (inv_requests_keys cfg s Hinv)).
      by destruct s.
    + destruct (free_finished_req_spec rid s (inv_ledger_coherent cfg s Hinv))
        as (s' & E & _ & _ & _ & _ & _ & _ & _ & _ & _ & _ & Hsame).
      by rewrite E, Hsame.
    + intros so Hc Hf. by apply (update_states_absent cfg so s rid).
Qed.

Lemma scenario_s4_reachable : reachable Scenario.cfg Scenario.s4.
Proof.
  eapply (reach_prepare_prompt _ Scenario.req_d Scenario.s3);
    [apply scenario_s3_reachable | | by vm_compute |].
  - change (keys (requests Scenario.s3)) with ["a"].
    by intros [[=]|[]%elem_of_nil]%elem_of_cons.
  - vm_compute. reflexivity.
Qed.

Lemma scenario_s5_reachable : reachable Scenario.cfg Scenario.s5.
Proof.
  eapply (reach_update_states _ Scenario.so_finish_a Scenario.s4);
    [apply scenario_s4_reachable|].
  vm_compute. reflexivity.
Qed.

Lemma finished_request_released_witness :
  reachable Scenario.cfg Scenario.s4
  /\ "a" ∈ SchedulerOutput.finished_req_ids Scenario.so_finish_a
  /\ update_states Scenario.so_finish_a Scenario.s4 = Ok Scenario.s5
  /\ dget "a" (req_ids2blocks Scenario.s4) = Some [0; 1; 2]
  /\ dget "a" (req_ids2reserved_blocks Scenario.s5) = None
  /\ [0; 1; 2] ⊆ block_pool Scenario.s5.
Proof.
  assert ("a" ∈ SchedulerOutput.finished_req_ids Scenario.so_finish_a) as Hin
    by (simpl; left).
  assert (update_states Scenario.so_finish_a Scenario.s4 = Ok Scenario.s5) as Hupd
    by (by vm_compute).
  assert (dget "a" (req_ids2blocks Scenario.s4) = Some [0; 1; 2]) as Hb
    by (by vm_compute).
  destruct (proj2 (proj1 (finished_request_released Scenario.cfg Scenario.s4 "a"
                            scenario_s4_reachable) [0; 1; 2] Hb)
              Scenario.so_finish_a Scenario.s5 Hin Hupd) as (_ & HL & _ & _ & Hsub).
  split_and!;
    [ apply scenario_s4_reachable | exact Hin | exact Hupd | exact Hb
    | exact HL | exact Hsub ].
Defined.

(** ** Steps with nothing scheduled *)

(** C10. A call of [execute_model] with zero scheduled tokens is exactly
    [update_states] followed by the empty output with [tkv = 0] (whatever
    the cursor is) and the current free-block count. From a reachable state
    it returns whenever no cached request is scheduled, and every finished
    id that was resident has then lost its block table, its ledger entry and
    its cached state, with its blocks back in the pool. *)
Theorem zero_token_step cfg model_sample so s :
  SchedulerOutput.total_num_scheduled_tokens so = 0 ->
  execute_model cfg model_sample so s
  = (update_states so s ≫= fun s' =>
       Ok (s', CBSpyreModelRunnerOutput.mk [] [] [] 0 (get_n_free_blocks s')))
  /\ (reachable cfg s ->
      (CachedRequestData.req_ids (SchedulerOutput.scheduled_cached_reqs so) = [] ->
       exists s' out, execute_model cfg model_sample so s = Ok (s', out))
      /\ forall s' out,
           execute_model cfg model_sample so s = Ok (s', out) ->
           update_states so s = Ok s'
           /\ out = CBSpyreModelRunnerOutput.mk [] [] [] 0 (get_n_free_blocks s')
           /\ forall rid blocks,
                rid ∈ SchedulerOutput.finished_req_ids so ->
                dget rid (req_ids2blocks s) = Some blocks ->
                dget rid (req_ids2blocks s') = None
                /\ dget rid (req_ids2reserved_blocks s') = None
                /\ dget rid (requests s') = None
                /\ (rid ∉ input_batch s')
                /\ blocks ⊆ block_pool s').
Proof.
  intros Htot.
  assert (execute_model cfg model_sample so s
          = (update_states so s ≫= fun s' =>
               Ok (s', CBSpyreModelRunnerOutput.mk [] [] [] 0 (get_n_free_blocks s'))))
    as Hexec.
  { unfold execute_model, base_execute_model. rewrite Htot.
    by destruct (update_states so s). }
  split; [exact Hexec|]. intros Hinv%reachable_inv. split.
  - intros Hc. destruct (update_states_total cfg so s Hinv Hc) as [s' Hs'].
    rewrite Hexec, Hs'. by eexists _, _.
  - intros s' out H. rewrite Hexec in H.
    apply bind_Ok in H as (s1 & Hupd & [= -> <-]).
    split_and!; try done.
    intros rid blocks Hin Hb. by apply (update_states_finished_effect cfg so s).
Qed.

Lemma zero_token_step_witness :
  SchedulerOutput.total_num_scheduled_tokens Scenario.so_finish_a = 0
  /\ reachable Scenario.cfg Scenario.s4
  /\ execute_model Scenario.cfg Scenario.sampler Scenario.so_finish_a Scenario.s4
     = Ok (Scenario.s5,
           CBSpyreModelRunnerOutput.mk [] [] [] 0 (get_n_free_blocks Scenario.s5))
  /\ dget "a" (req_ids2blocks Scenario.s4) = Some [0; 1; 2]
  /\ dget "a" (req_ids2blocks Scenario.s5) = None
  /\ dget "a" (req_ids2reserved_blocks Scenario.s5) = None.
Proof.
  pose proof (zero_token_step Scenario.cfg Scenario.sampler Scenario.so_finish_a
                Scenario.s4 eq_refl) as [Hexec Hreach].
  assert (execute_model Scenario.cfg Scenario.sampler Scenario.so_finish_a Scenario.s4
          = Ok (Scenario.s5,
                CBSpyreModelRunnerOutput.mk [] [] [] 0
                  (get_n_free_blocks Scenario.s5))) as H.
  { rewrite Hexec. by vm_compute. }
  assert (dget "a" (req_ids2blocks Scenario.s4) = Some [0; 1; 2]) as Hb
    by (by vm_compute).
  destruct (Hreach scenario_s4_reachable) as [_ Heff].
  destruct (Heff _ _ H) as (_ & _ & Hfin).
  destruct (Hfin "a" [0; 1; 2] ltac:(simpl; left) Hb) as (HD & HL & _).
  split_and!;
    [ reflexivity | apply scenario_s4_reachable | exact H | exact Hb
    | exact HD | exact HL ].
Defined.

(** ** Left-padding reclamation *)

(** C6. From a reachable state [reduce_left_padding] returns; with [n] the
    smallest left padding over the resident requests divided (rounding down)
    by the block size, it takes exactly the first [n] blocks off every block
    table and appends them to the pool, lowers every left padding and the
    cursor by [n * block_size], which is a whole number of blocks not
    exceeding any left padding, and a second call right after changes
    nothing. *)
Theorem left_padding_reclamation cfg s :
  reachable cfg s ->
  exists n s',
    0 <= n
    /\ (forall m,
          py_min (CachedRequestState.left_padding <$> values (requests s)) = Ok m ->
          n = m / block_size cfg)
    /\ reduce_left_padding cfg s = Ok s'
    /\ tkv s' = tkv s - n * block_size cfg
    /\ requests s'
       = prod_map id (fun r => CachedRequestState.set_left_padding
                                 (CachedRequestState.left_padding r - n * block_size cfg) r)
           <$> requests s
    /\ req_ids2blocks s' = prod_map id (drop (Z.to_nat n)) <$> req_ids2blocks s
    /\ block_pool s'
       = block_pool s ++ concat (take (Z.to_nat n) <$> values (req_ids2blocks s))
    /\ (forall k b, (k, b) ∈ req_ids2blocks s -> n <= len b)
    /\ (forall k r, (k, r) ∈ requests s ->
                    n * block_size cfg <= CachedRequestState.left_padding r)
    /\ reduce_left_padding cfg s' = Ok s'.
Proof.
  intros Hinv%reachable_inv. pose proof (block_size_positive cfg) as Hbs.
  destruct (reduce_left_padding_spec cfg s Hinv)
    as (n & s' & Hn & Hmin & E & Ht & Hr & HD & Hp & Hlen & Hlp & _).
  exists n, s'. split_and!; try done.
  destruct (decide (requests s = [])) as [Er|Er].
  - unfold reduce_left_padding. rewrite Hr, Er. done.
  - destruct (py_min_total (CachedRequestState.left_padding <$> values (requests s)))
      as [m Hm].
    { unfold values. by destruct (requests s). }
    specialize (Hmin m Hm). subst n.
    apply (reduce_left_padding_small cfg s' (m - m / block_size cfg * block_size cfg)).
    + rewrite Hr, values_prod_map, <- list_fmap_compose.
      rewrite (list_fmap_compose CachedRequestState.left_padding
                 (fun x => x - m / block_size cfg * block_size cfg)).
      by apply py_min_shift.
    + pose proof (Z.div_mod m (block_size cfg) ltac:(lia)).
      pose proof (Z.mod_pos_bound m (block_size cfg) Hbs). lia.
Qed.

Lemma left_padding_reclamation_witness :
  reachable Scenario.cfg Scenario.s5
  /\ exists s',
       reduce_left_padding Scenario.cfg Scenario.s5 = Ok s'
       /\ tkv s' = 129 - 1 * 64
       /\ req_ids2blocks s' = [("d", [4; 5])]
       /\ block_pool s' = [6; 7; 0; 1; 2; 3]
       /\ reduce_left_padding Scenario.cfg s' = Ok s'.
Proof.
  split; [apply scenario_s5_reachable|].
  destruct (left_padding_reclamation Scenario.cfg Scenario.s5 scenario_s5_reachable)
    as (n & s' & _ & Hmin & E & Ht & _ & HD & Hp & _ & _ & Hidem).
  specialize (Hmin 119 eq_refl). subst n.
  exists s'. split_and!; [exact E | exact Ht | exact HD | exact Hp | exact Hidem].
Defined.

Lemma single_request_decode_witness :
  SchedulerOutput.total_num_scheduled_tokens Scenario.so_decode_a <> 0
  /\ exists sF out s2 mi,
       execute_model Scenario.cfg Scenario.sampler Scenario.so_decode_a Scenario.s2
       = Ok (sF, out)
       /\ ModelForwardInputs.slot_mapping mi = [[128]; [128]]
       /\ model_indices s2 = [true; false]
       /\ exists r, requests sF
                    = dset "a" (CachedRequestState.extend_output [43] r) (requests s2).
Proof.
  split; [done|].
  destruct (execute_model Scenario.cfg Scenario.sampler Scenario.so_decode_a Scenario.s2)
    as [[sF out]|e] eqn:E; [|by vm_compute in E].
  destruct (single_request_decode _ _ _ _ _ _ E ltac:(done) eq_refl eq_refl)
    as (s0 & s1 & s2 & mi & rid & r & tok & pos & table & slot
        & Hupd & Hred & Hdec & Hib & _ & _ & Hmi & Hidx & row0 & rest & Hs & Hreq).
  vm_compute in Hupd. injection Hupd as <-.
  vm_compute in Hred. injection Hred as <-.
  vm_compute in Hib. injection Hib as <-.
  unfold Scenario.sampler in Hs. injection Hs as <- <-.
  exists sF, out, s2, mi. split_and!; try done.
  - vm_compute in Hdec. injection Hdec as _ Hmi'. by rewrite <- Hmi'.
  - by exists r.
Defined.

(** * Further properties of the runner *)

(** ** Frames of the steps *)

Lemma append_sampled_frame req_ids sampled : forall s s',
  append_sampled req_ids sampled s = Ok s' ->
  req_ids2blocks s' = req_ids2blocks s
  /\ req_ids2reserved_blocks s' = req_ids2reserved_blocks s
  /\ block_pool s' = block_pool s
  /\ input_batch s' = input_batch s
  /\ tkv s' = tkv s /\ n_blocks s' = n_blocks s.
Proof.
  induction req_ids as [|[i req] req_ids IH]; intros s s' H; simpl in H.
  - by injection H as <-.
  - apply bind_Ok in H as (r & _ & H). apply bind_Ok in H as (row & _ & H).
    by apply IH in H as (-> & -> & -> & -> & -> & ->).
Qed.

Lemma update_states_frame cfg so s s' :
  runner_inv cfg s ->
  update_states so s = Ok s' ->
  tkv s' = tkv s /\ n_blocks s' = n_blocks s
  /\ req_ids2blocks s' = dpops (SchedulerOutput.finished_req_ids so) (req_ids2blocks s)
  /\ exists s1,
       update_cached_reqs (SchedulerOutput.scheduled_cached_reqs so)
         (enumerate (CachedRequestData.req_ids
                       (SchedulerOutput.scheduled_cached_reqs so))) s = Ok s1
       /\ requests s' = dpops (SchedulerOutput.finished_req_ids so) (requests s1).
Proof.
  intros Hinv H. unfold update_states in H. apply bind_Ok in H as (s2 & Hbase & H).
  pose proof Hbase as Hb1. unfold base_update_states in Hb1.
  apply bind_Ok in Hb1 as (s1 & Hs1 & _).
  rewrite (base_update_states_finished so s s1 Hs1) in Hbase. injection Hbase as <-.
  pose proof (update_cached_reqs_inv cfg _ _ _ _ Hinv Hs1) as Hinv1.
  pose proof (update_cached_reqs_frame _ _ _ _ Hs1) as (HD1 & _ & _ & _).
  set (s2 := set_requests _ _) in *.
  destruct (free_finished_spec (SchedulerOutput.finished_req_ids so) s2)
    as (s'' & E & HD & Hr & _ & Ht & Hn & _).
  { apply (inv_ledger_coherent cfg) in Hinv1. by destruct s1. }
  rewrite E in H. injection H as <-.
  assert (tkv s1 = tkv s /\ n_blocks s1 = n_blocks s) as [Ht1 Hn1].
  { clear -Hs1. revert s Hs1.
    induction (enumerate _) as [|[i req_id] reqs IH]; intros s H; simpl in H.
    - by injection H as <-.
    - apply bind_Ok in H as (s0 & H0 & H). apply IH in H as [-> ->].
      unfold update_cached_req in H0.
      apply bind_Ok in H0 as (? & _ & H0). apply bind_Ok in H0 as (? & _ & H0).
      apply bind_Ok in H0 as (? & _ & H0). apply bind_Ok in H0 as (? & _ & H0).
      by injection H0 as <-. }
  split_and!.
  - by rewrite Ht.
  - by rewrite Hn.
  - by rewrite HD, <- HD1.
  - exists s1. split; [done|]. by rewrite Hr.
Qed.

(** ** All block tables have the length the cursor asks for *)

Lemma decode_reqs_tables_len cfg crd s rows s1 rows1 :
  runner_inv cfg s ->
  (forall k b, (k, b) ∈ req_ids2blocks s -> len b = ceil_div (tkv s) (block_size cfg)) ->
  decode_reqs cfg crd (input_batch s) s rows = Ok (s1, rows1) ->
  forall k b', (k, b') ∈ req_ids2blocks s1 ->
               len b' = ceil_div (tkv s + 1) (block_size cfg).
Proof.
  intros Hinv Hlen Hloop k b' Hin. pose proof (block_size_positive cfg) as Hbs.
  pose proof (decode_reqs_step _ _ _ _ _ _ _ Hloop) as (_ & Hk & _).
  apply decode_reqs_spec in Hloop as (allocated & tabs & slots & _ & _ & _ & _ & _ & Hidx).
  2:{ rewrite (inv_input_batch cfg s Hinv). apply Hinv. }
  assert (NoDup (keys (req_ids2blocks s1))) as Hnd by (rewrite Hk; apply Hinv).
  assert (k ∈ input_batch s) as (i & Hi)%list_elem_of_lookup_1.
  { rewrite (inv_input_batch cfg s Hinv), <- Hk. unfold keys.
    apply list_elem_of_fmap. by exists (k, b'). }
  destruct (Hidx i k Hi) as (blocks & blocks' & lastb & Hb & Hb' & Hcond & _).
  rewrite (elem_of_dget k b' _ Hnd Hin) in Hb'. injection Hb' as ->.
  apply dget_elem_of, Hlen in Hb.
  pose proof (ceil_div_bounds (tkv s) (block_size cfg) Hbs) as Hc.
  pose proof (Z.div_mod (tkv s) (block_size cfg) ltac:(lia)) as Hdm.
  pose proof (Z.mod_pos_bound (tkv s) (block_size cfg) Hbs) as Hmb.
  symmetry. apply ceil_div_unique; [done|]. case_bool_decide.
  - destruct Hcond as (b & _ & ->). rewrite len_app. change (len [b]) with 1. nia.
  - subst blocks'. nia.
Qed.

Lemma tables_len_reachable cfg s :
  reachable cfg s ->
  forall k b, (k, b) ∈ req_ids2blocks s -> len b = ceil_div (tkv s) (block_size cfg).
Proof.
  pose proof (block_size_positive cfg) as Hbs.
  induction 1 as [nb Hnb | so s s' Hreach IH H | s s' Hreach IH H
                 | request s s' mi Hreach IH Hfresh Hprompt H
                 | crd s s' mi Hreach IH H | ids sampled s s' Hreach IH H];
    intros k b Hin.
  - by apply elem_of_nil in Hin.
  - pose proof (reachable_inv cfg s Hreach) as Hinv.
    destruct (update_states_frame cfg so s s' Hinv H) as (-> & _ & HD & _).
    rewrite HD in Hin. apply elem_of_dpops in Hin. by eapply IH.
  - pose proof (reachable_inv cfg s Hreach) as Hinv.
    destruct (reduce_left_padding_spec cfg s Hinv)
      as (n & s'' & Hn & _ & E & Ht & _ & HD & _ & Hlen & _).
    rewrite E in H. injection H as <-. rewrite HD in Hin.
    apply list_elem_of_fmap in Hin as ([k0 b0] & [= -> ->] & Hin).
    rewrite len_drop by (specialize (Hlen _ _ Hin); lia).
    rewrite (IH _ _ Hin), Ht. symmetry. apply ceil_div_unique; [done|].
    pose proof (ceil_div_bounds (tkv s) (block_size cfg) Hbs). nia.
  - pose proof (reachable_inv cfg s Hreach) as Hinv.
    apply _prepare_prompt_Ok in H
      as (sp & bp & blocks & slots & toks & pos & _ & Hbp & Htkv & Hjoin & Hfill
          & HD & _).
    assert (0 <= bp) as Hbp0.
    { rewrite Hbp. case_bool_decide as E.
      - pose proof (ceil_div_nonneg (len (NewRequestData.prompt_token_ids request))
                      (block_size cfg) Hbs (len_nonneg _)). nia.
      - pose proof (inv_tkv_positive cfg s Hinv E).
        pose proof (ceil_div_nonneg (tkv s) (block_size cfg) Hbs ltac:(lia)). nia. }
    apply fill_block_table_range in Hfill as (_ & Hlen & _); [|done].
    rewrite HD in Hin. apply elem_of_dset in Hin as [Hin | [-> ->]].
    + assert (req_ids2blocks s <> []) as E
        by (intros E; rewrite E in Hin; by apply elem_of_nil in Hin).
      rewrite Htkv, bool_decide_eq_false_2 by done. by eapply IH.
    + rewrite Hlen, Htkv, Hbp. case_bool_decide.
      * by rewrite ceil_div_mul.
      * by rewrite !ceil_div_mul.
  - pose proof (reachable_inv cfg s Hreach) as Hinv.
    apply _prepare_decode_Ok in H
      as (s1 & rows & Hloop & _ & _ & Ht & _ & _ & HD & _).
    pose proof (decode_reqs_step _ _ _ _ _ _ _ Hloop) as (_ & _ & _ & _ & _ & Ht1 & _).
    rewrite HD in Hin. rewrite Ht, Ht1.
    by apply (decode_reqs_tables_len cfg crd s _ s1 rows Hinv IH Hloop k).
  - apply append_sampled_frame in H as (HD & _ & _ & _ & Ht & _).
    rewrite HD in Hin. rewrite Ht. by eapply IH.
Qed.

Lemma bind_Raise {A B} (m : result A) (f : A -> result B) e :
  m ≫= f = Raise e -> m = Raise e \/ exists a, m = Ok a /\ f a = Raise e.
Proof. destruct m as [a|e']; simpl; [eauto | intros [= ->]; by left]. Qed.

Lemma py_assert_Raise b what e : py_assert b what = Raise e -> e = AssertionError what.
Proof. destruct b; simpl; [done | by intros [= <-]]. Qed.

Lemma dindex_Raise {V} k (d : dict V) e : dindex k d = Raise e -> e = KeyError k.
Proof. unfold dindex. destruct (dget k d); [done | by intros [= <-]]. Qed.

Lemma decode_req_raises cfg crd rid s rows e :
  decode_req cfg crd rid s rows = Raise e ->
  (exists k, e = KeyError k) \/ (exists w, e = IndexError w).
Proof.
  unfold decode_req. intros H.
  apply bind_Raise in H as [H%dindex_Raise | (r & _ & H)]; [eauto|].
  apply bind_Raise in H as [H%dindex_Raise | (blocks & _ & H)]; [eauto|].
  apply bind_Raise in H as [H | ([s1 blocks'] & _ & H)].
  { destruct (_ <? _); [|done].
    destruct (block_pool s); simpl in H; [injection H as <-; eauto | done]. }
  simpl in H.
  apply bind_Raise in H as [H | (lastb & _ & H)].
  { unfold py_last in H. destruct (last blocks'); [done | injection H as <-; eauto]. }
  apply bind_Raise in H as [H | (tok & _ & H)].
  { unfold py_last in H. destruct (last _); [done | injection H as <-; eauto]. }
  apply bind_Raise in H as [H%dindex_Raise | (idx & _ & H)]; [eauto|].
  apply bind_Raise in H as [H | (sl & _ & H)]; [|done].
  unfold py_nth in H. destruct (_ !! _); [done | injection H as <-; eauto].
Qed.

Lemma decode_reqs_raises cfg crd ids : forall s rows e,
  decode_reqs cfg crd ids s rows = Raise e ->
  (exists k, e = KeyError k) \/ (exists w, e = IndexError w).
Proof.
  induction ids as [|rid ids IH]; intros s rows e H; simpl in H; [done|].
  apply bind_Raise in H as [H | ([s1 rows1] & _ & H)].
  - by eapply decode_req_raises.
  - by eapply IH.
Qed.

Lemma decode_reqs_tabs cfg crd ids : forall s rows s' rows',
  decode_reqs cfg crd ids s rows = Ok (s', rows') ->
  NoDup ids ->
  exists tabs,
    rows_block_table rows' = rows_block_table rows ++ tabs
    /\ Forall2 (fun k t => dget k (req_ids2blocks s') = Some t) ids tabs.
Proof.
  induction ids as [|rid ids IH]; intros s rows s' rows' H Hnd; simpl in H.
  - injection H as <- <-. exists []. by rewrite app_nil_r.
  - apply bind_Ok in H as ([s1 rows1] & H1 & H).
    apply NoDup_cons in Hnd as [Hrid Hnd].
    pose proof (decode_reqs_spec _ _ _ _ _ _ _ H Hnd)
      as (al0 & tb0 & sl0 & _ & _ & _ & _ & Hframe & _).
    apply decode_req_Ok in H1
      as (r & blocks & alloc & lastb & tok & sl & _ & _ & _ & _ & HD & _ & _ & -> & _).
    destruct (IH _ _ _ _ H Hnd) as (tabs & Htabs & Hall). simpl in Htabs.
    exists ((blocks ++ alloc) :: tabs). split.
    + by rewrite Htabs, <- app_assoc.
    + constructor; [|done]. by rewrite (Hframe rid Hrid), HD, dget_dset_eq.
Qed.

Lemma rectangular_same_len (tabs : list (list Z)) c :
  Forall (fun t => len t = c) tabs -> rectangular tabs = true.
Proof.
  destruct tabs as [|t tabs]; [done|]. intros [Ht Hall]%Forall_cons. simpl.
  apply forallb_forall. intros t' Hin%list_elem_of_In.
  apply bool_decide_eq_true. rewrite Forall_forall in Hall.
  specialize (Hall t' Hin). unfold len in *. lia.
Qed.

(** X1. In every reachable state each resident request holds exactly
    [ceil(tkv / block_size)] blocks, so all block tables have one length and
    a decode step never fails on a ragged block table. *)
Theorem block_tables_rectangular cfg s :
  reachable cfg s ->
  (forall k b, dget k (req_ids2blocks s) = Some b ->
               len b = ceil_div (tkv s) (block_size cfg))
  /\ rectangular (values (req_ids2blocks s)) = true
  /\ forall crd w, _prepare_decode cfg crd s <> Raise (ValueError w).
Proof.
  intros Hreach. pose proof (reachable_inv cfg s Hreach) as Hinv.
  pose proof (tables_len_reachable cfg s Hreach) as Hlen. split_and!.
  - intros k b Hb. by apply (Hlen k), dget_elem_of.
  - apply (rectangular_same_len _ (ceil_div (tkv s) (block_size cfg))).
    apply Forall_forall. intros b (kb & -> & Hin)%list_elem_of_fmap.
    destruct kb as [k b]. by apply (Hlen k).
  - intros crd w H. unfold _prepare_decode in H.
    apply bind_Raise in H as [H%py_assert_Raise | (u1 & _ & H)]; [done|].
    apply bind_Raise in H as [H%py_assert_Raise | (u2 & _ & H)]; [done|].
    unfold InputBatch.sorted_requests_ids in H.
    apply bind_Raise in H as [H | ([s1 rows] & Hloop & H)].
    { apply decode_reqs_raises in H as [[k [=]] | [w' [=]]]. }
    simpl in H.
    assert (rectangular (rows_block_table rows) = true) as Hrect.
    { destruct (decode_reqs_tabs _ _ _ _ _ _ _ Hloop) as (tabs & -> & Hall).
      { rewrite (inv_input_batch cfg s Hinv). apply Hinv. }
      simpl. apply (rectangular_same_len _ (ceil_div (tkv s + 1) (block_size cfg))).
      apply Forall_forall. intros t (i & Hi)%list_elem_of_lookup_1.
      destruct (Forall2_lookup_r _ _ _ i t Hall Hi) as (k & _ & Hk).
      by apply (decode_reqs_tables_len cfg crd s _ s1 _ Hinv Hlen Hloop k),
        dget_elem_of. }
    rewrite Hrect in H. simpl in H.
    apply bind_Raise in H as [H | ([s2 mi] & _ & H)].
    { case_bool_decide; [|done].
      by apply bind_Raise in H as [H%py_assert_Raise | (? & _ & H)]. }
    by apply bind_Raise in H as [H%py_assert_Raise | (? & _ & H)].
Qed.

Lemma block_tables_rectangular_witness :
  reachable Scenario.cfg Scenario.s4
  /\ dget "a" (req_ids2blocks Scenario.s4) = Some [0; 1; 2]
  /\ dget "d" (req_ids2blocks Scenario.s4) = Some [3; 4; 5]
  /\ len [3; 4; 5] = ceil_div (tkv Scenario.s4) (block_size Scenario.cfg).
Proof.
  split_and!; [apply scenario_s4_reachable | by vm_compute | by vm_compute |].
  apply (proj1 (block_tables_rectangular Scenario.cfg Scenario.s4
                  scenario_s4_reachable) "d").
  by vm_compute.
Defined.

(** ** The ledger follows the block tables *)

Lemma free_finished_ledger_keys finished : forall s s',
  ledger_coherent s -> tables_nonempty s ->
  keys (req_ids2reserved_blocks s) = keys (req_ids2blocks s) ->
  free_finished finished s = Ok s' ->
  keys (req_ids2reserved_blocks s') = keys (req_ids2blocks s').
Proof.
  induction finished as [|k ks IH]; intros s s' Hc Hne Hk H; simpl in H.
  - by injection H as <-.
  - destruct (free_finished_req_spec k s Hc)
      as (s1 & E1 & HD & _ & _ & _ & _ & _ & Hc1 & _ & _ & HL & Hsame).
    rewrite E1 in H. simpl in H. apply (IH s1 s'); try done.
    + by apply (tables_nonempty_dpop k s).
    + destruct (dget k (req_ids2blocks s)) as [b|] eqn:Eb.
      * rewrite HD, (HL b eq_refl), !keys_dpop, Hk; [done|].
        apply (Hne k). by apply dget_elem_of.
      * by rewrite (Hsame eq_refl).
Qed.

Lemma ledger_keys_reachable cfg s :
  reachable cfg s ->
  keys (req_ids2reserved_blocks s) = keys (req_ids2blocks s).
Proof.
  induction 1 as [nb Hnb | so s s' Hreach IH H | s s' Hreach IH H
                 | request s s' mi Hreach IH Hfresh Hprompt H
                 | crd s s' mi Hreach IH H | ids sampled s s' Hreach IH H].
  - done.
  - pose proof (reachable_inv cfg s Hreach) as Hinv.
    unfold update_states in H. apply bind_Ok in H as (s2 & Hbase & H).
    pose proof Hbase as Hb1. unfold base_update_states in Hb1.
    apply bind_Ok in Hb1 as (s1 & Hs1 & _).
    rewrite (base_update_states_finished so s s1 Hs1) in Hbase. injection Hbase as <-.
    pose proof (update_cached_reqs_inv cfg _ _ _ _ Hinv Hs1) as Hinv1.
    apply update_cached_reqs_frame in Hs1 as (HD1 & HL1 & _).
    eapply free_finished_ledger_keys; [| | |exact H].
    + apply (inv_ledger_coherent cfg) in Hinv1. by destruct s1.
    + apply (inv_tables_nonempty cfg) in Hinv1. by destruct s1.
    + simpl. by rewrite HD1, HL1.
  - pose proof (reachable_inv cfg s Hreach) as Hinv.
    destruct (reduce_left_padding_spec cfg s Hinv)
      as (n & s'' & _ & _ & E & _ & _ & HD & _ & _ & _ & HL & _).
    rewrite E in H. injection H as <-. by rewrite HL, HD, keys_prod_map.
  - pose proof (reachable_inv cfg s Hreach) as Hinv.
    apply _prepare_prompt_Ok in H
      as (sp & bp & blocks & slots & toks & pos & _ & _ & _ & _ & _ & HD & HL & _).
    assert (NewRequestData.req_id request ∉ keys (req_ids2blocks s)) as Hf
      by (by rewrite <- (inv_requests_keys cfg s Hinv)).
    rewrite HD, HL, !keys_dset_fresh, IH; try done. by rewrite IH.
  - apply _prepare_decode_Ok in H
      as (s1 & rows & Hloop & _ & _ & _ & _ & _ & HD & HL & _).
    apply decode_reqs_step in Hloop as (_ & Hk & _ & Hl & _).
    by rewrite HD, HL, Hk, Hl.
  - apply append_sampled_frame in H as (HD & HL & _). by rewrite HD, HL.
Qed.

(** X2. In every reachable state the reservation ledger lists exactly the
    resident requests, in the order of the block tables. Hence once no
    request is resident the ledger is empty, every block id is back in the
    pool and [get_n_free_blocks] reports [n_blocks]: nothing leaks. *)
Theorem ledger_follows_tables cfg s :
  reachable cfg s ->
  keys (req_ids2reserved_blocks s) = keys (req_ids2blocks s)
  /\ (req_ids2blocks s = [] ->
      req_ids2reserved_blocks s = []
      /\ block_pool s ≡ₚ range (n_blocks s)
      /\ len (block_pool s) = n_blocks s
      /\ get_n_free_blocks s = n_blocks s).
Proof.
  intros Hreach. pose proof (ledger_keys_reachable cfg s Hreach) as Hk.
  split; [done|]. intros HD. destruct (reachable_inv cfg s Hreach).
  rewrite HD in Hk. apply keys_nil_inv in Hk.
  unfold all_blocks in inv_blocks0. rewrite HD in inv_blocks0. simpl in inv_blocks0.
  rewrite app_nil_r in inv_blocks0. split_and!; try done.
  - unfold len. rewrite inv_blocks0. fold (len (range (n_blocks s))).
    by apply len_range.
  - unfold get_n_free_blocks. rewrite Hk. simpl. lia.
Qed.

Lemma ledger_follows_tables_witness :
  reachable Scenario.cfg Scenario.s4
  /\ keys (req_ids2reserved_blocks Scenario.s4) = ["a"; "d"].
Proof.
  split; [apply scenario_s4_reachable|].
  apply (proj1 (ledger_follows_tables Scenario.cfg Scenario.s4 scenario_s4_reachable)).
Defined.

(** ** The ledger under left-padding reclamation *)

Lemma reduce_reqs_ledger offset n reqs : forall dn todo dL tL s out s',
  req_ids2blocks s = dn ++ todo ->
  keys todo = keys reqs ->
  NoDup (keys (dn ++ todo)) ->
  req_ids2reserved_blocks s = dL ++ tL ->
  keys tL = keys reqs ->
  NoDup (keys (dL ++ tL)) ->
  (forall k r, (k, r) ∈ reqs -> CachedRequestState.req_id r = k) ->
  (forall k b, (k, b) ∈ todo -> (Z.to_nat n <= length b)%nat) ->
  reduce_reqs reqs offset n s = Ok (out, s') ->
  req_ids2reserved_blocks s'
  = dL ++ (prod_map id (fun v => v - Z.of_nat (Z.to_nat n)) <$> tL).
Proof.
  induction reqs as [|[k r] reqs IH];
    intros dn todo dL tL s out s' HD Hk Hnd HL HkL HndL Hid Hlen H.
  - apply keys_nil_inv in HkL as ->. simpl in H. injection H as _ <-.
    by rewrite HL.
  - destruct todo as [|[k' b] todo]; [done|]. injection Hk as -> Hk.
    destruct tL as [|[k' v] tL]; [done|]. injection HkL as -> HkL.
    assert (k ∉ keys dn) as Hfresh.
    { unfold keys in *. rewrite fmap_app in Hnd. simpl in Hnd.
      apply NoDup_app in Hnd as (_ & Hnd & _). intros Hin.
      apply (Hnd _ Hin). left. }
    assert (k ∉ keys dL) as HfreshL.
    { unfold keys in *. rewrite fmap_app in HndL. simpl in HndL.
      apply NoDup_app in HndL as (_ & HndL & _). intros Hin.
      apply (HndL _ Hin). left. }
    assert (CachedRequestState.req_id r = k) as Hr by (apply Hid; left).
    simpl in H. rewrite Hr in H.
    erewrite free_left_blocks_spec in H;
      [| rewrite HD; by apply dget_middle | apply (Hlen k); left
       | rewrite HL; by apply dget_middle ].
    simpl in H. rewrite HD, HL, !dset_middle in H by done.
    apply bind_Ok in H as ([out1 s1] & Hrest & H). injection H as _ <-.
    match type of Hrest with
    | reduce_reqs _ _ _ ?st = _ =>
        rewrite (IH (dn ++ [(k, drop (Z.to_nat n) b)]) todo
                   (dL ++ [(k, v - Z.of_nat (Z.to_nat n))]) tL st out1 s1); try done
    end.
    + by rewrite <- app_assoc.
    + simpl. by rewrite <- app_assoc.
    + unfold keys in *. rewrite <- app_assoc. rewrite !fmap_app in *. done.
    + simpl. by rewrite <- app_assoc.
    + unfold keys in *. rewrite <- app_assoc. rewrite !fmap_app in *. done.
    + intros k0 r0 ?. apply Hid. by right.
    + intros k0 b0 ?. apply (Hlen k0). by right.
Qed.

Lemma sum_values_shift (c : Z) (d : dict Z) :
  sum (values (prod_map id (fun v => v - c) <$> d)) = sum (values d) - c * len d.
Proof.
  induction d as [|[k v] d IH]; [simpl; unfold len; simpl; lia|].
  rewrite fmap_cons. unfold values in *. rewrite !fmap_cons, !sum_cons, IH.
  unfold len. simpl length. simpl. lia.
Qed.

Lemma len_keys {V} (d : dict V) : len (keys d) = len d.
Proof. unfold len, keys. by rewrite length_fmap. Qed.


(** What [reduce_left_padding] does to the ledger and the pool. *)
Lemma reduce_left_padding_ledger cfg s s' :
  reachable cfg s ->
  reduce_left_padding cfg s = Ok s' ->
  exists n,
    0 <= n
    /\ tkv s' = tkv s - n * block_size cfg
    /\ req_ids2reserved_blocks s'
       = prod_map id (fun v => v - n) <$> req_ids2reserved_blocks s
    /\ block_pool s'
       = block_pool s ++ concat (take (Z.to_nat n) <$> values (req_ids2blocks s))
    /\ (forall k b, (k, b) ∈ req_ids2blocks s -> n <= len b)
    /\ n_blocks s' = n_blocks s
    /\ keys (requests s') = keys (requests s)
    /\ len (req_ids2reserved_blocks s) = len (requests s).
Proof.
  intros Hreach H. pose proof (reachable_inv cfg s Hreach) as Hinv.
  pose proof (ledger_keys_reachable cfg s Hreach) as HkL.
  pose proof (block_size_positive cfg) as Hbs.
  destruct (reduce_left_padding_spec cfg s Hinv)
    as (n & s'' & Hn & Hmin & E & Ht & Hr & HD & Hp & Hlen & Hlp & Hl & Hi & Hnb).
  rewrite E in H. injection H as ->. exists n.
  assert (len (req_ids2reserved_blocks s) = len (requests s)) as HlenL.
  { by rewrite <- (len_keys (req_ids2reserved_blocks s)), HkL,
      <- (inv_requests_keys cfg s Hinv), len_keys. }
  assert (req_ids2reserved_blocks s'
          = prod_map id (fun v => v - n) <$> req_ids2reserved_blocks s) as HL.
  { revert E. unfold reduce_left_padding.
    destruct (decide (requests s = [])) as [Ereq|Ereq].
    - rewrite Ereq. simpl. intros [= <-].
      assert (req_ids2reserved_blocks s = []) as ->; [|done].
      apply keys_nil_inv. by rewrite HkL, <- (inv_requests_keys cfg s Hinv), Ereq.
    - rewrite bool_decide_eq_false_2 by (by rewrite len_zero_nil).
      intros E. apply bind_Ok in E as (m & Hm & E).
      specialize (Hmin m Hm). rewrite <- Hmin in E.
      destruct (0 <? n * block_size cfg) eqn:Eoff.
      + apply bind_Ok in E as (s1 & E1 & E). injection E as <-. simpl.
        apply bind_Ok in E1 as ([out s2] & E2 & E1). injection E1 as <-. simpl.
        rewrite (reduce_reqs_ledger (n * block_size cfg) n (requests s)
                   [] (req_ids2blocks s) []
                   (req_ids2reserved_blocks s) s out s2); try done.
        * simpl. by rewrite Z2Nat.id.
        * symmetry. apply Hinv.
        * apply Hinv.
        * by rewrite HkL, <- (inv_requests_keys cfg s Hinv).
        * apply Hinv.
        * intros k r Hkr. by apply (inv_request cfg s Hinv).
        * intros k b Hb. apply Hlen in Hb. unfold len in Hb. lia.
      + assert (n = 0) as -> by (apply Z.ltb_ge in Eoff; nia).
        simpl in E. injection E as <-. simpl.
        symmetry. etrans; [|apply list_fmap_id].
        apply list_fmap_ext. intros i [k v] _. unfold prod_map. simpl.
        f_equal. lia. }
  split_and!; try done. by rewrite Hr, keys_prod_map.
Qed.



(** ** When a prefill returns *)






(** ** The inputs of a prefill *)

Lemma pad_input_ids_layout cfg prompt bp s :
  len prompt <= tkv s -> tkv s <= bp ->
  pad_input_ids cfg prompt bp s
  = (set_model_n_pads_right (bp - tkv s) s,
     (replicate (Z.to_nat (tkv s - len prompt)) (pad_token_id cfg) ++ prompt
        ++ replicate (Z.to_nat (bp - tkv s)) (pad_token_id cfg),
      replicate (Z.to_nat (tkv s - len prompt)) (pad_token_id cfg)
        ++ range (len prompt) ++ replicate (Z.to_nat (bp - tkv s)) 0)).
Proof.
  intros Hp Hbp. unfold pad_input_ids, base_pad_input_ids.
  rewrite Z.max_l by done.
  set (pads := replicate _ _).
  assert (len (pads ++ prompt) = tkv s) as ->.
  { rewrite len_app. subst pads. unfold len in *. rewrite length_replicate. lia. }
  destruct (0 <? bp - tkv s) eqn:E.
  - by rewrite <- !app_assoc.
  - apply Z.ltb_ge in E. replace (bp - tkv s) with 0 by lia.
    simpl. by rewrite !app_nil_r.
Qed.

(** X5. The single row a successful prefill hands to the model is the
    prompt between [tkv' - prompt_len] pad tokens on the left and the pads
    up to the next block boundary on the right (fewer than one block, none
    for a new batch); the position ids repeat the pad token id over the left
    pads, count the prompt from 0 and are 0 over the right pads. The number
    of right pads is left in [model.n_pads_right] and the number of left
    pads in the new request's [left_padding]. *)
Theorem prefill_input_layout cfg request s s' mi :
  _prepare_prompt cfg [request] s = Ok (s', mi) ->
  exists lp rp r,
    0 <= lp /\ 0 <= rp < block_size cfg
    /\ lp = tkv s' - len (NewRequestData.prompt_token_ids request)
    /\ rp = ceil_div (tkv s') (block_size cfg) * block_size cfg - tkv s'
    /\ (req_ids2blocks s = [] -> rp = 0)
    /\ ModelForwardInputs.input_tokens mi
       = [replicate (Z.to_nat lp) (pad_token_id cfg)
          ++ NewRequestData.prompt_token_ids request
          ++ replicate (Z.to_nat rp) (pad_token_id cfg)]
    /\ ModelForwardInputs.input_positions mi
       = [replicate (Z.to_nat lp) (pad_token_id cfg)
          ++ range (len (NewRequestData.prompt_token_ids request))
          ++ replicate (Z.to_nat rp) 0]
    /\ ModelForwardInputs.is_prompt mi = true
    /\ ModelForwardInputs.block_table mi = None
    /\ model_n_pads_right s' = rp
    /\ dget (NewRequestData.req_id request) (requests s') = Some r
    /\ CachedRequestState.left_padding r = lp
    /\ CachedRequestState.prompt_token_ids r = NewRequestData.prompt_token_ids request
    /\ CachedRequestState.output_token_ids r = [].
Proof.
  intros H. pose proof (block_size_positive cfg) as Hbs.
  set (rid := NewRequestData.req_id request) in *.
  set (prompt := NewRequestData.prompt_token_ids request) in *.
  unfold _prepare_prompt in H. fold rid prompt in H.
  rewrite (bool_decide_ext (len (req_ids2blocks s) = 0) (req_ids2blocks s = []))
    in H by apply len_zero_nil.
  pose proof (ceil_div_bounds (len prompt) (block_size cfg) Hbs) as Hceil1.
  pose proof (ceil_div_bounds (tkv s) (block_size cfg) Hbs) as Hceil2.
  apply bind_Ok in H as (u & Hassert & H).
  assert (req_ids2blocks s <> [] -> len prompt <= tkv s) as Hjoin.
  { intros HD. rewrite bool_decide_eq_false_2 in Hassert by done.
    simpl in Hassert. by apply py_assert_Ok, Z.leb_le in Hassert. }
  apply bind_Ok in H as ([[pool' blocks] slots] & Hfill & H). simpl in H.
  destruct (NewRequestData.sampling_params request) as [sp|] eqn:Esp; [|done].
  apply bind_Ok in H as (ib & Hib & H). simpl in H.
  unfold InputBatch.add_request in Hib.
  apply bind_Ok in Hib as (u' & Hcap & [= <-]).
  rewrite pad_input_ids_layout in H.
  2:{ simpl. destruct (decide (req_ids2blocks s = [])).
      - rewrite !bool_decide_eq_true_2 by done. lia.
      - rewrite !bool_decide_eq_false_2 by done. auto. }
  2:{ simpl. destruct (decide (req_ids2blocks s = [])).
      - rewrite !bool_decide_eq_true_2 by done. lia.
      - rewrite !bool_decide_eq_false_2 by done. lia. }
  injection H as <- <-. simpl.
  pose proof (len_nonneg prompt) as Hp0.
  destruct (decide (req_ids2blocks s = [])) as [E|E].
  - rewrite !bool_decide_eq_true_2 by done.
    set (bp := ceil_div (len prompt) (block_size cfg) * block_size cfg) in *.
    assert (ceil_div bp (block_size cfg) * block_size cfg = bp) as Hbp
      by (subst bp; by rewrite ceil_div_mul).
    exists (bp - len prompt), (bp - bp),
      (CachedRequestState.mk rid prompt (Some sp) (SamplingParams.seed sp) []
         (bp - len prompt)).
    split_and!; try done; try lia. apply dget_dset_eq.
  - rewrite !bool_decide_eq_false_2 by done. specialize (Hjoin E).
    exists (tkv s - len prompt),
      (ceil_div (tkv s) (block_size cfg) * block_size cfg - tkv s),
      (CachedRequestState.mk rid prompt (Some sp) (SamplingParams.seed sp) []
         (tkv s - len prompt)).
    split_and!; try done; try lia. apply dget_dset_eq.
Qed.

Lemma prefill_input_layout_witness :
  exists lp rp,
    ModelForwardInputs.input_tokens
      (Scenario.mi_of (_prepare_prompt Scenario.cfg [Scenario.req_d] Scenario.s3))
    = [replicate lp 0 ++ replicate 10 5 ++ replicate rp 0]
    /\ model_n_pads_right Scenario.s4 = Z.of_nat rp.
Proof.
  assert (_prepare_prompt Scenario.cfg [Scenario.req_d] Scenario.s3
          = Ok (Scenario.s4,
                Scenario.mi_of (_prepare_prompt Scenario.cfg [Scenario.req_d] Scenario.s3)))
    as H by (by vm_compute).
  destruct (prefill_input_layout _ _ _ _ _ H)
    as (lp & rp & r & Hlp & Hrp & _ & _ & _ & Htoks & _ & _ & _ & Hn & _).
  exists (Z.to_nat lp), (Z.to_nat rp). split; [exact Htoks|].
  rewrite Hn. lia.
Defined.

(** ** The shape of a step *)

Lemma reduce_left_padding_total cfg s :
  runner_inv cfg s -> exists s', reduce_left_padding cfg s = Ok s'.
Proof.
  intros Hinv.
  destruct (reduce_left_padding_spec cfg s Hinv) as (n & s' & _ & _ & E & _).
  by exists s'.
Qed.

(** X6. From a reachable state [prepare_model_input] never mixes: a step
    that carries both new and cached requests, or more than one new request,
    fails its assertion, and a step that returns is either the prefill of
    exactly one new request or a decode with no new request. *)
Theorem step_is_prefill_or_decode cfg so s :
  reachable cfg s ->
  let new_reqs := SchedulerOutput.scheduled_new_reqs so in
  let cached := CachedRequestData.req_ids (SchedulerOutput.scheduled_cached_reqs so) in
  (new_reqs <> [] -> cached <> [] ->
   prepare_model_input cfg so s
   = Raise (AssertionError "len(scheduler_output.scheduled_cached_reqs.req_ids) == 0"))
  /\ (cached = [] -> 1 < len new_reqs ->
      prepare_model_input cfg so s = Raise (AssertionError "len(new_requests) == 1"))
  /\ (forall s' mi,
        prepare_model_input cfg so s = Ok (s', mi) ->
        (exists request,
           new_reqs = [request] /\ cached = []
           /\ ModelForwardInputs.is_prompt mi = true)
        \/ (new_reqs = [] /\ cached <> []
            /\ ModelForwardInputs.is_prompt mi = false)).
Proof.
  intros Hreach new_reqs cached.
  destruct (reduce_left_padding_total cfg s (reachable_inv cfg s Hreach)) as [s1 E1].
  unfold prepare_model_input, base_prepare_model_input. rewrite E1. simpl.
  fold new_reqs cached.
  split_and!.
  - intros Hnew Hc. destruct new_reqs as [|r rest]; [done|].
    change (len (r :: rest)) with (Z.of_nat (S (length rest))).
    rewrite (proj2 (Z.ltb_lt 0 _)) by lia.
    rewrite bool_decide_eq_false_2; [done|]. by rewrite len_zero_nil.
  - intros Hc Hnew. rewrite (proj2 (Z.ltb_lt 0 _)) by lia.
    rewrite Hc. simpl.
    destruct new_reqs as [|r [|r' rest]]; [done | | done].
    change (len [r]) with 1 in Hnew. lia.
  - intros s' mi H. destruct new_reqs as [|r rest] eqn:Enew.
    + right. simpl in H. apply _prepare_decode_Ok in H
        as (s2 & rows & _ & Hpos & _ & _ & _ & _ & _ & _ & _ & _ & Hmi).
      fold cached in Hpos, Hmi. split_and!; [done | |].
      * intros Ec. rewrite Ec in Hpos. by change (len []) with 0 in Hpos.
      * simpl in Hmi. by destruct (bool_decide _); destruct Hmi as [_ ->].
    + left. change (len (r :: rest)) with (Z.of_nat (S (length rest))) in H.
      rewrite (proj2 (Z.ltb_lt 0 _)) in H by lia.
      apply bind_Ok in H as (u & Hassert & H).
      apply py_assert_Ok, bool_decide_eq_true_1, len_zero_nil in Hassert.
      destruct rest as [|r' rest]; [|done].
      exists r. split_and!; [done..|].
      apply _prepare_prompt_Ok in H
        as (sp & bp & blocks & slots & toks & pos & _ & _ & _ & _ & _ & _ & _ & _ & _
            & _ & _ & -> & _).
      done.
Qed.

Lemma step_is_prefill_or_decode_witness :
  prepare_model_input Scenario.cfg
    (SchedulerOutput.mk [Scenario.req_d] Scenario.decode_a [] 11) Scenario.s3
  = Raise (AssertionError "len(scheduler_output.scheduled_cached_reqs.req_ids) == 0").
Proof.
  apply (step_is_prefill_or_decode Scenario.cfg
           (SchedulerOutput.mk [Scenario.req_d] Scenario.decode_a [] 11) Scenario.s3).
  - apply scenario_s3_reachable.
  - done.
  - done.
Defined.

(** ** Requests across a step *)

Lemma request_grows_refl r : request_grows r r.
Proof. unfold request_grows. split_and!; try done. Qed.

Lemma request_grows_trans r1 r2 r3 :
  request_grows r1 r2 -> request_grows r2 r3 -> request_grows r1 r3.
Proof.
  intros (? & ? & ? & ? & ? & ?) (? & ? & ? & ? & ? & ?).
  unfold request_grows. split_and!; try congruence; [by etrans | lia].
Qed.

Lemma extend_output_grows toks r :
  request_grows r (CachedRequestState.extend_output toks r).
Proof.
  unfold request_grows. destruct r. simpl. split_and!; try done.
  by apply prefix_app_r.
Qed.

Lemma grows_option_refl (a : option CachedRequestState.t) :
  option_Forall2 request_grows a a.
Proof. destruct a; constructor. apply request_grows_refl. Qed.

Lemma grows_option_trans (a b c : option CachedRequestState.t) :
  option_Forall2 request_grows a b -> option_Forall2 request_grows b c ->
  option_Forall2 request_grows a c.
Proof.
  destruct 1; inversion 1; subst; constructor. by eapply request_grows_trans.
Qed.

Lemma dset_grows k0 r0 r1 (d : dict CachedRequestState.t) k :
  dget k0 d = Some r0 -> request_grows r0 r1 ->
  option_Forall2 request_grows (dget k d) (dget k (dset k0 r1 d)).
Proof.
  intros H0 Hg. destruct (decide (k0 = k)) as [<-|Hne].
  - rewrite H0, dget_dset_eq. by constructor.
  - rewrite dget_dset_ne by done. apply grows_option_refl.
Qed.

Lemma update_cached_req_grows req_data i req_id s s' k :
  update_cached_req req_data i req_id s = Ok s' ->
  option_Forall2 request_grows (dget k (requests s)) (dget k (requests s')).
Proof.
  unfold update_cached_req. intros H.
  apply bind_Ok in H as (r0 & Hr0 & H). apply bind_Ok in H as (nc & _ & H).
  apply bind_Ok in H as (new & _ & H). apply bind_Ok in H as (r1 & Hr1 & H).
  injection H as <-. simpl.
  unfold dindex in Hr0. destruct (dget req_id (requests s)) as [r|] eqn:Er; [|done].
  injection Hr0 as ->. apply (dset_grows req_id r0); [done|].
  destruct (Z.eqb _ 1).
  - apply bind_Ok in Hr1 as (t & _ & [= <-]). apply extend_output_grows.
  - destruct (Z.ltb 0 _); injection Hr1 as <-;
      [apply extend_output_grows | apply request_grows_refl].
Qed.

Lemma update_cached_reqs_grows req_data reqs k : forall s s',
  update_cached_reqs req_data reqs s = Ok s' ->
  option_Forall2 request_grows (dget k (requests s)) (dget k (requests s')).
Proof.
  induction reqs as [|[i req_id] reqs IH]; intros s s' H; simpl in H.
  - injection H as <-. apply grows_option_refl.
  - apply bind_Ok in H as (s0 & H0 & H).
    eapply grows_option_trans; [by eapply update_cached_req_grows | by apply IH].
Qed.

Lemma append_sampled_grows req_ids sampled k : forall s s',
  append_sampled req_ids sampled s = Ok s' ->
  option_Forall2 request_grows (dget k (requests s)) (dget k (requests s')).
Proof.
  induction req_ids as [|[i req] req_ids IH]; intros s s' H; simpl in H.
  - injection H as <-. apply grows_option_refl.
  - apply bind_Ok in H as (r & Hr & H). apply bind_Ok in H as (row & _ & H).
    unfold dindex in Hr. destruct (dget req (requests s)) as [r0|] eqn:Er; [|done].
    injection Hr as ->.
    eapply grows_option_trans; [|by apply IH]. simpl.
    apply (dset_grows req r); [done | apply extend_output_grows].
Qed.

Lemma dget_prod_map {A B} (f : A -> B) k (d : dict A) :
  dget k (prod_map id f <$> d) = f <$> dget k d.
Proof.
  induction d as [|[k' v] d IH]; [done|]. rewrite fmap_cons. simpl.
  by case_decide.
Qed.

Lemma reduce_left_padding_grows cfg s s' k :
  runner_inv cfg s ->
  reduce_left_padding cfg s = Ok s' ->
  option_Forall2 request_grows (dget k (requests s)) (dget k (requests s')).
Proof.
  intros Hinv H. pose proof (block_size_positive cfg) as Hbs.
  destruct (reduce_left_padding_spec cfg s Hinv)
    as (n & s'' & Hn & _ & E & _ & Hr & _).
  rewrite E in H. injection H as ->. rewrite Hr, dget_prod_map.
  destruct (dget k (requests s)) as [r|]; constructor.
  unfold request_grows. destruct r. simpl. split_and!; try done. nia.
Qed.

Lemma dget_dpops_Some {V} ks (d : dict V) k v :
  NoDup (keys d) -> dget k (dpops ks d) = Some v -> dget k d = Some v.
Proof.
  intros Hd H. apply elem_of_dget; [done|].
  apply (elem_of_dpops ks). by apply dget_elem_of.
Qed.

(** X7. Across a call of [execute_model] from a reachable state, a request
    that is resident before and after, and is not among the new requests of
    the step, keeps its id, prompt, sampling parameters and generator; its
    output tokens are only extended and its left padding is never raised. *)
Theorem requests_only_grow cfg model_sample so s sF out rid r r' :
  reachable cfg s ->
  execute_model cfg model_sample so s = Ok (sF, out) ->
  rid ∉ (NewRequestData.req_id <$> SchedulerOutput.scheduled_new_reqs so) ->
  dget rid (requests s) = Some r ->
  dget rid (requests sF) = Some r' ->
  request_grows r r'.
Proof.
  intros Hreach H Hnot Hr Hr'. pose proof (reachable_inv cfg s Hreach) as Hinv.
  unfold execute_model, base_execute_model in H.
  apply bind_Ok in H as ([s3 output] & H & [= -> _]).
  apply bind_Ok in H as (s0 & Hupd & H).
  pose proof (reach_update_states cfg so s s0 Hreach Hupd) as Hreach0.
  destruct (update_states_frame cfg so s s0 Hinv Hupd) as (_ & _ & _ & s1 & Hs1 & Hreq0).
  pose proof (update_cached_reqs_grows _ _ rid _ _ Hs1) as G0.
  assert (forall r0, dget rid (requests s0) = Some r0 -> request_grows r r0) as Hfirst.
  { intros r0 H0. rewrite Hreq0 in H0. apply dget_dpops_Some in H0.
    - rewrite Hr, H0 in G0. by inversion G0.
    - rewrite (update_cached_reqs_keys _ _ _ _ Hs1), (inv_requests_keys cfg s Hinv).
      apply Hinv. }
  assert (option_Forall2 request_grows (dget rid (requests s0)) (dget rid (requests sF)))
    as G; [|rewrite Hr' in G; inversion G as [r0 ? Hg E0 |]; subst;
            eapply request_grows_trans; [apply Hfirst; by symmetry | done]].
  destruct (_ =? 0); [injection H as <- _; apply grows_option_refl|].
  apply bind_Ok in H as ([s2 mi] & Hprep & H). simpl in H.
  apply bind_Ok in H as (s4 & Happ & H).
  assert (sF = s4) as ->.
  { by destruct (is_driver_worker cfg); simpl in H; injection H as <- _. }
  unfold prepare_model_input in Hprep. apply bind_Ok in Hprep as (s1' & Hred & Hprep).
  eapply grows_option_trans;
    [apply (reduce_left_padding_grows cfg s0 s1'); [by apply reachable_inv | done]|].
  eapply grows_option_trans; [|by eapply append_sampled_grows].
  unfold base_prepare_model_input in Hprep.
  destruct (0 <? len (SchedulerOutput.scheduled_new_reqs so)).
  - apply bind_Ok in Hprep as (u & _ & Hprep).
    destruct (SchedulerOutput.scheduled_new_reqs so) as [|request [|]] eqn:E;
      try done.
    apply _prepare_prompt_Ok in Hprep
      as (sp & bp & blocks & slots & toks & pos & _ & _ & _ & _ & _ & _ & _ & -> & _).
    rewrite dget_dset_ne; [apply grows_option_refl|].
    intros Heq. apply Hnot. simpl. rewrite Heq. left.
  - apply _prepare_decode_Ok in Hprep
      as (s5 & rows & Hloop & _ & _ & _ & -> & _).
    apply decode_reqs_step in Hloop as (_ & _ & -> & _). apply grows_option_refl.
Qed.

Lemma requests_only_grow_witness :
  exists sF out r r',
    execute_model Scenario.cfg Scenario.sampler Scenario.so_decode_a Scenario.s2
    = Ok (sF, out)
    /\ dget "a" (requests Scenario.s2) = Some r
    /\ dget "a" (requests sF) = Some r'
    /\ CachedRequestState.output_token_ids r = [42]
    /\ CachedRequestState.output_token_ids r' = [42; 43]
    /\ request_grows r r'.
Proof.
  eexists _, _, _, _.
  split; [vm_compute; reflexivity|].
  split; [vm_compute; reflexivity|].
  split; [vm_compute; reflexivity|].
  split; [reflexivity|]. split; [reflexivity|].
  eapply (requests_only_grow Scenario.cfg Scenario.sampler Scenario.so_decode_a
            Scenario.s2 _ _ "a").
  - apply scenario_s2_reachable.
  - vm_compute; reflexivity.
  - simpl. apply not_elem_of_nil.
  - vm_compute; reflexivity.
  - vm_compute; reflexivity.
Defined.

(** ** Where the sampled rows go *)

Lemma append_sampled_rows sampled reqs : forall s s',
  NoDup reqs.*2 ->
  append_sampled reqs sampled s = Ok s' ->
  (forall i rid, (i, rid) ∈ reqs ->
     exists r row,
       dget rid (requests s) = Some r /\ sampled !! i = Some row
       /\ dget rid (requests s')
          = Some (CachedRequestState.extend_output row r))
  /\ (forall rid, rid ∉ reqs.*2 -> dget rid (requests s') = dget rid (requests s)).
Proof.
  induction reqs as [|[i req] reqs IH]; intros s s' Hnd H; simpl in H.
  - injection H as <-. split; [by intros i rid ?%elem_of_nil | done].
  - rewrite fmap_cons in Hnd. simpl in Hnd. apply NoDup_cons in Hnd as [Hfresh Hnd].
    apply bind_Ok in H as (r & Hr & H). apply bind_Ok in H as (row & Hrow & H).
    unfold dindex in Hr. destruct (dget req (requests s)) as [r0|] eqn:Er; [|done].
    injection Hr as ->.
    unfold py_nth in Hrow. destruct (sampled !! i) as [row0|] eqn:Erow; [|done].
    injection Hrow as ->.
    destruct (IH _ _ Hnd H) as [IH1 IH2]. simpl in IH1, IH2. split.
    + intros j rid [[= -> ->]|Hin]%elem_of_cons.
      * exists r, row. split_and!; [done..|].
        rewrite (IH2 req Hfresh). apply dget_dset_eq.
      * destruct (IH1 j rid Hin) as (r1 & row1 & Hr1 & Hrow1 & Hr1').
        assert (req <> rid) as Hne.
        { intros ->. apply Hfresh. apply list_elem_of_fmap. by exists (j, rid). }
        rewrite dget_dset_ne in Hr1 by done. by exists r1, row1.
    + intros rid Hrid. rewrite fmap_cons in Hrid. apply not_elem_of_cons in Hrid as [Hne Hrid].
      rewrite (IH2 rid Hrid). apply dget_dset_ne. simpl in Hne. congruence.
Qed.

Lemma enumerate_snd {A} (l : list A) : (enumerate l).*2 = l.
Proof.
  unfold enumerate. rewrite fmap_imap.
  rewrite (imap_ext _ (const id)) by done.
  by rewrite imap_const, list_fmap_id.
Qed.

Lemma elem_of_enumerate {A} (l : list A) i x :
  (i, x) ∈ enumerate l <-> l !! i = Some x.
Proof.
  unfold enumerate. rewrite elem_of_lookup_imap. split.
  - by intros (j & y & [= -> ->] & ?).
  - intros ?. by exists i, x.
Qed.

Lemma append_sampled_total sampled reqs : forall s,
  (forall i rid, (i, rid) ∈ reqs ->
                 rid ∈ keys (requests s) /\ (i < length sampled)%nat) ->
  exists s', append_sampled reqs sampled s = Ok s'.
Proof.
  induction reqs as [|[i req] reqs IH]; intros s Hall; [by eexists|].
  destruct (Hall i req ltac:(left)) as [Hk Hi].
  destruct (keys_dget req (requests s) Hk) as [r Hr].
  destruct (lookup_lt_is_Some_2 sampled i Hi) as [row Hrow].
  simpl. unfold dindex, py_nth. rewrite Hr, Hrow. simpl. apply IH.
  intros j rid Hin. destruct (Hall j rid ltac:(by right)) as [Hk' Hj].
  split; [|done]. simpl. by apply keys_dset_mono.
Qed.

Lemma append_sampled_short sampled reqs1 i rid reqs2 : forall s,
  (forall j r, (j, r) ∈ reqs1 ->
               r ∈ keys (requests s) /\ (j < length sampled)%nat) ->
  rid ∈ keys (requests s) ->
  (length sampled <= i)%nat ->
  append_sampled (reqs1 ++ (i, rid) :: reqs2) sampled s
  = Raise (IndexError "list index out of range").
Proof.
  induction reqs1 as [|[j req] reqs1 IH]; intros s Hall Hk Hi.
  - destruct (keys_dget rid (requests s) Hk) as [r Hr].
    simpl. unfold dindex, py_nth. rewrite Hr. simpl.
    by rewrite lookup_ge_None_2.
  - destruct (Hall j req ltac:(left)) as [Hkj Hj].
    destruct (keys_dget req (requests s) Hkj) as [r Hr].
    destruct (lookup_lt_is_Some_2 sampled j Hj) as [row Hrow].
    simpl. unfold dindex, py_nth. rewrite Hr, Hrow. simpl. apply IH; [|by apply keys_dset_mono|done].
    intros j' r' Hin. destruct (Hall j' r' ltac:(by right)) as [Hk' Hj'].
    split; [|done]. simpl. by apply keys_dset_mono.
Qed.

(** X8. The loop of [execute_model] that stores the sampled tokens, walking
    a list of distinct cached request ids: row [i] of [sampled_ids] is
    appended to the output tokens of the [i]-th listed request and to no
    other; requests that are not listed, the block tables, the ledger, the
    pool and the cursor are left as they are. With fewer rows than listed
    requests the loop raises [IndexError]. *)
Theorem sampled_rows_appended ids sampled s :
  NoDup ids ->
  (forall rid, rid ∈ ids -> rid ∈ keys (requests s)) ->
  ((length ids <= length sampled)%nat ->
   exists s',
     append_sampled (enumerate ids) sampled s = Ok s'
     /\ (forall i rid, ids !! i = Some rid ->
          exists r row,
            dget rid (requests s) = Some r /\ sampled !! i = Some row
            /\ dget rid (requests s')
               = Some (CachedRequestState.extend_output row r))
     /\ (forall rid, rid ∉ ids -> dget rid (requests s') = dget rid (requests s))
     /\ req_ids2blocks s' = req_ids2blocks s
     /\ req_ids2reserved_blocks s' = req_ids2reserved_blocks s
     /\ block_pool s' = block_pool s
     /\ tkv s' = tkv s)
  /\ ((length sampled < length ids)%nat ->
      append_sampled (enumerate ids) sampled s
      = Raise (IndexError "list index out of range")).
Proof.
  intros Hnd Hcached. split.
  - intros Hlen.
    destruct (append_sampled_total sampled (enumerate ids) s) as [s' Hs'].
    { intros i rid Hin%elem_of_enumerate. split.
      - apply Hcached. by eapply list_elem_of_lookup_2.
      - apply lookup_lt_Some in Hin. lia. }
    exists s'. split; [done|].
    destruct (append_sampled_rows sampled (enumerate ids) s s') as [Hrows Hframe];
      [by rewrite enumerate_snd | done |].
    apply append_sampled_frame in Hs' as (HD & HL & HP & _ & Ht & _).
    split_and!; try done.
    + intros i rid Hi. apply Hrows. by apply elem_of_enumerate.
    + intros rid Hn. apply Hframe. by rewrite enumerate_snd.
  - intros Hlen.
    destruct (lookup_lt_is_Some_2 ids (length sampled) Hlen) as [rid Hrid].
    assert (enumerate ids !! length sampled = Some (length sampled, rid)) as Hk.
    { unfold enumerate. by rewrite list_lookup_imap, Hrid. }
    rewrite <- (take_drop_middle _ _ _ Hk).
    apply append_sampled_short; [| |done].
    + intros j r (i & Hi & Hlt)%elem_of_take.
      assert ((j, r) ∈ enumerate ids) as Hin%elem_of_enumerate
        by (by eapply list_elem_of_lookup_2).
      unfold enumerate in Hi. rewrite list_lookup_imap in Hi.
      destruct (ids !! i) as [x|] eqn:Ex; [|done]. injection Hi as <- <-.
      split; [|done]. apply Hcached. by eapply list_elem_of_lookup_2.
    + apply Hcached. by eapply list_elem_of_lookup_2.
Qed.

Lemma sampled_rows_appended_witness :
  exists s' r,
    append_sampled (enumerate ["a"]) [[42]] Scenario.s1 = Ok s'
    /\ dget "a" (requests Scenario.s1) = Some r
    /\ dget "a" (requests s') = Some (CachedRequestState.extend_output [42] r).
Proof.
  destruct (sampled_rows_appended ["a"] [[42]] Scenario.s1) as [Hok _].
  - apply NoDup_singleton.
  - intros rid ->%list_elem_of_singleton. change ("a" ∈ ["a"]). left.
  - destruct Hok as (s' & Hs' & Hrows & _); [simpl; lia|].
    destruct (Hrows 0%nat "a" eq_refl) as (r & row & Hr & [= <-] & Hr').
    by exists s', r.
Defined.

(** ** When a decode step returns *)

Lemma cached_reqs_map_frame rid (ps : list (nat * string)) : forall d,
  rid ∉ ps.*2 ->
  dget rid (foldl (fun d '(i, req_id) => dset req_id i d) d ps) = dget rid d.
Proof.
  induction ps as [|[i r] ps IH]; intros d Hn; [done|].
  rewrite fmap_cons in Hn. apply not_elem_of_cons in Hn as [Hne Hn]. simpl in *.
  rewrite IH by done. by apply dget_dset_ne.
Qed.

Lemma cached_reqs_map_fold rid (ps : list (nat * string)) : forall d,
  rid ∈ ps.*2 ->
  exists idx, (idx, rid) ∈ ps
    /\ dget rid (foldl (fun d '(i, req_id) => dset req_id i d) d ps) = Some idx.
Proof.
  induction ps as [|[i r] ps IH]; intros d Hin; [by apply elem_of_nil in Hin|].
  simpl. destruct (decide (rid ∈ ps.*2)) as [Hps|Hps].
  - destruct (IH (dset r i d) Hps) as (idx & Hidx & Hget).
    exists idx. split; [by right | done].
  - rewrite fmap_cons in Hin. apply elem_of_cons in Hin as [->|Hin]; [|done].
    exists i. split; [left|]. rewrite cached_reqs_map_frame by done.
    apply dget_dset_eq.
Qed.

(** The index a decode step looks up for a scheduled request is one of its
    positions in [cached_request_data.req_ids]. *)
Lemma cached_reqs_map_lookup rid (req_ids : list string) :
  rid ∈ req_ids ->
  exists idx, dget rid (cached_reqs_map req_ids) = Some idx
              /\ req_ids !! idx = Some rid.
Proof.
  intros Hin. destruct (cached_reqs_map_fold rid (enumerate req_ids) []) as (idx & Hi & Hg).
  - by rewrite enumerate_snd.
  - exists idx. split; [done|]. by apply elem_of_enumerate.
Qed.

Lemma decode_req_outcome cfg crd rid s rows r b idx :
  dget rid (requests s) = Some r ->
  CachedRequestState.output_token_ids r <> [] ->
  dget rid (req_ids2blocks s) = Some b ->
  b <> [] ->
  dget rid (cached_reqs_map (CachedRequestData.req_ids crd)) = Some idx ->
  (idx < length (CachedRequestData.num_computed_tokens crd))%nat ->
  if len b <? tkv s / block_size cfg + 1 then
    match block_pool s with
    | [] => decode_req cfg crd rid s rows = Raise (IndexError "pop from an empty deque")
    | x :: pool =>
        exists rows',
          decode_req cfg crd rid s rows
          = Ok (set_req_ids2blocks (dset rid (b ++ [x]) (req_ids2blocks s))
                  (set_block_pool pool s), rows')
    end
  else exists rows', decode_req cfg crd rid s rows = Ok (s, rows').
Proof.
  intros Hr Hout Hb Hne Hidx Hlt. unfold decode_req, dindex. rewrite Hr, Hb, Hidx.
  simpl.
  assert (exists tok, last (CachedRequestState.output_token_ids r) = Some tok) as [tok Htok].
  { destruct (last _) eqn:E; [eauto|]. by apply last_None in E. }
  assert (exists sl, CachedRequestData.num_computed_tokens crd !! idx = Some sl) as [sl Hsl]
    by (by apply lookup_lt_is_Some_2).
  destruct (len b <? tkv s / block_size cfg + 1).
  - destruct (block_pool s) as [|x pool]; [done|]. simpl.
    unfold py_last, py_nth. rewrite last_snoc. simpl. rewrite Htok. simpl.
    rewrite Hsl. simpl. by eexists.
  - simpl. unfold py_last, py_nth.
    destruct (last b) eqn:E; [|by apply last_None in E]. simpl.
    rewrite Htok. simpl. rewrite Hsl. simpl. by eexists.
Qed.

Lemma decode_reqs_outcome cfg crd (need : bool) ids : forall s rows,
  NoDup ids ->
  (forall rid, rid ∈ ids ->
     exists r b idx,
       dget rid (requests s) = Some r
       /\ CachedRequestState.output_token_ids r <> []
       /\ dget rid (req_ids2blocks s) = Some b /\ b <> []
       /\ (len b <? tkv s / block_size cfg + 1) = need
       /\ dget rid (cached_reqs_map (CachedRequestData.req_ids crd)) = Some idx
       /\ (idx < length (CachedRequestData.num_computed_tokens crd))%nat) ->
  ((need = true -> (length ids <= length (block_pool s))%nat) ->
   exists s' rows', decode_reqs cfg crd ids s rows = Ok (s', rows'))
  /\ (need = true -> (length (block_pool s) < length ids)%nat ->
      decode_reqs cfg crd ids s rows = Raise (IndexError "pop from an empty deque")).
Proof.
  induction ids as [|rid ids IH]; intros s rows Hnd Hall.
  - split; [intros _; by eexists _, _ | simpl; lia].
  - apply NoDup_cons in Hnd as [Hrid Hnd].
    destruct (Hall rid ltac:(left)) as (r & b & idx & Hr & Hout & Hb & Hne & Hneed & Hidx & Hlt).
    pose proof (decode_req_outcome cfg crd rid s rows r b idx Hr Hout Hb Hne Hidx Hlt) as H1.
    rewrite Hneed in H1. cbn [decode_reqs]. destruct need.
    + destruct (block_pool s) as [|x pool] eqn:Epool.
      * rewrite H1. simpl. split; [intros H; specialize (H eq_refl); lia | done].
      * destruct H1 as [rows1 ->]. simpl.
        set (s1 := set_req_ids2blocks _ _).
        destruct (IH s1 rows1 Hnd) as [IH1 IH2].
        { intros rid' Hin.
          destruct (Hall rid' ltac:(by right))
            as (r' & b' & idx' & Hr' & Hout' & Hb' & Hne' & Hneed' & Hidx' & Hlt').
          exists r', b', idx'. subst s1. simpl. split_and!; try done.
          rewrite dget_dset_ne; [done|]. by intros ->. }
        subst s1. simpl in *.
        split; [intros H; apply IH1; intros _; specialize (H eq_refl); lia
               | intros _ H; apply IH2; [done | lia]].
    + destruct H1 as [rows1 ->]. simpl.
      destruct (IH s rows1 Hnd) as [IH1 IH2].
      { intros rid' Hin. apply Hall. by right. }
      split; [intros _; by apply IH1 | done].
Qed.

Lemma decode_reqs_rows_len cfg crd ids : forall s rows s' rows',
  decode_reqs cfg crd ids s rows = Ok (s', rows') ->
  length (rows_input_tokens rows')
  = (length (rows_input_tokens rows) + length ids)%nat.
Proof.
  induction ids as [|rid ids IH]; intros s rows s' rows' H; simpl in H.
  - injection H as <- <-. simpl. lia.
  - apply bind_Ok in H as ([s1 rows1] & H1 & H). apply IH in H.
    apply decode_req_Ok in H1
      as (r & blocks & alloc & lastb & tok & sl & _ & _ & _ & _ & _ & _ & _ & -> & _).
    simpl in H. rewrite length_app in H. simpl in *. lia.
Qed.

Lemma decode_rows_rectangular cfg crd s s1 rows :
  reachable cfg s ->
  decode_reqs cfg crd (input_batch s) s (mkDecodeRows [] [] [] [] []) = Ok (s1, rows) ->
  rectangular (rows_block_table rows) = true.
Proof.
  intros Hreach Hloop. pose proof (reachable_inv cfg s Hreach) as Hinv.
  pose proof (tables_len_reachable cfg s Hreach) as Hlen.
  destruct (decode_reqs_tabs _ _ _ _ _ _ _ Hloop) as (tabs & -> & Hall).
  { rewrite (inv_input_batch cfg s Hinv). apply Hinv. }
  simpl. apply (rectangular_same_len _ (ceil_div (tkv s + 1) (block_size cfg))).
  apply Forall_forall. intros t (i & Hi)%list_elem_of_lookup_1.
  destruct (Forall2_lookup_r _ _ _ i t Hall Hi) as (k & _ & Hk).
  by apply (decode_reqs_tables_len cfg crd s _ s1 _ Hinv Hlen Hloop k), dget_elem_of.
Qed.

(** When a decode step returns and when it exhausts the pool. *)
Lemma decode_returns_or_exhausts cfg crd s :
  reachable cfg s ->
  0 < len (CachedRequestData.req_ids crd) ->
  len (input_batch s) = len (CachedRequestData.req_ids crd) ->
  (forall rid, rid ∈ input_batch s -> rid ∈ CachedRequestData.req_ids crd) ->
  len (CachedRequestData.req_ids crd)
  <= len (CachedRequestData.num_computed_tokens crd) ->
  (forall rid r, dget rid (requests s) = Some r ->
                 CachedRequestState.output_token_ids r <> []) ->
  ((exists s' mi, _prepare_decode cfg crd s = Ok (s', mi))
   <-> (tkv s `mod` block_size cfg = 0 -> len (input_batch s) <= len (block_pool s)))
  /\ (_prepare_decode cfg crd s = Raise (IndexError "pop from an empty deque")
      <-> tkv s `mod` block_size cfg = 0 /\ len (block_pool s) < len (input_batch s)).
Proof.
  intros Hreach Hpos Hsame Hsub Hnct Hout.
  pose proof (reachable_inv cfg s Hreach) as Hinv.
  pose proof (block_size_positive cfg) as Hbs.
  set (need := bool_decide (tkv s `mod` block_size cfg = 0)).
  destruct (decode_reqs_outcome cfg crd need (input_batch s) s (mkDecodeRows [] [] [] [] []))
    as [Hok Hraise].
  { rewrite (inv_input_batch cfg s Hinv). apply Hinv. }
  { intros rid Hin. rewrite (inv_input_batch cfg s Hinv) in Hin.
    destruct (keys_dget rid (req_ids2blocks s) Hin) as [b Hb].
    destruct (keys_dget rid (requests s)) as [r Hr].
    { by rewrite (inv_requests_keys cfg s Hinv). }
    destruct (cached_reqs_map_lookup rid (CachedRequestData.req_ids crd)) as (idx & Hidx & Hi).
    { apply Hsub. by rewrite (inv_input_batch cfg s Hinv). }
    exists r, b, idx. split_and!; try done.
    - by eapply Hout.
    - apply (inv_tables_nonempty cfg s Hinv rid). by apply dget_elem_of.
    - rewrite (tables_len_reachable cfg s Hreach rid b) by (by apply dget_elem_of).
      subst need. case_bool_decide as Hmod.
      + destruct (ceil_div_succ_aligned _ _ Hbs Hmod) as [_ ->]. apply Z.ltb_lt. lia.
      + destruct (ceil_div_succ_inside _ _ Hbs Hmod) as [_ ->]. apply Z.ltb_ge. lia.
    - apply lookup_lt_Some in Hi. unfold len in Hnct. lia. }
  assert (py_assert (0 <? len (CachedRequestData.req_ids crd))
            "len(cached_request_data.req_ids) > 0" = Ok tt) as Ha1.
  { by rewrite (proj2 (Z.ltb_lt _ _) Hpos). }
  assert (py_assert
            (bool_decide (len (input_batch s) = len (CachedRequestData.req_ids crd)))
            "len(self.input_batch.req_id_to_index) == len(cached_request_data.req_ids)"
          = Ok tt) as Ha2.
  { by rewrite bool_decide_eq_true_2. }
  destruct (decide (tkv s `mod` block_size cfg = 0
                    /\ len (block_pool s) < len (input_batch s))) as [[Hmod Hshort]|Hno].
  - assert (_prepare_decode cfg crd s = Raise (IndexError "pop from an empty deque")) as E.
    { unfold _prepare_decode. rewrite Ha1, Ha2. cbn [mbind result_bind].
      unfold InputBatch.sorted_requests_ids. rewrite Hraise; [done | |].
      - subst need. by apply bool_decide_eq_true_2.
      - unfold len in Hshort. lia. }
    rewrite E. split; split; try done.
    + by intros (? & ? & ?).
    + intros H. specialize (H Hmod). lia.
  - destruct Hok as (s1 & rows & Hloop).
    { subst need. intros Hmod%bool_decide_eq_true_1.
      destruct (Z.le_gt_cases (len (input_batch s)) (len (block_pool s))) as [Hle|Hgt].
      - unfold len in Hle. lia.
      - exfalso. by apply Hno. }
    assert (exists s' mi, _prepare_decode cfg crd s = Ok (s', mi)) as (s' & mi & E).
    { unfold _prepare_decode. rewrite Ha1, Ha2. cbn [mbind result_bind].
      unfold InputBatch.sorted_requests_ids. rewrite Hloop.
      cbn [mbind result_bind].
      rewrite (decode_rows_rectangular cfg crd s s1 rows Hreach Hloop).
      pose proof (decode_reqs_rows_len _ _ _ _ _ _ _ Hloop) as Hrows. simpl in Hrows.
      assert (len (rows_input_tokens rows) = len (CachedRequestData.req_ids crd)) as Hrl.
      { unfold len in *. rewrite Hrows. lia. }
      destruct (bool_decide (len (CachedRequestData.req_ids crd) = 1)) eqn:E1.
      - apply bool_decide_eq_true_1 in E1.
        assert (length (CachedRequestData.req_ids crd) = 1%nat) as ->
          by (unfold len in E1; lia).
        simpl. rewrite len_app, Hrl, E1. simpl. by eexists _, _.
      - apply bool_decide_eq_false_1 in E1. simpl. rewrite Hrl.
        rewrite (proj2 (Z.leb_le 2 _)) by lia. simpl. by eexists _, _. }
    rewrite E. split; split; try done.
    + intros _ Hmod. destruct (Z.le_gt_cases (len (input_batch s)) (len (block_pool s)));
        [done | exfalso; by apply Hno].
    + intros _. by eexists _, _.
Qed.

Lemma inv_conservation cfg s :
  runner_inv cfg s -> len (block_pool s) + blocks_held s = n_blocks s.
Proof.
  intros Hinv. destruct Hinv.
  unfold blocks_held. rewrite sum_len_concat, <- len_app.
  fold (all_blocks s). unfold len. rewrite inv_blocks0.
  fold (len (range (n_blocks s))). by apply len_range.
Qed.

Lemma blocks_held_uniform s c :
  (forall k b, (k, b) ∈ req_ids2blocks s -> len b = c) ->
  blocks_held s = c * len (req_ids2blocks s).
Proof.
  unfold blocks_held, values. induction (req_ids2blocks s) as [|[k b] d IH]; intros H.
  - unfold len. simpl. lia.
  - rewrite !fmap_cons, sum_cons, IH by (intros k' b' ?; apply (H k'); by right).
    cbn [snd]. rewrite (H k b) by left. unfold len. simpl length. lia.
Qed.

(** The blocks a decode step takes from the pool. *)
Lemma decode_takes_blocks cfg crd s s' mi :
  reachable cfg s ->
  _prepare_decode cfg crd s = Ok (s', mi) ->
  exists allocated,
    block_pool s = allocated ++ block_pool s'
    /\ len allocated
       = (if decide (tkv s `mod` block_size cfg = 0) then len (input_batch s) else 0)
    /\ forall rid blocks,
         dget rid (req_ids2blocks s) = Some blocks ->
         if decide (tkv s `mod` block_size cfg = 0)
         then exists b, b ∈ allocated
                        /\ dget rid (req_ids2blocks s') = Some (blocks ++ [b])
         else dget rid (req_ids2blocks s') = Some blocks.
Proof.
  intros Hreach H. pose proof (reachable_inv cfg s Hreach) as Hinv.
  pose proof (block_size_positive cfg) as Hbs.
  pose proof (reach_prepare_decode cfg crd s s' mi Hreach H) as Hreach'.
  pose proof (reachable_inv cfg s' Hreach') as Hinv'.
  pose proof (tables_len_reachable cfg s Hreach) as Hlen.
  pose proof (tables_len_reachable cfg s' Hreach') as Hlen'.
  apply _prepare_decode_Ok in H
    as (s1 & rows & Hloop & _ & _ & Ht & _ & _ & HD & _ & HP & HN & _).
  pose proof (decode_reqs_step _ _ _ _ _ _ _ Hloop) as (_ & Hk & _ & _ & _ & Ht1 & Hn1 & _).
  apply decode_reqs_spec in Hloop
    as (allocated & tabs & slots & Hpool & _ & _ & _ & _ & Hidx).
  2:{ rewrite (inv_input_batch cfg s Hinv). apply Hinv. }
  exists allocated. rewrite HP. split; [done|].
  assert (len (req_ids2blocks s') = len (req_ids2blocks s)) as HlenD.
  { by rewrite <- (len_keys (req_ids2blocks s')), HD, Hk, len_keys. }
  assert (len (input_batch s) = len (req_ids2blocks s)) as HlenI.
  { by rewrite (inv_input_batch cfg s Hinv), len_keys. }
  split.
  - pose proof (inv_conservation cfg s Hinv) as Hc.
    pose proof (inv_conservation cfg s' Hinv') as Hc'.
    rewrite (blocks_held_uniform s _ Hlen) in Hc.
    rewrite (blocks_held_uniform s' _ Hlen'), HlenD in Hc'.
    rewrite HP, HN, Hn1 in Hc'. rewrite Hpool, len_app in Hc.
    rewrite Ht, Ht1 in Hc'. rewrite HlenI.
    destruct (decide (tkv s `mod` block_size cfg = 0)) as [Hmod|Hmod].
    + destruct (ceil_div_succ_aligned _ _ Hbs Hmod) as [Hs _]. rewrite Hs in Hc'. nia.
    + destruct (ceil_div_succ_inside _ _ Hbs Hmod) as [Hs _]. rewrite Hs in Hc'. nia.
  - intros rid blocks Hb.
    assert (rid ∈ input_batch s) as (i & Hi)%list_elem_of_lookup_1.
    { rewrite (inv_input_batch cfg s Hinv). by eapply dget_Some_keys. }
    destruct (Hidx i rid Hi) as (blocks0 & blocks' & lastb & Hb0 & Hb' & Hcond & _).
    rewrite Hb in Hb0. injection Hb0 as <-. rewrite HD.
    rewrite (Hlen rid blocks (dget_elem_of _ _ _ Hb)) in Hcond.
    destruct (decide (tkv s `mod` block_size cfg = 0)) as [Hmod|Hmod].
    + destruct (ceil_div_succ_aligned _ _ Hbs Hmod) as [_ Hq].
      rewrite bool_decide_eq_true_2 in Hcond by lia.
      destruct Hcond as (b & Hin & ->). by exists b.
    + destruct (ceil_div_succ_inside _ _ Hbs Hmod) as [_ Hq].
      rewrite bool_decide_eq_false_2 in Hcond by lia. by subst blocks'.
Qed.

(** X9. A decode step from a reachable state, for a batch that names every
    resident request, gives a position for each and in which every resident
    request has produced a token, takes one block per resident request when
    the cursor is at a block boundary and none otherwise: at a boundary the
    blocks taken are the front of the pool and one of them goes to the end
    of each block table; away from a boundary the pool and every block
    table are left as they are. It raises [IndexError] exactly when the
    cursor is at a boundary and the pool holds fewer blocks than there are
    resident requests, and returns otherwise. *)
Theorem decode_outcome cfg crd s :
  reachable cfg s ->
  0 < len (CachedRequestData.req_ids crd) ->
  len (input_batch s) = len (CachedRequestData.req_ids crd) ->
  (forall rid, rid ∈ input_batch s -> rid ∈ CachedRequestData.req_ids crd) ->
  len (CachedRequestData.req_ids crd)
  <= len (CachedRequestData.num_computed_tokens crd) ->
  (forall rid r, dget rid (requests s) = Some r ->
                 CachedRequestState.output_token_ids r <> []) ->
  ((exists s' mi, _prepare_decode cfg crd s = Ok (s', mi))
   <-> (tkv s `mod` block_size cfg = 0 -> len (input_batch s) <= len (block_pool s)))
  /\ (_prepare_decode cfg crd s = Raise (IndexError "pop from an empty deque")
      <-> tkv s `mod` block_size cfg = 0 /\ len (block_pool s) < len (input_batch s))
  /\ (forall s' mi,
        _prepare_decode cfg crd s = Ok (s', mi) ->
        exists allocated,
          block_pool s = allocated ++ block_pool s'
          /\ len allocated
             = (if decide (tkv s `mod` block_size cfg = 0)
                then len (input_batch s) else 0)
          /\ forall rid blocks,
               dget rid (req_ids2blocks s) = Some blocks ->
               if decide (tkv s `mod` block_size cfg = 0)
               then exists b, b ∈ allocated
                              /\ dget rid (req_ids2blocks s') = Some (blocks ++ [b])
               else dget rid (req_ids2blocks s') = Some blocks).
Proof.
  intros Hreach Hpos Hsame Hsub Hnct Hout.
  destruct (decode_returns_or_exhausts cfg crd s Hreach Hpos Hsame Hsub Hnct Hout)
    as [H1 H2].
  split_and!; [done | done |].
  intros s' mi H. by apply (decode_takes_blocks cfg crd s s' mi).
Qed.

Lemma decode_outcome_witness :
  exists allocated,
    block_pool Scenario.s2 = allocated ++ block_pool Scenario.s3
    /\ len allocated = 1.
Proof.
  destruct (decode_outcome Scenario.cfg Scenario.decode_a Scenario.s2)
    as (_ & _ & Htakes).
  - apply scenario_s2_reachable.
  - done.
  - done.
  - intros rid Hin. exact Hin.
  - done.
  - intros rid r H. simpl in H. destruct (decide (rid = "a")); [|done].
    by injection H as <-.
  - destruct (Htakes Scenario.s3
                (Scenario.mi_of (_prepare_decode Scenario.cfg Scenario.decode_a Scenario.s2)))
      as (allocated & Hpool & Hlen & _); [by vm_compute|].
    exists allocated. split; [exact Hpool|]. rewrite Hlen. by vm_compute.
Defined.

(** ** The rows of a decode step *)

Lemma decode_req_rows cfg crd rid s rows s' rows' :
  decode_req cfg crd rid s rows = Ok (s', rows') ->
  exists r tok idx pos,
    dget rid (requests s) = Some r
    /\ last (CachedRequestState.output_token_ids r) = Some tok
    /\ dget rid (cached_reqs_map (CachedRequestData.req_ids crd)) = Some idx
    /\ CachedRequestData.num_computed_tokens crd !! idx = Some pos
    /\ rows_input_tokens rows' = rows_input_tokens rows ++ [[tok]]
    /\ rows_input_positions rows' = rows_input_positions rows ++ [[pos]]
    /\ rows_left_padded_prompt_mask rows'
       = rows_left_padded_prompt_mask rows ++ [CachedRequestState.left_padding r]
    /\ requests s' = requests s.
Proof.
  unfold decode_req. intros H.
  apply bind_Ok in H as (r & Hr & H). apply bind_Ok in H as (blocks & _ & H).
  apply bind_Ok in H as ([s1 blocks1] & Hs1 & H). simpl in H.
  apply bind_Ok in H as (lastb & _ & H). apply bind_Ok in H as (tok & Htok & H).
  apply bind_Ok in H as (idx & Hidx & H). apply bind_Ok in H as (pos & Hpos & H).
  injection H as <- <-. simpl.
  unfold dindex in Hr, Hidx. unfold py_last in Htok. unfold py_nth in Hpos.
  destruct (dget rid (requests s)) as [r0|] eqn:Er; [|done]. injection Hr as ->.
  destruct (last _) as [tok0|] eqn:Et; [|done]. injection Htok as ->.
  destruct (dget rid (cached_reqs_map _)) as [idx0|] eqn:Ei; [|done].
  injection Hidx as ->.
  destruct (_ !! idx) as [pos0|] eqn:Ep; [|done]. injection Hpos as ->.
  exists r, tok, idx, pos. split_and!; try done.
  destruct (_ <? _); [|by injection Hs1 as <- _].
  by apply bind_Ok in Hs1 as ([b pool] & _ & [= <- _]).
Qed.

Lemma decode_reqs_rows cfg crd ids : forall s rows s' rows',
  decode_reqs cfg crd ids s rows = Ok (s', rows') ->
  requests s' = requests s
  /\ exists toks poss lps,
       rows_input_tokens rows' = rows_input_tokens rows ++ toks
       /\ rows_input_positions rows' = rows_input_positions rows ++ poss
       /\ rows_left_padded_prompt_mask rows' = rows_left_padded_prompt_mask rows ++ lps
       /\ length toks = length ids /\ length lps = length ids
       /\ forall i rid, ids !! i = Some rid ->
            exists r tok idx pos,
              dget rid (requests s) = Some r
              /\ last (CachedRequestState.output_token_ids r) = Some tok
              /\ dget rid (cached_reqs_map (CachedRequestData.req_ids crd)) = Some idx
              /\ CachedRequestData.num_computed_tokens crd !! idx = Some pos
              /\ toks !! i = Some [tok] /\ poss !! i = Some [pos]
              /\ lps !! i = Some (CachedRequestState.left_padding r).
Proof.
  induction ids as [|rid ids IH]; intros s rows s' rows' H; simpl in H.
  - injection H as <- <-. split; [done|]. exists [], [], [].
    rewrite !app_nil_r. by split_and!.
  - apply bind_Ok in H as ([s1 rows1] & H1 & H).
    apply decode_req_rows in H1
      as (r & tok & idx & pos & Hr & Htok & Hidx & Hpos & Ht & Hp & Hl & Hreq).
    destruct (IH _ _ _ _ H) as (Hreq' & toks & poss & lps & Ht' & Hp' & Hl' & Hlt & Hll & Hall).
    split; [congruence|].
    exists ([tok] :: toks), ([pos] :: poss), (CachedRequestState.left_padding r :: lps).
    split_and!.
    + by rewrite Ht', Ht, <- app_assoc.
    + by rewrite Hp', Hp, <- app_assoc.
    + by rewrite Hl', Hl, <- app_assoc.
    + simpl. by rewrite Hlt.
    + simpl. by rewrite Hll.
    + intros [|i] rid' Hi; simpl in Hi.
      * injection Hi as <-. by exists r, tok, idx, pos.
      * rewrite <- Hreq. by apply Hall.
Qed.

(** X10. The rows a successful decode step hands to the model: row [i]
    belongs to the request at dense index [i] and holds the last token that
    request produced, the [num_computed_tokens] entry at the request's index
    in [cached_request_data.req_ids], and the request's left padding; every
    row of [current_tkv_mask] is the advanced cursor, and the batch has at
    least two rows. *)
Theorem decode_rows cfg crd s s' mi :
  _prepare_decode cfg crd s = Ok (s', mi) ->
  requests s' = requests s
  /\ 2 <= len (ModelForwardInputs.input_tokens mi)
  /\ ModelForwardInputs.current_tkv_mask mi
     = Some (replicate (length (ModelForwardInputs.input_tokens mi)) (tkv s + 1))
  /\ exists lpm,
       ModelForwardInputs.left_padded_prompt_mask mi = Some lpm
       /\ length lpm = length (ModelForwardInputs.input_tokens mi)
       /\ forall i rid, input_batch s !! i = Some rid ->
            exists r tok idx pos,
              dget rid (requests s) = Some r
              /\ last (CachedRequestState.output_token_ids r) = Some tok
              /\ CachedRequestData.req_ids crd !! idx = Some rid
              /\ CachedRequestData.num_computed_tokens crd !! idx = Some pos
              /\ ModelForwardInputs.input_tokens mi !! i = Some [tok]
              /\ ModelForwardInputs.input_positions mi !! i = Some [pos]
              /\ lpm !! i = Some (CachedRequestState.left_padding r).
Proof.
  intros H. pose proof H as H0. unfold _prepare_decode in H0.
  apply bind_Ok in H0 as (u1 & _ & H0). apply bind_Ok in H0 as (u2 & _ & H0).
  apply bind_Ok in H0 as ([s1' rows'] & _ & H0). simpl in H0.
  apply bind_Ok in H0 as (u3 & _ & H0). apply bind_Ok in H0 as ([s2 mi2] & _ & H0).
  apply bind_Ok in H0 as (u4 & Hmin%py_assert_Ok%Z.leb_le & [= _ ->]).
  apply _prepare_decode_Ok in H
    as (s1 & rows & Hloop & _ & _ & _ & Hreq & _ & _ & _ & _ & _ & Hmi).
  pose proof (decode_reqs_step _ _ _ _ _ _ _ Hloop) as (_ & _ & _ & _ & _ & Htkv & _).
  apply decode_reqs_rows in Hloop
    as (Hreq1 & toks & poss & lps & Ht & Hp & Hl & Hlt & Hll & Hall).
  simpl in Ht, Hp, Hl. rewrite Ht, Hp, Hl, Htkv in Hmi. simpl in Hmi.
  assert (forall i rid, input_batch s !! i = Some rid ->
            exists r tok idx pos,
              dget rid (requests s) = Some r
              /\ last (CachedRequestState.output_token_ids r) = Some tok
              /\ CachedRequestData.req_ids crd !! idx = Some rid
              /\ CachedRequestData.num_computed_tokens crd !! idx = Some pos
              /\ toks !! i = Some [tok] /\ poss !! i = Some [pos]
              /\ lps !! i = Some (CachedRequestState.left_padding r)) as Hall'.
  { intros i rid Hi.
    destruct (Hall i rid Hi) as (r & tok & idx & pos & ? & ? & Hidx & ? & ? & ? & ?).
    exists r, tok, idx, pos. split_and!; try done.
    destruct (cached_reqs_map_lookup rid (CachedRequestData.req_ids crd))
      as (idx' & Hidx' & Hlk); [|congruence].
    destruct (decide (rid ∈ CachedRequestData.req_ids crd)) as [|Hn]; [done|].
    unfold cached_reqs_map in Hidx.
    rewrite cached_reqs_map_frame in Hidx; [done | by rewrite enumerate_snd]. }
  split; [congruence|]. split; [done|].
  destruct (bool_decide _); destruct Hmi as [_ ->]; simpl.
  - split; [by rewrite length_app, <- replicate_add|].
    exists (lps ++ lps). split; [done|]. split; [rewrite !length_app; lia|].
    intros i rid Hi.
    destruct (Hall' i rid Hi) as (r & tok & idx & pos & ? & ? & ? & ? & ? & ? & ?).
    exists r, tok, idx, pos. split_and!; try done; by apply lookup_app_l_Some.
  - split; [done|]. exists lps. split; [done|]. split; [lia|].
    intros i rid Hi.
    destruct (Hall' i rid Hi) as (r & tok & idx & pos & ? & ? & ? & ? & ? & ? & ?).
    by exists r, tok, idx, pos.
Qed.

Lemma decode_rows_witness :
  ModelForwardInputs.current_tkv_mask
    (Scenario.mi_of (_prepare_decode Scenario.cfg Scenario.decode_a Scenario.s2))
  = Some [129; 129].
Proof.
  assert (_prepare_decode Scenario.cfg Scenario.decode_a Scenario.s2
          = Ok (Scenario.s3,
                Scenario.mi_of (_prepare_decode Scenario.cfg Scenario.decode_a Scenario.s2)))
    as H by (by vm_compute).
  destruct (decode_rows _ _ _ _ _ H) as (_ & _ & Hmask & _).
  rewrite Hmask. reflexivity.
Defined.

(** ** Construction and warmup *)






(** ** Static batching: the warmup shape of a prefill *)

Lemma foldl_filter {A B} (P : B -> A -> Prop) `{!forall b a, Decision (P b a)}
    (bs : list B) : forall l : list A,
  foldl (fun acc b => filter (P b) acc) l bs
  = filter (fun a => Forall (fun b => P b a) bs) l.
Proof.
  induction bs as [|b bs IH]; intros l; simpl.
  - symmetry. induction l as [|a l IHl]; [done|].
    rewrite filter_cons_True by constructor. by f_equal.
  - rewrite IH. induction l as [|a l IHl]; [done|].
    rewrite !filter_cons. destruct (decide (P b a)) as [Hb|Hb].
    + rewrite filter_cons. destruct (decide (Forall (fun b0 => P b0 a) bs)) as [Hbs|Hbs].
      * rewrite decide_True by (by constructor). by f_equal.
      * rewrite decide_False by (by intros [_ ?]%Forall_cons). done.
    + rewrite decide_False by (by intros [? _]%Forall_cons). done.
Qed.

Lemma filter_filter_and {A} (P Q : A -> Prop) `{!forall a, Decision (P a)}
    `{!forall a, Decision (Q a)} (l : list A) :
  filter Q (filter P l) = filter (fun a => P a /\ Q a) l.
Proof.
  induction l as [|a l IH]; [done|]. rewrite !filter_cons.
  destruct (decide (P a)) as [Hp|Hp].
  - rewrite filter_cons. destruct (decide (Q a)) as [Hq|Hq].
    + rewrite decide_True by done. by f_equal.
    + rewrite decide_False by (by intros [_ ?]). done.
  - rewrite decide_False by (by intros [? _]). done.
Qed.

Lemma filter_first {A} (P : A -> Prop) `{!forall a, Decision (P a)} (l : list A) :
  match filter P l with
  | [] => Forall (fun a => ~ P a) l
  | x :: _ => exists pre post, l = pre ++ x :: post /\ P x /\ Forall (fun a => ~ P a) pre
  end.
Proof.
  induction l as [|a l IH]; [by constructor|]. rewrite filter_cons.
  destruct (decide (P a)) as [Hp|Hp].
  - exists [], l. by split_and!.
  - destruct (filter P l) as [|x rest].
    + by constructor.
    + destruct IH as (pre & post & -> & Hx & Hpre).
      exists (a :: pre), post. split_and!; [done | done | by constructor].
Qed.

(** X13. [_get_padded_batch_size] picks the first warmup shape, in the
    order of [spyre_warmup_shapes], that holds the whole batch: batch size,
    every prompt length and every request's [max_tokens] (0 without
    sampling parameters). It raises its assertion exactly when no shape
    does. *)
Theorem padded_batch_size_first_fit shapes new_requests :
  let fits (shape : StaticBatchingSpyreModelRunner.WarmupShape) :=
    len new_requests <= StaticBatchingSpyreModelRunner.batch_size shape
    /\ Forall (fun r =>
         len (NewRequestData.prompt_token_ids r)
         <= StaticBatchingSpyreModelRunner.prompt_length shape
         /\ match NewRequestData.sampling_params r with
            | Some sp => SamplingParams.max_tokens sp
            | None => 0
            end <= StaticBatchingSpyreModelRunner.new_tokens shape) new_requests in
  match StaticBatchingSpyreModelRunner._get_padded_batch_size shapes new_requests with
  | Ok (padded_batch_size, min_pad_length_batch) =>
      exists pre shape post,
        shapes = pre ++ shape :: post
        /\ fits shape /\ Forall (fun sh => ~ fits sh) pre
        /\ padded_batch_size = StaticBatchingSpyreModelRunner.batch_size shape
        /\ min_pad_length_batch = StaticBatchingSpyreModelRunner.prompt_length shape
        /\ len new_requests <= padded_batch_size
        /\ Forall (fun r => len (NewRequestData.prompt_token_ids r)
                            <= min_pad_length_batch) new_requests
  | Raise e =>
      e = AssertionError
            "No shapes available to run prefill batch. (This should not happen)"
      /\ Forall (fun sh => ~ fits sh) shapes
  end.
Proof.
  intros fits. unfold StaticBatchingSpyreModelRunner._get_padded_batch_size.
  rewrite (foldl_filter
             (fun r shape =>
                len (NewRequestData.prompt_token_ids r)
                <= StaticBatchingSpyreModelRunner.prompt_length shape
                /\ match NewRequestData.sampling_params r with
                   | Some sp => SamplingParams.max_tokens sp
                   | None => 0
                   end <= StaticBatchingSpyreModelRunner.new_tokens shape)).
  rewrite filter_filter_and.
  pose proof (filter_first fits shapes) as H. subst fits. simpl in H.
  destruct (filter _ shapes) as [|shape rest].
  - by split.
  - destruct H as (pre & post & -> & Hfit & Hpre).
    exists pre, shape, post. destruct Hfit as [Hb Hall]. split_and!; try done.
    eapply Forall_impl; [exact Hall|]. by intros r [? _].
Qed.

Lemma padded_batch_size_first_fit_witness :
  exists pre shape post,
    [StaticBatchingSpyreModelRunner.mkWarmupShape 1 64 20;
     StaticBatchingSpyreModelRunner.mkWarmupShape 4 64 20;
     StaticBatchingSpyreModelRunner.mkWarmupShape 4 128 20;
     StaticBatchingSpyreModelRunner.mkWarmupShape 8 256 20]
    = pre ++ shape :: post
    /\ StaticBatchingSpyreModelRunner.batch_size shape = 4
    /\ StaticBatchingSpyreModelRunner.prompt_length shape = 128.
Proof.
  pose proof (padded_batch_size_first_fit
                [StaticBatchingSpyreModelRunner.mkWarmupShape 1 64 20;
                 StaticBatchingSpyreModelRunner.mkWarmupShape 4 64 20;
                 StaticBatchingSpyreModelRunner.mkWarmupShape 4 128 20;
                 StaticBatchingSpyreModelRunner.mkWarmupShape 8 256 20]
                [Scenario.req_a; Scenario.req_b]) as H.
  cbv zeta in H.
  change (StaticBatchingSpyreModelRunner._get_padded_batch_size _ _)
    with (@Ok (Z * Z) (4, 128)) in H.
  destruct H as (pre & shape & post & Hs & _ & _ & Hb & Hp & _).
  by exists pre, shape, post.
Defined.

(** ** The causal mask of [pad_input_ids] *)

Lemma foldl_max_ge (xs : list Z) : forall m,
  m <= foldl Z.max m xs /\ Forall (fun x => x <= foldl Z.max m xs) xs.
Proof.
  induction xs as [|x xs IH]; intros m; simpl; [split; [lia | constructor]|].
  destruct (IH (Z.max m x)) as [H1 H2]. split; [lia|].
  constructor; [lia | done].
Qed.

Lemma lookup_pad_flags (np P : nat) (pad : Z) i :
  (i < np + P)%nat ->
  ((fun x => negb (x =? 0)) <$> (((fun _ => 0) <$> replicate np pad) ++ replicate P 1))
    !! i = Some (bool_decide (np <= i)%nat).
Proof.
  intros Hi. rewrite list_lookup_fmap. destruct (decide (i < np)%nat) as [Hlt|Hge].
  - rewrite lookup_app_l by (rewrite length_fmap, length_replicate; lia).
    rewrite list_lookup_fmap, lookup_replicate_2 by done. simpl.
    by rewrite bool_decide_eq_false_2 by lia.
  - rewrite lookup_app_r by (rewrite length_fmap, length_replicate; lia).
    rewrite length_fmap, length_replicate, lookup_replicate_2 by lia. simpl.
    by rewrite bool_decide_eq_true_2 by lia.
Qed.

Lemma lookup_causal (m : list bool) i j mi mj :
  m !! i = Some mi -> m !! j = Some mj ->
  tril (outer_eq m) !! i ≫= (.!! j)
  = Some (bool_decide (mi = mj) && bool_decide (j <= i)%nat).
Proof.
  intros Hi Hj. unfold tril, outer_eq.
  rewrite list_lookup_imap, list_lookup_fmap, Hi. simpl.
  by rewrite list_lookup_imap, list_lookup_fmap, Hj.
Qed.

Lemma length_causal (m : list bool) : length (tril (outer_eq m)) = length m.
Proof. unfold tril, outer_eq. by rewrite length_imap, length_fmap. Qed.

(** The mask built for one sequence of [P] tokens behind [np] pads. *)
Lemma causal_mask_lookup (np P : nat) (pad : Z) i j :
  (i < np + P)%nat -> (j < np + P)%nat ->
  exists x,
    tril (outer_eq ((fun x => negb (x =? 0))
                      <$> (((fun _ => 0) <$> replicate np pad) ++ replicate P 1)))
      !! i ≫= (.!! j) = Some x
    /\ (x = true <-> (j <= i)%nat /\ ((i < np)%nat <-> (j < np)%nat)).
Proof.
  intros Hi Hj. eexists. split.
  - apply lookup_causal; by apply lookup_pad_flags.
  - rewrite andb_true_iff, !bool_decide_eq_true.
    split; intros [H1 H2]; (split; [|done || idtac]); try done.
    + revert H1. do 2 case_bool_decide; (done || lia).
    + do 2 case_bool_decide; (done || lia).
Qed.

(** X14. [SpyreModelRunner.pad_input_ids] fails only on an empty batch.
    Otherwise every sequence is left padded to one length, the largest of
    [min_pad_length] and the sequence lengths, and its mask is causal within
    the pads and within the tokens: position [i] attends position [j]
    exactly when [j <= i] and both are pads or both are tokens. *)
Theorem base_pad_input_ids_mask cfg ids_list m :
  match SpyreModelRunner.pad_input_ids cfg ids_list m with
  | inl e => ids_list = [] /\ e = TensorRuntimeError
  | inr (toks, pos, masks) =>
      exists L,
        L = foldl Z.max m (len <$> ids_list)
        /\ m <= L /\ ids_list <> []
        /\ length toks = length ids_list
        /\ forall b ids, ids_list !! b = Some ids ->
             len ids <= L
             /\ exists row prow mask,
                  toks !! b = Some row /\ pos !! b = Some prow
                  /\ masks !! b = Some mask
                  /\ (row, prow) = base_pad_input_ids cfg ids L
                  /\ len row = L /\ len prow = L /\ len mask = L
                  /\ forall i j,
                       (i < Z.to_nat L)%nat -> (j < Z.to_nat L)%nat ->
                       exists x,
                         mask !! i ≫= (.!! j) = Some x
                         /\ (x = true
                             <-> (j <= i)%nat
                                 /\ ((i < Z.to_nat (L - len ids))%nat
                                     <-> (j < Z.to_nat (L - len ids))%nat))
  end.
Proof.
  unfold SpyreModelRunner.pad_input_ids, SpyreModelRunner._prepare_pad_input_ids.
  set (L := foldl Z.max m (len <$> ids_list)).
  destruct (foldl_max_ge (len <$> ids_list) m) as [HmL Hall]. fold L in HmL, Hall.
  set (per := fun input_ids_i : list Z => _).
  destruct (decide (ids_list = [])) as [->|Hne]; [done|].
  destruct ((fun r => r.1.1) <$> (per <$> ids_list)) as [|t0 l0] eqn:E.
  { apply fmap_nil_inv, fmap_nil_inv in E. done. }
  rewrite <- E. clear E t0 l0.
  exists L. split_and!; try done.
  { by rewrite !length_fmap. }
  intros b ids Hb.
  assert (len ids <= L) as HidsL.
  { rewrite Forall_forall in Hall. apply Hall, list_elem_of_fmap.
    exists ids. split; [done|]. by eapply list_elem_of_lookup_2. }
  split; [done|].
  rewrite !list_lookup_fmap, Hb. simpl.
  eexists _, _, _. split_and!; try done.
  - unfold base_pad_input_ids. by rewrite Z.max_l.
  - rewrite len_app. unfold len at 1. rewrite length_replicate. lia.
  - rewrite len_app, len_range by apply len_nonneg.
    unfold len at 1. rewrite length_replicate. lia.
  - unfold len at 1. rewrite length_causal, length_fmap, length_app, length_fmap,
      !length_replicate. unfold len in *. lia.
  - intros i j Hi Hj.
    apply causal_mask_lookup; unfold len in *; lia.
Qed.

Lemma base_pad_input_ids_mask_witness :
  exists toks pos masks,
    SpyreModelRunner.pad_input_ids Scenario.cfg [[7; 8]; [9]] 3
    = inr (toks, pos, masks)
    /\ toks = [[0; 7; 8]; [0; 0; 9]]
    /\ masks = [[[true; false; false]; [false; true; false]; [false; true; true]];
                [[true; false; false]; [true; true; false]; [false; false; true]]]
    /\ exists L, L = 3 /\ length toks = 2%nat.
Proof.
  pose proof (base_pad_input_ids_mask Scenario.cfg [[7; 8]; [9]] 3) as H.
  change (SpyreModelRunner.pad_input_ids Scenario.cfg [[7; 8]; [9]] 3)
    with (@inr tensor_exn _
            ([[0; 7; 8]; [0; 0; 9]], [[0; 0; 1]; [0; 0; 0]],
             [[[true; false; false]; [false; true; false]; [false; true; true]];
              [[true; false; false]; [true; true; false]; [false; false; true]]]))
    in H.
  destruct H as (L & HL & _ & _ & Hlen & _).
  eexists _, _, _. split; [reflexivity|]. split; [done|]. split; [done|].
  exists L. split; [by rewrite HL | exact Hlen].
Defined.

(** ** The mask of a continuous-batching prefill *)

Lemma causal_row_length (m : list bool) i row :
  tril (outer_eq m) !! i = Some row -> length row = length m.
Proof.
  unfold tril, outer_eq. rewrite list_lookup_imap, list_lookup_fmap.
  destruct (m !! i); [|done]. simpl. intros [= <-].
  by rewrite length_imap, length_fmap.
Qed.

Lemma pad_right_lookup (n : nat) (a : list (list bool)) (L : nat) i j :
  length a = L ->
  (forall k row, a !! k = Some row -> length row = L) ->
  (i < L + n)%nat -> (j < L + n)%nat ->
  ContinuousBatchingSpyreModelRunner.pad_right n a !! i ≫= (.!! j)
  = if decide (i < L)%nat then
      if decide (j < L)%nat then a !! i ≫= (.!! j) else Some false
    else
      if decide (j < L)%nat then Some false else Some (bool_decide (j <= i)%nat).
Proof.
  intros Ha Hrows Hi Hj. unfold ContinuousBatchingSpyreModelRunner.pad_right.
  assert (match a with row :: _ => length row | [] => 0%nat end = L) as ->.
  { destruct a as [|row a']; [done|]. by apply (Hrows 0%nat). }
  destruct (decide (i < L)%nat) as [HiL|HiL].
  - rewrite lookup_app_l by (by rewrite length_fmap, Ha).
    rewrite list_lookup_fmap.
    destruct (lookup_lt_is_Some_2 a i) as [row Hrow]; [lia|].
    rewrite Hrow. simpl. pose proof (Hrows i row Hrow) as Hlen.
    destruct (decide (j < L)%nat) as [HjL|HjL].
    + by rewrite lookup_app_l by lia.
    + rewrite lookup_app_r by lia. apply lookup_replicate_2. lia.
  - rewrite lookup_app_r by (rewrite length_fmap, Ha; lia).
    rewrite length_fmap, Ha, list_lookup_fmap.
    rewrite lookup_seq_lt by lia. simpl.
    destruct (decide (j < L)%nat) as [HjL|HjL].
    + rewrite lookup_app_l by (rewrite length_replicate; lia).
      apply lookup_replicate_2. lia.
    + rewrite lookup_app_r by (rewrite length_replicate; lia).
      rewrite length_replicate, list_lookup_fmap, lookup_seq_lt by lia. simpl.
      f_equal. apply bool_decide_ext. lia.
Qed.

(** X15. For the single sequence of a continuous-batching prefill,
    [pad_input_ids] returns the tokens and position ids of the padded row
    and a square mask over it that is causal inside each of its three
    regions (left pads, prompt, right pads) and closed between them: a
    prompt position never attends a pad, and every position attends
    itself. *)
Theorem cb_pad_input_ids_mask cfg prompt bp s :
  len prompt <= tkv s -> tkv s <= bp -> 0 < tkv s ->
  exists toks pos mask,
    pad_input_ids cfg prompt bp s
    = (set_model_n_pads_right (bp - tkv s) s, (toks, pos))
    /\ ContinuousBatchingSpyreModelRunner.pad_input_ids cfg [prompt] bp s
       = inr (set_model_n_pads_right (bp - tkv s) s, ([toks], [pos], [mask]))
    /\ len toks = bp /\ len mask = bp
    /\ forall i j,
         (i < Z.to_nat bp)%nat -> (j < Z.to_nat bp)%nat ->
         exists x,
           mask !! i ≫= (.!! j) = Some x
           /\ (x = true
               <-> (j <= i)%nat
                   /\ ((i < Z.to_nat (tkv s - len prompt))%nat
                       <-> (j < Z.to_nat (tkv s - len prompt))%nat)
                   /\ ((i < Z.to_nat (tkv s))%nat <-> (j < Z.to_nat (tkv s))%nat)).
Proof.
  intros Hp Hbp Htkv. pose proof (len_nonneg prompt) as Hp0.
  rewrite (pad_input_ids_layout cfg prompt bp s Hp Hbp).
  unfold ContinuousBatchingSpyreModelRunner.pad_input_ids,
    SpyreModelRunner.pad_input_ids, SpyreModelRunner._prepare_pad_input_ids.
  cbn [fmap list_fmap foldl fst snd].
  rewrite Z.max_l by done.
  set (np := Z.to_nat (tkv s - len prompt)).
  set (pads := replicate np (pad_token_id cfg)).
  set (flags := (fun x => negb (x =? 0)) <$> _).
  assert (len (pads ++ prompt) = tkv s) as Hleft.
  { rewrite len_app. subst pads np. unfold len in *. rewrite length_replicate. lia. }
  rewrite Hleft.
  assert (length flags = Z.to_nat (tkv s)) as Hflags.
  { subst flags pads np. rewrite length_fmap, length_app, length_fmap, !length_replicate.
    unfold len in *. lia. }
  assert (forall i j, (i < Z.to_nat (tkv s))%nat -> (j < Z.to_nat (tkv s))%nat ->
            exists x, tril (outer_eq flags) !! i ≫= (.!! j) = Some x
                      /\ (x = true <-> (j <= i)%nat /\ ((i < np)%nat <-> (j < np)%nat)))
    as Hcausal.
  { intros i j Hi Hj. subst flags pads.
    apply (causal_mask_lookup np (Z.to_nat (len prompt))); subst np; unfold len in *; lia. }
  destruct (0 <? bp - tkv s) eqn:En.
  - apply Z.ltb_lt in En.
    destruct (last (pads ++ range (len prompt))) eqn:Elast.
    2:{ apply last_None in Elast. apply (f_equal length) in Elast.
        rewrite length_app in Elast. subst pads np. unfold range in Elast.
        rewrite length_replicate, length_seqZ in Elast. simpl in Elast.
        unfold len in *. lia. }
    eexists _, _, _. split; [done|]. split; [by rewrite <- !app_assoc|].
    split_and!.
    + rewrite app_assoc, len_app, Hleft. unfold len. rewrite length_replicate. lia.
    + unfold ContinuousBatchingSpyreModelRunner.pad_right, len.
      rewrite length_app, !length_fmap, length_causal, Hflags, length_seq. lia.
    + intros i j Hi Hj.
      rewrite (pad_right_lookup _ _ (Z.to_nat (tkv s))); try lia.
      2:{ by rewrite length_causal. }
      2:{ intros k row Hrow. apply causal_row_length in Hrow. lia. }
      destruct (decide (i < Z.to_nat (tkv s))%nat) as [HiL|HiL];
        destruct (decide (j < Z.to_nat (tkv s))%nat) as [HjL|HjL].
      * destruct (Hcausal i j) as (x & Hx & Hiff); [lia..|].
        exists x. split; [done|]. rewrite Hiff. subst np. lia.
      * exists false. split; [done|]. split; [done|]. subst np. lia.
      * exists false. split; [done|]. split; [done|]. subst np. lia.
      * eexists. split; [done|]. rewrite bool_decide_eq_true. subst np. lia.
  - apply Z.ltb_ge in En. assert (bp = tkv s) as -> by lia.
    rewrite Z.sub_diag. simpl. rewrite !app_nil_r.
    eexists _, _, _. split; [done|]. split; [done|]. split_and!.
    + done.
    + unfold len. rewrite length_causal, Hflags. lia.
    + intros i j Hi Hj. destruct (Hcausal i j) as (x & Hx & Hiff); [lia..|].
      exists x. split; [done|]. rewrite Hiff. lia.
Qed.

Lemma cb_pad_input_ids_mask_witness :
  exists toks pos mask,
    ContinuousBatchingSpyreModelRunner.pad_input_ids Scenario.cfg [[5; 6]] 4
      (set_tkv 3 Scenario.s0)
    = inr (set_model_n_pads_right 1 (set_tkv 3 Scenario.s0), ([toks], [pos], [mask]))
    /\ toks = [0; 5; 6; 0]
    /\ mask = [[true; false; false; false];
               [false; true; false; false];
               [false; true; true; false];
               [false; false; false; true]].
Proof.
  destruct (cb_pad_input_ids_mask Scenario.cfg [5; 6] 4 (set_tkv 3 Scenario.s0))
    as (toks & pos & mask & _ & H & _); [done..|].
  exists toks, pos, mask. split; [exact H|].
  vm_compute in H. by injection H as <- <- <-.
Defined.

(** ** Static batching: positions and masks while decoding *)

Lemma _update_position_ids_fmap {A} (f : A -> list Z) (h : A -> Z) (l : list A) :
  Forall (fun x => last (f x) = Some (h x)) l ->
  StaticBatchingSpyreModelRunner._update_position_ids (f <$> l)
  = inr ((fun x => [h x + 1]) <$> l).
Proof.
  unfold StaticBatchingSpyreModelRunner._update_position_ids.
  induction 1 as [|x l Hx _ IH]; [done|]. rewrite !fmap_cons. simpl.
  by rewrite Hx, IH.
Qed.

Lemma _update_mask_fmap {A} (f : A -> list (list bool)) (h : A -> list bool)
    (l : list A) :
  l <> [] ->
  Forall (fun x => last (f x) = Some (h x)) l ->
  StaticBatchingSpyreModelRunner._update_mask (Some (f <$> l))
  = inr ((fun x => [h x ++ [true]]) <$> l).
Proof.
  intros Hne Hall. unfold StaticBatchingSpyreModelRunner._update_mask.
  destruct (f <$> l) as [|m0 ms] eqn:E; [by apply fmap_nil_inv in E|].
  rewrite <- E. clear E m0 ms Hne.
  induction Hall as [|x l Hx _ IH]; [done|]. rewrite !fmap_cons. simpl.
  by rewrite Hx, IH.
Qed.

Lemma causal_last_row (np P : nat) (pad : Z) :
  (0 < P)%nat ->
  last (tril (outer_eq ((fun x => negb (x =? 0))
                          <$> (((fun _ => 0) <$> replicate np pad) ++ replicate P 1))))
  = Some (replicate np false ++ replicate P true).
Proof.
  intros HP. set (flags := (fun x => negb (x =? 0)) <$> _).
  assert (length flags = (np + P)%nat) as Hlen.
  { subst flags. by rewrite length_fmap, length_app, length_fmap, !length_replicate. }
  assert (forall i, (i < np + P)%nat -> flags !! i = Some (bool_decide (np <= i)%nat)) as Hfl.
  { intros i Hi. by apply lookup_pad_flags. }
  rewrite last_lookup, length_causal, Hlen. unfold tril, outer_eq.
  rewrite list_lookup_imap, list_lookup_fmap, Hfl by lia. simpl. f_equal.
  apply list_eq. intros j.
  rewrite list_lookup_imap, list_lookup_fmap.
  destruct (decide (j < np + P)%nat) as [Hj|Hj].
  - rewrite Hfl by done. simpl.
    rewrite (bool_decide_eq_true_2 (np <= Init.Nat.pred (np + P))%nat) by lia.
    rewrite (bool_decide_eq_true_2 (j <= Init.Nat.pred (np + P))%nat) by lia.
    rewrite andb_true_r. destruct (decide (j < np)%nat) as [Hnp|Hnp].
    + rewrite lookup_app_l by (rewrite length_replicate; lia).
      rewrite lookup_replicate_2 by done. f_equal.
      rewrite (bool_decide_eq_false_2 (np <= j)%nat) by lia. done.
    + rewrite lookup_app_r by (rewrite length_replicate; lia).
      rewrite lookup_replicate_2 by (rewrite length_replicate; lia). f_equal.
      rewrite (bool_decide_eq_true_2 (np <= j)%nat) by lia. done.
  - rewrite (lookup_ge_None_2 flags) by lia. simpl. symmetry.
    apply lookup_ge_None_2. rewrite length_app, !length_replicate. lia.
Qed.

Lemma static_decode_updates_snoc k : forall st,
  static_decode_updates (S k) st
  = match static_decode_updates k st with
    | inl e => inl e
    | inr st' => static_decode_update st'
    end.
Proof.
  induction k as [|k IH]; intros st.
  - simpl. by destruct (static_decode_update st).
  - change (static_decode_updates (S (S k)) st)
      with (match static_decode_update st with
            | inl e => inl e
            | inr st' => static_decode_updates (S k) st'
            end).
    destruct (static_decode_update st) as [e|st'] eqn:E.
    + simpl. by rewrite E.
    + rewrite IH. simpl. by rewrite E.
Qed.

(** X16. After a static-batching prefill of non-empty sequences, [k + 1]
    decode steps leave one position id per sequence, its length plus [k],
    and one mask row per sequence that blocks exactly the left pads: the
    decoded token attends every prompt token and every generated token and
    never a pad. *)
Theorem static_decode_attends_tokens cfg ids_list m toks pos masks k :
  SpyreModelRunner.pad_input_ids cfg ids_list m = inr (toks, pos, masks) ->
  Forall (fun ids => ids <> []) ids_list ->
  static_decode_updates (S k) (pos, Some masks)
  = inr ((fun ids => [len ids + Z.of_nat k]) <$> ids_list,
         Some ((fun ids =>
                  [replicate (Z.to_nat (foldl Z.max m (len <$> ids_list) - len ids)) false
                   ++ replicate (length ids + S k) true]) <$> ids_list)).
Proof.
  intros H Hne.
  unfold SpyreModelRunner.pad_input_ids, SpyreModelRunner._prepare_pad_input_ids in H.
  set (L := foldl Z.max m (len <$> ids_list)) in *.
  destruct (foldl_max_ge (len <$> ids_list) m) as [_ Hall]. fold L in Hall.
  set (per := fun input_ids_i : list Z => _) in H.
  destruct ((fun r => r.1.1) <$> (per <$> ids_list)) as [|t0 l0] eqn:E; [done|].
  assert (ids_list <> []) as Hnil by (by intros ->).
  injection H as _ <- <-. clear E t0 l0.
  rewrite <- !list_fmap_compose.
  induction k as [|k IH].
  - cbn [static_decode_updates]. unfold static_decode_update. cbn [fst snd].
    rewrite (_update_position_ids_fmap _ (fun ids => len ids - 1)).
    2:{ apply Forall_forall. intros ids Hin. simpl.
        rewrite Forall_forall in Hne. specialize (Hne ids Hin).
        unfold range. rewrite last_app.
        destruct (last (seqZ 0 (len ids))) eqn:El.
        - rewrite last_lookup in El. rewrite length_seqZ in El.
          apply lookup_seqZ in El as [-> _]. f_equal. unfold len in *.
          destruct ids; [done|]. simpl. lia.
        - apply last_None in El. apply (f_equal length) in El.
          rewrite length_seqZ in El. destruct ids; [done|]. unfold len in El.
          simpl in El. lia. }
    rewrite (_update_mask_fmap _
               (fun ids => replicate (Z.to_nat (L - len ids)) false
                           ++ replicate (length ids) true)); [|done|].
    2:{ apply Forall_forall. intros ids Hin. simpl.
        rewrite Forall_forall in Hne. specialize (Hne ids Hin).
        replace (Z.to_nat (len ids)) with (length ids) by (unfold len; lia).
        apply causal_last_row. destruct ids; [done | simpl; lia]. }
    f_equal. f_equal.
    + apply list_fmap_ext. intros i ids _. simpl. f_equal. lia.
    + f_equal. apply list_fmap_ext. intros i ids _. simpl.
      rewrite <- app_assoc. f_equal. f_equal.
      by rewrite Nat.add_1_r, replicate_S_end.
  - rewrite static_decode_updates_snoc, IH.
    unfold static_decode_update. cbn [fst snd].
    rewrite (_update_position_ids_fmap _ (fun ids => len ids + Z.of_nat k))
      by (by apply Forall_forall).
    rewrite (_update_mask_fmap _
               (fun ids => replicate (Z.to_nat (L - len ids)) false
                           ++ replicate (length ids + S k) true));
      [|done|by apply Forall_forall].
    f_equal. f_equal.
    + apply list_fmap_ext. intros i ids _. simpl. f_equal. lia.
    + f_equal. apply list_fmap_ext. intros i ids _. simpl.
      rewrite <- app_assoc. f_equal. f_equal.
      replace (length ids + S (S k))%nat with (S (length ids + S k)) by lia.
      by rewrite replicate_S_end.
Qed.

Lemma static_decode_attends_tokens_witness :
  static_decode_updates 2
    ([[0; 0; 1]; [0; 0; 0]],
     Some [[[true; false; false]; [false; true; false]; [false; true; true]];
           [[true; false; false]; [true; true; false]; [false; false; true]]])
  = inr ([[3]; [2]],
         Some [[[false; true; true; true; true]];
               [[false; false; true; true; true]]]).
Proof.
  apply (static_decode_attends_tokens Scenario.cfg [[7; 8]; [9]] 3
           [[0; 7; 8]; [0; 0; 9]] _ _ 1).
  - reflexivity.
  - repeat constructor; done.
Defined.

(** ** Static batching: the shape of a prefill *)

Lemma foldl_max_le (xs : list Z) p :
  Forall (fun x => x <= p) xs -> foldl Z.max p xs = p.
Proof.
  induction 1 as [|x xs Hx _ IH]; [done|]. simpl. by rewrite Z.max_l.
Qed.

Lemma _get_padded_batch_size_Ok shapes new_requests b p :
  StaticBatchingSpyreModelRunner._get_padded_batch_size shapes new_requests = Ok (b, p) ->
  len new_requests <= b
  /\ Forall (fun r => len (NewRequestData.prompt_token_ids r) <= p) new_requests.
Proof.
  unfold StaticBatchingSpyreModelRunner._get_padded_batch_size.
  rewrite (foldl_filter
             (fun r shape =>
                len (NewRequestData.prompt_token_ids r)
                <= StaticBatchingSpyreModelRunner.prompt_length shape
                /\ match NewRequestData.sampling_params r with
                   | Some sp => SamplingParams.max_tokens sp
                   | None => 0
                   end <= StaticBatchingSpyreModelRunner.new_tokens shape)).
  rewrite filter_filter_and.
  match goal with
  | |- context [filter ?P shapes] => pose proof (filter_first P shapes) as H
  end.
  destruct (filter _ shapes) as [|shape rest]; [done|].
  destruct H as (pre & post & _ & [Hb Hall] & _). intros [= <- <-].
  split; [done|]. eapply Forall_impl; [exact Hall|]. by intros r [? _].
Qed.

Lemma static_pad_rows cfg (l : list (list Z)) p :
  l <> [] -> 0 <= p -> Forall (fun ids => len ids <= p) l ->
  exists toks pos masks,
    SpyreModelRunner.pad_input_ids cfg l p = inr (toks, pos, masks)
    /\ length toks = length l /\ length pos = length l
    /\ length masks = length l
    /\ Forall (fun row => len row = p) toks
    /\ Forall (fun row => len row = p) pos
    /\ Forall (fun mask => len mask = p /\ Forall (fun row => len row = p) mask)
         masks
    /\ forall i ids, l !! i = Some ids ->
         toks !! i
         = Some (replicate (Z.to_nat (p - len ids)) (pad_token_id cfg) ++ ids).
Proof.
  intros Hlne Hp0 Hl.
  unfold SpyreModelRunner.pad_input_ids, SpyreModelRunner._prepare_pad_input_ids.
  rewrite foldl_max_le by (by apply Forall_fmap).
  set (per := fun input_ids_i : list Z => _).
  destruct ((fun r => r.1.1) <$> (per <$> l)) as [|t0 l0] eqn:E.
  { by apply fmap_nil_inv, fmap_nil_inv in E. }
  rewrite <- E. clear E t0 l0.
  eexists _, _, _. split; [done|].
  split_and!.
  - by rewrite !length_fmap.
  - by rewrite !length_fmap.
  - by rewrite !length_fmap.
  - rewrite <- list_fmap_compose. apply Forall_fmap.
    eapply Forall_impl; [exact Hl|]. intros ids Hids. cbv beta in Hids. simpl.
    rewrite len_app. unfold len at 1. rewrite length_replicate. lia.
  - rewrite <- list_fmap_compose. apply Forall_fmap.
    eapply Forall_impl; [exact Hl|]. intros ids Hids. cbv beta in Hids. simpl.
    rewrite len_app, len_range by apply len_nonneg.
    unfold len at 1. rewrite length_replicate. lia.
  - rewrite <- !list_fmap_compose. apply Forall_fmap.
    eapply Forall_impl; [exact Hl|]. intros ids Hids. cbv beta in Hids. simpl.
    split.
    + unfold len at 1. rewrite length_causal, length_fmap, length_app, length_fmap,
        !length_replicate. unfold len in *. lia.
    + apply Forall_forall. intros row [i Hrow]%list_elem_of_lookup_1.
      apply causal_row_length in Hrow. unfold len at 1.
      rewrite Hrow, length_fmap, length_app, length_fmap, !length_replicate.
      unfold len in *. lia.
  - intros i ids Hi. rewrite <- list_fmap_compose, list_lookup_fmap.
    by rewrite Hi.
Qed.

Lemma add_new_requests_Ok cfg : forall new_requests l reqs ib l' reqs' ib',
  StaticBatchingSpyreModelRunner.add_new_requests cfg new_requests l reqs ib
  = Ok (l', reqs', ib') ->
  l' = l ++ (NewRequestData.prompt_token_ids <$> new_requests)
  /\ ib' = ib ++ (NewRequestData.req_id <$> new_requests)
  /\ Forall (fun r => NewRequestData.sampling_params r <> None) new_requests
  /\ (new_requests <> [] -> len ib' <= max_num_seqs cfg)
  /\ (forall rid, rid ∈ keys reqs
                  \/ rid ∈ NewRequestData.req_id <$> new_requests ->
                  rid ∈ keys reqs')
  /\ (forall rid st, dget rid reqs' = Some st ->
        dget rid reqs = Some st
        \/ (rid ∈ NewRequestData.req_id <$> new_requests
            /\ CachedRequestState.output_token_ids st = []
            /\ CachedRequestState.left_padding st = 0)).
Proof.
  induction new_requests as [|r rest IH]; intros l reqs ib l' reqs' ib' H.
  - injection H as <- <- <-. rewrite !app_nil_r.
    split_and!; try done.
    + by intros rid [Hin|Hin%elem_of_nil].
    + intros rid st Hst. by left.
  - simpl in H. destruct (NewRequestData.sampling_params r) as [sp|] eqn:Esp; [|done].
    unfold InputBatch.add_request in H.
    destruct (len ib <? max_num_seqs cfg) eqn:Ecap; [|done]. simpl in H.
    apply Z.ltb_lt in Ecap.
    apply IH in H as (-> & -> & Hall & Hcap & Hkeys & Hst).
    split_and!.
    + by rewrite <- app_assoc.
    + by rewrite <- app_assoc.
    + apply Forall_cons. split; [by rewrite Esp | done].
    + intros _. destruct rest as [|r2 rest].
      * rewrite app_nil_r, len_app. change (len [NewRequestData.req_id r]) with 1. lia.
      * by apply Hcap.
    + intros rid [Hin|[->|Hin]%elem_of_cons]; apply Hkeys.
      * left. by apply keys_dset_mono.
      * left. eapply dget_Some_keys, dget_dset_eq.
      * by right.
    + intros rid st Hrid. destruct (Hst rid st Hrid) as [Hold|(Hin & Ho & Hl)].
      * destruct (decide (NewRequestData.req_id r = rid)) as [<-|Hne].
        -- rewrite dget_dset_eq in Hold. injection Hold as <-.
           right. split_and!; [left | done | done].
        -- rewrite dget_dset_ne in Hold by done. by left.
      * right. split_and!; [by right | done | done].
Qed.

Lemma add_new_requests_total cfg : forall new_requests l reqs ib,
  Forall (fun r => NewRequestData.sampling_params r <> None) new_requests ->
  len ib + len new_requests <= max_num_seqs cfg ->
  exists out,
    StaticBatchingSpyreModelRunner.add_new_requests cfg new_requests l reqs ib
    = Ok out.
Proof.
  induction new_requests as [|r rest IH]; intros l reqs ib Hall Hcap;
    [by eexists|].
  apply Forall_cons in Hall as [Hr Hall]. simpl.
  destruct (NewRequestData.sampling_params r) as [sp|]; [|done].
  unfold InputBatch.add_request.
  change (len (r :: rest)) with (Z.of_nat (S (length rest))) in Hcap.
  pose proof (len_nonneg rest). unfold len in *.
  destruct (Z.ltb_spec (Z.of_nat (length ib)) (max_num_seqs cfg)); [|lia]. simpl.
  apply IH; [done|]. rewrite length_app. simpl. lia.
Qed.

Lemma add_new_requests_no_params cfg : forall pre r post l reqs ib,
  Forall (fun r => NewRequestData.sampling_params r <> None) pre ->
  NewRequestData.sampling_params r = None ->
  len ib + len pre <= max_num_seqs cfg ->
  StaticBatchingSpyreModelRunner.add_new_requests cfg (pre ++ r :: post) l reqs ib
  = Raise (AttributeError "sampling_type").
Proof.
  induction pre as [|r0 pre IH]; intros r post l reqs ib Hall Hr Hcap.
  - simpl. by rewrite Hr.
  - apply Forall_cons in Hall as [Hr0 Hall]. simpl.
    destruct (NewRequestData.sampling_params r0) as [sp|]; [|done].
    unfold InputBatch.add_request.
    change (len (r0 :: pre)) with (Z.of_nat (S (length pre))) in Hcap.
    unfold len in *.
    destruct (Z.ltb_spec (Z.of_nat (length ib)) (max_num_seqs cfg)); [|lia]. simpl.
    apply IH; [done | done |]. rewrite length_app. simpl. lia.
Qed.

Lemma static_prepare_prompt_tail cfg shapes new_requests s b p reqs ib :
  new_requests <> [] ->
  StaticBatchingSpyreModelRunner._get_padded_batch_size shapes new_requests
  = Ok (b, p) ->
  StaticBatchingSpyreModelRunner.add_new_requests cfg new_requests [] []
    (InputBatch.clear_requests (StaticBatchingSpyreModelRunner.input_batch s))
  = Ok (NewRequestData.prompt_token_ids <$> new_requests, reqs, ib) ->
  exists toks pos masks,
    StaticBatchingSpyreModelRunner._prepare_prompt cfg shapes new_requests s
    = inr (StaticBatchingSpyreModelRunner.mkStatic reqs ib (Some b) (Some pos)
             (Some masks),
           StaticBatchingSpyreModelRunner.mkModelInputs toks pos masks true)
    /\ len new_requests <= b
    /\ len toks = b /\ len pos = b /\ len masks = b
    /\ Forall (fun row => len row = p) toks
    /\ Forall (fun row => len row = p) pos
    /\ Forall (fun mask => len mask = p /\ Forall (fun row => len row = p) mask)
         masks
    /\ (forall i r, new_requests !! i = Some r ->
          toks !! i
          = Some (replicate (Z.to_nat (p - len (NewRequestData.prompt_token_ids r)))
                    (pad_token_id cfg)
                  ++ NewRequestData.prompt_token_ids r))
    /\ (forall i, (length new_requests <= i < Z.to_nat b)%nat ->
          toks !! i = Some (replicate (Z.to_nat p) 0)).
Proof.
  intros Hne Hshape Hloop.
  destruct (_get_padded_batch_size_Ok _ _ _ _ Hshape) as [Hb Hp].
  assert (0 <= p) as Hp0.
  { destruct new_requests as [|r rest]; [done|]. apply Forall_cons in Hp as [Hr _].
    pose proof (len_nonneg (NewRequestData.prompt_token_ids r)). lia. }
  unfold StaticBatchingSpyreModelRunner._prepare_prompt.
  destruct (Z.ltb_spec 0 (len new_requests)) as [_|Hlen];
    [|destruct new_requests; [done | unfold len in Hlen; simpl in Hlen; lia]].
  cbn [py_assert]. rewrite Hshape, Hloop.
  destruct (Z.ltb_spec p 0) as [?|_]; [lia|]. rewrite andb_false_r.
  set (l := (NewRequestData.prompt_token_ids <$> new_requests) ++ _).
  assert (Forall (fun ids => len ids <= p) l) as Hl.
  { subst l. apply Forall_app. split.
    - apply Forall_fmap. by eapply Forall_impl; [exact Hp|].
    - apply Forall_replicate. unfold len. rewrite length_replicate. lia. }
  assert (length l = Z.to_nat b) as Hlen.
  { subst l. rewrite length_app, length_replicate, length_fmap.
    unfold len in *. rewrite length_fmap. lia. }
  assert (l <> []) as Hlne.
  { subst l. destruct new_requests; [done|]. by rewrite fmap_cons. }
  destruct (static_pad_rows cfg l p Hlne Hp0 Hl)
    as (toks & pos & masks & -> & Ht & Hpo & Hm & Htr & Hpr & Hmr & Hrows).
  assert (0 <= b) as Hb0 by (pose proof (len_nonneg new_requests); lia).
  exists toks, pos, masks. split; [done|].
  split_and!; try done; try (unfold len; lia).
  - intros i r Hi. apply Hrows. subst l.
    rewrite lookup_app_l by (rewrite length_fmap; by eapply lookup_lt_Some).
    by rewrite list_lookup_fmap, Hi.
  - intros i [Hlo Hhi].
    rewrite (Hrows i (replicate (Z.to_nat p) 0)).
    + unfold len. rewrite length_replicate.
      by replace (Z.to_nat (p - Z.of_nat (Z.to_nat p))) with O by lia.
    + subst l. rewrite lookup_app_r by (by rewrite length_fmap).
      apply lookup_replicate_2. rewrite length_fmap. unfold len.
      rewrite length_fmap. lia.
Qed.

(** X17. [StaticBatchingSpyreModelRunner._prepare_prompt] returns exactly
    when there is a request, a warmup shape fits the requests, every request
    has sampling parameters and the requests fit the slot table. It then
    returns a batch of the first fitting warmup shape: [padded_batch_size]
    rows of [min_pad_length_batch] tokens, positions and mask rows, whose
    first rows are the prompts behind their left pads and whose remaining
    rows are the dummy rows of zeros. The runner keeps the positions and
    the masks, its slot table lists the new requests in order, and its
    cached requests are the new ones, each without output tokens and left
    padding. When the first request without sampling parameters is reached
    the call raises [AttributeError]. *)
Theorem static_prefill_has_warmup_shape cfg shapes new_requests s :
  ((exists s' mi,
       StaticBatchingSpyreModelRunner._prepare_prompt cfg shapes new_requests s
       = inr (s', mi))
   <-> new_requests <> []
       /\ (exists b p,
             StaticBatchingSpyreModelRunner._get_padded_batch_size shapes
               new_requests = Ok (b, p))
       /\ Forall (fun r => NewRequestData.sampling_params r <> None) new_requests
       /\ len new_requests <= max_num_seqs cfg)
  /\ (forall s' mi,
        StaticBatchingSpyreModelRunner._prepare_prompt cfg shapes new_requests s
        = inr (s', mi) ->
        exists b p,
          StaticBatchingSpyreModelRunner._get_padded_batch_size shapes
            new_requests = Ok (b, p)
          /\ len new_requests <= b
          /\ len (StaticBatchingSpyreModelRunner.input_tokens mi) = b
          /\ len (StaticBatchingSpyreModelRunner.input_positions mi) = b
          /\ len (StaticBatchingSpyreModelRunner.input_masks mi) = b
          /\ Forall (fun row => len row = p)
               (StaticBatchingSpyreModelRunner.input_tokens mi)
          /\ Forall (fun row => len row = p)
               (StaticBatchingSpyreModelRunner.input_positions mi)
          /\ Forall (fun mask => len mask = p
                                 /\ Forall (fun row => len row = p) mask)
               (StaticBatchingSpyreModelRunner.input_masks mi)
          /\ (forall i r, new_requests !! i = Some r ->
                StaticBatchingSpyreModelRunner.input_tokens mi !! i
                = Some (replicate
                          (Z.to_nat (p - len (NewRequestData.prompt_token_ids r)))
                          (pad_token_id cfg)
                        ++ NewRequestData.prompt_token_ids r))
          /\ (forall i, (length new_requests <= i < Z.to_nat b)%nat ->
                StaticBatchingSpyreModelRunner.input_tokens mi !! i
                = Some (replicate (Z.to_nat p) 0))
          /\ StaticBatchingSpyreModelRunner.is_prompt mi = true
          /\ StaticBatchingSpyreModelRunner.input_batch s'
             = NewRequestData.req_id <$> new_requests
          /\ StaticBatchingSpyreModelRunner.padded_batch_size s' = Some b
          /\ StaticBatchingSpyreModelRunner._position_ids s'
             = Some (StaticBatchingSpyreModelRunner.input_positions mi)
          /\ StaticBatchingSpyreModelRunner._mask s'
             = Some (StaticBatchingSpyreModelRunner.input_masks mi)
          /\ (forall rid,
                rid ∈ keys (StaticBatchingSpyreModelRunner.requests s')
                <-> rid ∈ NewRequestData.req_id <$> new_requests)
          /\ (forall rid st,
                dget rid (StaticBatchingSpyreModelRunner.requests s') = Some st ->
                CachedRequestState.output_token_ids st = []
                /\ CachedRequestState.left_padding st = 0))
  /\ (forall pre r post b p,
        new_requests = pre ++ r :: post ->
        StaticBatchingSpyreModelRunner._get_padded_batch_size shapes new_requests
        = Ok (b, p) ->
        Forall (fun r => NewRequestData.sampling_params r <> None) pre ->
        NewRequestData.sampling_params r = None ->
        len pre <= max_num_seqs cfg ->
        StaticBatchingSpyreModelRunner._prepare_prompt cfg shapes new_requests s
        = inl (StaticBatchingSpyreModelRunner.PyError
                 (AttributeError "sampling_type"))).
Proof.
  assert (forall s' mi,
    StaticBatchingSpyreModelRunner._prepare_prompt cfg shapes new_requests s
    = inr (s', mi) ->
    new_requests <> []
    /\ exists b p reqs ib,
         StaticBatchingSpyreModelRunner._get_padded_batch_size shapes new_requests
         = Ok (b, p)
         /\ StaticBatchingSpyreModelRunner.add_new_requests cfg new_requests [] []
              (InputBatch.clear_requests
                 (StaticBatchingSpyreModelRunner.input_batch s))
            = Ok (NewRequestData.prompt_token_ids <$> new_requests, reqs, ib))
    as Hinv.
  { intros s' mi H. unfold StaticBatchingSpyreModelRunner._prepare_prompt in H.
    destruct (Z.ltb_spec 0 (len new_requests)) as [Hlen|_]; [|done].
    cbn [py_assert] in H.
    split; [by intros ->|].
    destruct (StaticBatchingSpyreModelRunner._get_padded_batch_size _ _)
      as [[b p]|] eqn:Hshape; [|done].
    destruct (StaticBatchingSpyreModelRunner.add_new_requests _ _ _ _ _)
      as [[[l reqs] ib]|] eqn:Hloop; [|done].
    pose proof Hloop as (-> & _)%add_new_requests_Ok.
    by exists b, p, reqs, ib. }
  split_and!.
  - split.
    + intros (s' & mi & H).
      destruct (Hinv _ _ H) as (Hne & b & p & reqs & ib & Hshape & Hloop).
      apply add_new_requests_Ok in Hloop as (_ & -> & Hall & Hcap & _).
      split_and!; [done | by exists b, p | done |].
      specialize (Hcap Hne). unfold InputBatch.clear_requests in Hcap.
      rewrite app_nil_l in Hcap. unfold len in *. by rewrite length_fmap in Hcap.
    + intros (Hne & (b & p & Hshape) & Hall & Hcap).
      destruct (add_new_requests_total cfg new_requests [] []
                  (InputBatch.clear_requests
                     (StaticBatchingSpyreModelRunner.input_batch s)) Hall)
        as [[[l reqs] ib] Hloop]; [done|].
      pose proof Hloop as (-> & _)%add_new_requests_Ok.
      destruct (static_prepare_prompt_tail cfg shapes new_requests s b p reqs ib
                  Hne Hshape Hloop) as (toks & pos & masks & -> & _).
      by eexists _, _.
  - intros s' mi H.
    destruct (Hinv _ _ H) as (Hne & b & p & reqs & ib & Hshape & Hloop).
    destruct (static_prepare_prompt_tail cfg shapes new_requests s b p reqs ib
                Hne Hshape Hloop)
      as (toks & pos & masks & Heq & Hb & Ht & Hpo & Hm & Htr & Hpr & Hmr
          & Hrows & Hdummy).
    rewrite Heq in H. injection H as <- <-.
    apply add_new_requests_Ok in Hloop as (_ & -> & _ & _ & Hkeys & Hst).
    exists b, p. cbn.
    split_and!; try done.
    + intros rid. split.
      * intros Hin. destruct (keys_dget _ _ Hin) as [st Hs].
        by destruct (Hst _ _ Hs) as [?|[? _]].
      * intros Hin. apply Hkeys. by right.
    + intros rid st Hs. by destruct (Hst _ _ Hs) as [?|[_ ?]].
  - intros pre r post b p -> Hshape Hpre Hr Hcap.
    unfold StaticBatchingSpyreModelRunner._prepare_prompt.
    destruct (Z.ltb_spec 0 (len (pre ++ r :: post))) as [_|Hlen].
    2:{ rewrite len_app in Hlen. pose proof (len_nonneg pre).
        change (len (r :: post)) with (Z.of_nat (S (length post))) in Hlen. lia. }
    cbn [py_assert]. rewrite Hshape.
    by rewrite add_new_requests_no_params.
Qed.

Lemma static_prefill_has_warmup_shape_witness :
  exists s' mi,
    StaticBatchingSpyreModelRunner._prepare_prompt Scenario.cfg
      [StaticBatchingSpyreModelRunner.mkWarmupShape 1 64 20;
       StaticBatchingSpyreModelRunner.mkWarmupShape 4 64 20;
       StaticBatchingSpyreModelRunner.mkWarmupShape 4 128 20;
       StaticBatchingSpyreModelRunner.mkWarmupShape 8 256 20]
      [Scenario.req_a; Scenario.req_b]
      (StaticBatchingSpyreModelRunner.mkStatic [] [] None None None)
    = inr (s', mi)
    /\ len (StaticBatchingSpyreModelRunner.input_tokens mi) = 4
    /\ StaticBatchingSpyreModelRunner.input_tokens mi !! 3%nat
       = Some (replicate 128 0).
Proof.
  destruct (static_prefill_has_warmup_shape Scenario.cfg
              [StaticBatchingSpyreModelRunner.mkWarmupShape 1 64 20;
               StaticBatchingSpyreModelRunner.mkWarmupShape 4 64 20;
               StaticBatchingSpyreModelRunner.mkWarmupShape 4 128 20;
               StaticBatchingSpyreModelRunner.mkWarmupShape 8 256 20]
              [Scenario.req_a; Scenario.req_b]
              (StaticBatchingSpyreModelRunner.mkStatic [] [] None None None))
    as ([_ Hret] & Hlayout & _).
  destruct Hret as (s' & mi & H).
  { split_and!; [done | by exists 4, 128 | by repeat constructor | by vm_compute]. }
  exists s', mi. split; [done|].
  destruct (Hlayout s' mi H) as (b & p & Hshape & _ & Ht & _ & _ & _ & _ & _ & _
                                 & Hdummy & _).
  injection Hshape as <- <-. split; [done|].
  apply Hdummy. simpl. lia.
Defined.

(** ** The slots written by a decode step *)

Lemma ceil_div_succ m d : 0 < d -> ceil_div (m + 1) d = m / d + 1.
Proof.
  intros Hd. destruct (decide (m `mod` d = 0)) as [Hm|Hm].
  - destruct (ceil_div_succ_aligned m d Hd Hm) as [-> ->]. done.
  - destruct (ceil_div_succ_inside m d Hd Hm) as [-> ->]. lia.
Qed.

(** X18. In a decode step from a reachable state every resident request
    writes the slot of position [tkv] under the same map as its prefill,
    block [tkv // block_size] of its own table at offset
    [tkv % block_size], and no two resident requests write the same
    slot. *)
Theorem decode_slots_distinct cfg crd s s' mi :
  reachable cfg s ->
  _prepare_decode cfg crd s = Ok (s', mi) ->
  (forall i rid, input_batch s !! i = Some rid ->
     exists blocks' b,
       dget rid (req_ids2blocks s') = Some blocks'
       /\ blocks' !! Z.to_nat (tkv s / block_size cfg) = Some b
       /\ ModelForwardInputs.slot_mapping mi !! i
          = Some [b * block_size cfg + tkv s `mod` block_size cfg])
  /\ (forall i j x y,
        (i < length (input_batch s))%nat -> (j < length (input_batch s))%nat ->
        i <> j ->
        ModelForwardInputs.slot_mapping mi !! i = Some [x] ->
        ModelForwardInputs.slot_mapping mi !! j = Some [y] ->
        x <> y).
Proof.
  intros Hreach H. pose proof (reachable_inv cfg s Hreach) as Hinv.
  pose proof (block_size_positive cfg) as Hbs.
  pose proof (reach_prepare_decode cfg crd s s' mi Hreach H) as Hreach'.
  pose proof (reachable_inv cfg s' Hreach') as Hinv'.
  apply _prepare_decode_Ok in H
    as (s1 & rows & Hloop & _ & _ & _ & _ & _ & HD & _ & _ & _ & Hmi).
  pose proof (decode_reqs_tables_len cfg crd s _ s1 rows Hinv
                (tables_len_reachable cfg s Hreach) Hloop) as Hlen.
  apply decode_reqs_spec in Hloop
    as (allocated & tabs & slots & _ & _ & _ & Hslots & _ & Hidx).
  2:{ rewrite (inv_input_batch cfg s Hinv). apply Hinv. }
  simpl in Hslots.
  assert (forall i rid, input_batch s !! i = Some rid ->
            exists blocks' b,
              dget rid (req_ids2blocks s') = Some blocks'
              /\ blocks' !! Z.to_nat (tkv s / block_size cfg) = Some b
              /\ b ∈ blocks'
              /\ slots !! i = Some [b * block_size cfg + tkv s `mod` block_size cfg])
    as Hrow.
  { intros i rid Hi.
    destruct (Hidx i rid Hi) as (blocks & blocks' & lastb & Hb & Hb' & _ & Hlast & _ & Hs).
    exists blocks', lastb. rewrite HD. split_and!; try done.
    - rewrite last_lookup in Hlast. rewrite <- Hlast. f_equal.
      pose proof (Hlen rid blocks' (dget_elem_of _ _ _ Hb')) as Hl.
      rewrite ceil_div_succ in Hl by done.
      assert (0 < tkv s) as Ht.
      { apply (inv_tkv_positive cfg s Hinv). intros E. by rewrite E in Hb. }
      assert (0 <= tkv s / block_size cfg) by (apply Z.div_pos; lia).
      unfold len in Hl. lia.
    - rewrite last_lookup in Hlast. by eapply list_elem_of_lookup_2. }
  assert (forall i, (i < length (input_batch s))%nat ->
            ModelForwardInputs.slot_mapping mi !! i = slots !! i) as Hsm.
  { intros i Hi. destruct (lookup_lt_is_Some_2 _ _ Hi) as [rid Hrid].
    destruct (Hrow i rid Hrid) as (? & ? & _ & _ & _ & Hsi).
    destruct (bool_decide _); destruct Hmi as [_ ->]; simpl; rewrite Hslots; [|done].
    rewrite Hsi. by apply lookup_app_l_Some. }
  split.
  - intros i rid Hi. destruct (Hrow i rid Hi) as (blocks' & b & ? & ? & _ & Hsi).
    exists blocks', b. split_and!; try done.
    rewrite Hsm; [done|]. by eapply lookup_lt_Some.
  - intros i j x y Hi Hj Hne Hx Hy Heq. subst y.
    rewrite Hsm in Hx, Hy by done.
    destruct (lookup_lt_is_Some_2 _ _ Hi) as [ri Hri].
    destruct (lookup_lt_is_Some_2 _ _ Hj) as [rj Hrj].
    destruct (Hrow i ri Hri) as (bi & xi & Hbi & _ & Hini & Hsi).
    destruct (Hrow j rj Hrj) as (bj & xj & Hbj & _ & Hinj & Hsj).
    rewrite Hsi in Hx. rewrite Hsj in Hy. injection Hx as Hx. injection Hy as Hy.
    assert (xi = xj) as -> by nia.
    assert (ri <> rj) as Hrne.
    { intros ->. apply Hne. eapply NoDup_lookup; [|exact Hri|exact Hrj].
      rewrite (inv_input_batch cfg s Hinv). apply Hinv. }
    apply (tables_disjoint (req_ids2blocks s') ri rj bi bj xj); try done.
    assert (NoDup (all_blocks s')) as Hnd.
    { rewrite (inv_blocks cfg s' Hinv'). apply NoDup_seqZ. }
    unfold all_blocks in Hnd. by apply NoDup_app in Hnd as (_ & _ & ?).
Qed.

Lemma decode_slots_distinct_witness :
  exists blocks' b,
    dget "a" (req_ids2blocks Scenario.s3) = Some blocks'
    /\ blocks' !! Z.to_nat (tkv Scenario.s2 / block_size Scenario.cfg) = Some b
    /\ ModelForwardInputs.slot_mapping
         (Scenario.mi_of (_prepare_decode Scenario.cfg Scenario.decode_a Scenario.s2))
       !! 0%nat
       = Some [b * block_size Scenario.cfg
               + tkv Scenario.s2 `mod` block_size Scenario.cfg].
Proof.
  assert (_prepare_decode Scenario.cfg Scenario.decode_a Scenario.s2
          = Ok (Scenario.s3,
                Scenario.mi_of (_prepare_decode Scenario.cfg Scenario.decode_a Scenario.s2)))
    as H by (by vm_compute).
  apply (proj1 (decode_slots_distinct _ _ _ _ _ scenario_s2_reachable H) 0%nat "a").
  reflexivity.
Defined.

(** ** Catching up with the scheduler *)

Lemma py_suffix_one (l : list Z) x : last l = Some x -> py_suffix 1 l = [x].
Proof.
  destruct l as [|y l'] using rev_ind; [done|]. rewrite last_snoc. intros [= ->].
  unfold py_suffix. rewrite length_app. simpl.
  replace (length l' + 1 - Z.to_nat 1)%nat with (length l') by lia.
  by rewrite drop_app_length.
Qed.

Lemma len_py_suffix (l : list Z) k : 0 <= k <= len l -> len (py_suffix k l) = k.
Proof. intros Hk. unfold py_suffix, len in *. rewrite length_drop. lia. Qed.

(** X19. One iteration of the loop of [update_states] over the cached
    requests brings the cached request level with the scheduler: when the
    scheduler's count [num_computed_tokens + len(new_token_ids)] is ahead of
    the cache by [n] tokens that the step carries, exactly the last [n] new
    tokens are appended and the counts agree afterwards; when it is not
    ahead nothing changes; when it is ahead by one and the step carries no
    token, the lookup of the last new token raises [IndexError]. *)
Theorem cache_catches_up req_data i req_id s r nct new :
  dget req_id (requests s) = Some r ->
  CachedRequestData.num_computed_tokens req_data !! i = Some nct ->
  (CachedRequestData.new_token_ids req_data !! i = Some new
   \/ (CachedRequestData.new_token_ids req_data = [] /\ new = [])) ->
  (nct + len new - CachedRequestState.num_tokens r <= 0 ->
   update_cached_req req_data i req_id s = Ok s)
  /\ (0 < nct + len new - CachedRequestState.num_tokens r <= len new ->
      exists r',
        update_cached_req req_data i req_id s
        = Ok (set_requests (dset req_id r' (requests s)) s)
        /\ CachedRequestState.output_token_ids r'
           = CachedRequestState.output_token_ids r
             ++ py_suffix (nct + len new - CachedRequestState.num_tokens r) new
        /\ CachedRequestState.num_tokens r' = nct + len new
        /\ request_grows r r')
  /\ (new = [] -> nct + len new - CachedRequestState.num_tokens r = 1 ->
      update_cached_req req_data i req_id s = Raise (IndexError "index out of range")).
Proof.
  intros Hr Hnct Hnew. unfold update_cached_req, dindex, py_nth. rewrite Hr, Hnct.
  cbn [mbind result_bind].
  assert ((if 0 <? len (CachedRequestData.new_token_ids req_data)
           then match CachedRequestData.new_token_ids req_data !! i with
                | Some x => Ok x
                | None => Raise (IndexError "list index out of range")
                end
           else Ok []) = Ok new) as ->.
  { destruct Hnew as [Hnew | [-> ->]]; [|done]. rewrite Hnew.
    destruct (CachedRequestData.new_token_ids req_data) as [|x l]; [done|].
    change (len (x :: l)) with (Z.of_nat (S (length l))).
    by rewrite (proj2 (Z.ltb_lt 0 _)) by lia. }
  cbn [mbind result_bind].
  set (n := nct + len new - CachedRequestState.num_tokens r).
  split_and!.
  - intros Hn. rewrite (proj2 (Z.eqb_neq n 1)) by lia.
    rewrite (proj2 (Z.ltb_ge 0 n)) by lia. simpl.
    rewrite dset_id by done. by destruct s.
  - intros Hn. destruct (Z.eqb_spec n 1) as [E1|E1].
    + unfold py_last. destruct (last new) as [t|] eqn:El.
      2:{ apply last_None in El. subst new. change (len []) with 0 in Hn. lia. }
      simpl. eexists. split; [done|]. simpl. rewrite E1.
      split_and!.
      * by rewrite (py_suffix_one new t).
      * unfold CachedRequestState.num_tokens in *. simpl.
        rewrite len_app. change (len [t]) with 1. lia.
      * apply extend_output_grows.
    + rewrite (proj2 (Z.ltb_lt 0 n)) by lia. simpl. eexists. split; [done|].
      split_and!.
      * done.
      * unfold CachedRequestState.num_tokens in *. simpl.
        rewrite len_app, len_py_suffix by lia. lia.
      * apply extend_output_grows.
  - intros -> Hn. by rewrite Hn.
Qed.

Lemma cache_catches_up_witness :
  exists r',
    update_cached_req (CachedRequestData.mk ["a"] [70] [[42; 43; 44]]) 0 "a" Scenario.s2
    = Ok (set_requests (dset "a" r' (requests Scenario.s2)) Scenario.s2)
    /\ CachedRequestState.output_token_ids r' = [42; 43; 44].
Proof.
  destruct (cache_catches_up (CachedRequestData.mk ["a"] [70] [[42; 43; 44]]) 0 "a"
              Scenario.s2
              (CachedRequestState.mk "a" (replicate 70 7)
                 (Some (SamplingParams.mk 20 None)) None [42] 58)
              70 [42; 43; 44])
    as (_ & H & _); [reflexivity | reflexivity | by left |].
  destruct H as (r' & Hupd & Hout & _); [by vm_compute|].
  exists r'. split; [exact Hupd|]. rewrite Hout. reflexivity.
Defined.

(** ** The free-block count and the cursor across a step *)

Lemma sum_values_snoc (d : dict Z) k v : sum (values (d ++ [(k, v)])) = sum (values d) + v.
Proof. unfold values. rewrite fmap_app, sum_app. simpl. lia. Qed.

(** X20. A step of [execute_model] that runs the model from a reachable
    state, with new request ids that are not resident, reports the free
    count of the state it leaves. Against the state after [update_states],
    a decode step raises the count by the [n] reclaimed blocks per resident
    request and moves the cursor to [tkv - n * block_size + 1], whatever
    blocks it takes from the pool; a prefill lowers it further by the new
    request's reservation, [ceil((tkv + max_tokens - 1) / block_size)] for
    a numerator in the range where the floating-point ceiling of the source
    is exact. *)
Theorem step_free_count cfg model_sample so s sF out :
  reachable cfg s ->
  (forall request, request ∈ SchedulerOutput.scheduled_new_reqs so ->
     NewRequestData.req_id request ∉ keys (requests s)) ->
  (forall request sp, request ∈ SchedulerOutput.scheduled_new_reqs so ->
     NewRequestData.sampling_params request = Some sp ->
     float_exact (tkv sF + SamplingParams.max_tokens sp - 1)) ->
  SchedulerOutput.total_num_scheduled_tokens so <> 0 ->
  execute_model cfg model_sample so s = Ok (sF, out) ->
  exists s0 n,
    update_states so s = Ok s0
    /\ 0 <= n
    /\ CBSpyreModelRunnerOutput.n_free_blocks out = get_n_free_blocks sF
    /\ match SchedulerOutput.scheduled_new_reqs so with
       | [] =>
           get_n_free_blocks sF = get_n_free_blocks s0 + n * len (requests s0)
           /\ tkv sF = tkv s0 - n * block_size cfg + 1
       | request :: _ =>
           exists sp,
             NewRequestData.sampling_params request = Some sp
             /\ get_n_free_blocks sF
                = get_n_free_blocks s0 + n * len (requests s0)
                  - ceil_div (tkv sF + SamplingParams.max_tokens sp - 1)
                      (block_size cfg)
             /\ tkv sF
                = (if bool_decide (requests s0 = [])
                   then ceil_div (len (NewRequestData.prompt_token_ids request))
                          (block_size cfg) * block_size cfg
                   else tkv s0 - n * block_size cfg)
       end.
Proof.
  intros Hreach Hfresh _ Htot H. pose proof (reachable_inv cfg s Hreach) as Hinv.
  unfold execute_model, base_execute_model in H.
  apply bind_Ok in H as ([s3 output] & H & [= -> <-]).
  apply bind_Ok in H as (s0 & Hupd & H).
  pose proof (reach_update_states cfg so s s0 Hreach Hupd) as Hreach0.
  rewrite (proj2 (Z.eqb_neq _ _) Htot) in H.
  apply bind_Ok in H as ([s2 mi] & Hprep & H). simpl in H.
  apply bind_Ok in H as (s4 & Happ & H).
  assert (sF = s4) as ->.
  { by destruct (is_driver_worker cfg); simpl in H; injection H as <- _. }
  apply append_sampled_frame in Happ as (_ & HLF & _ & _ & HtF & HnF).
  unfold prepare_model_input in Hprep. apply bind_Ok in Hprep as (s1 & Hred & Hprep).
  pose proof (reach_reduce_left_padding cfg s0 s1 Hreach0 Hred) as Hreach1.
  pose proof (reachable_inv cfg s1 Hreach1) as Hinv1.
  destruct (reduce_left_padding_ledger cfg s0 s1 Hreach0 Hred)
    as (n & Hn & Ht1 & HL1 & _ & _ & Hnb1 & Hk1 & HlenL).
  assert (get_n_free_blocks s1 = get_n_free_blocks s0 + n * len (requests s0)) as Hfree1.
  { unfold get_n_free_blocks. rewrite Hnb1, HL1, sum_values_shift, HlenL. lia. }
  exists s0, n. split_and!; try done.
  unfold base_prepare_model_input in Hprep.
  destruct (SchedulerOutput.scheduled_new_reqs so) as [|request rest] eqn:Enew.
  - simpl in Hprep. apply _prepare_decode_Ok in Hprep
      as (s5 & rows & Hloop & _ & _ & Ht2 & _ & _ & _ & HL2 & _ & Hn2 & _).
    apply decode_reqs_step in Hloop as (_ & _ & _ & HL5 & _ & Ht5 & Hn5 & _).
    split.
    + rewrite <- Hfree1. unfold get_n_free_blocks. congruence.
    + lia.
  - change (len (request :: rest)) with (Z.of_nat (S (length rest))) in Hprep.
    rewrite (proj2 (Z.ltb_lt 0 _)) in Hprep by lia.
    apply bind_Ok in Hprep as (u & _ & Hprep).
    destruct rest as [|r' rest]; [|done].
    apply _prepare_prompt_Ok in Hprep
      as (sp & bp & blocks & slots & toks & pos & Esp & Hbp & Htkv & _ & _ & _ & HL2
          & _ & _ & Hn2 & _).
    assert (NewRequestData.req_id request ∉ keys (req_ids2reserved_blocks s1)) as Hf.
    { rewrite (ledger_keys_reachable cfg s1 Hreach1), <- (inv_requests_keys cfg s1 Hinv1), Hk1.
      intros Hin. apply (Hfresh request ltac:(left)).
      by apply (update_states_keys cfg so s s0). }
    rewrite dset_fresh in HL2 by done.
    assert (bool_decide (req_ids2blocks s1 = []) = bool_decide (requests s0 = [])) as Hnew.
    { apply bool_decide_ext. split; intros E.
      - apply keys_nil_inv. rewrite <- Hk1, (inv_requests_keys cfg s1 Hinv1). by rewrite E.
      - apply keys_nil_inv. rewrite <- (inv_requests_keys cfg s1 Hinv1), Hk1. by rewrite E. }
    rewrite Hnew in Htkv, Hbp.
    exists sp. split_and!; [done | |].
    + rewrite <- Hfree1. unfold get_n_free_blocks.
      rewrite HLF, HnF, HL2, Hn2, sum_values_snoc, HtF. lia.
    + rewrite HtF, Htkv. destruct (bool_decide (requests s0 = [])); [done | lia].
Qed.

Lemma step_free_count_witness :
  exists sF out n sp,
    execute_model Scenario.cfg Scenario.sampler
      (SchedulerOutput.mk [Scenario.req_d] (CachedRequestData.mk [] [] []) [] 10)
      Scenario.s3 = Ok (sF, out)
    /\ CBSpyreModelRunnerOutput.n_free_blocks out = get_n_free_blocks sF
    /\ NewRequestData.sampling_params Scenario.req_d = Some sp
    /\ get_n_free_blocks sF
       = get_n_free_blocks Scenario.s3 + n * len (requests Scenario.s3)
         - ceil_div (tkv sF + SamplingParams.max_tokens sp - 1)
             (block_size Scenario.cfg).
Proof.
  destruct (execute_model Scenario.cfg Scenario.sampler
              (SchedulerOutput.mk [Scenario.req_d] (CachedRequestData.mk [] [] []) [] 10)
              Scenario.s3)
    as [[sF out]|e] eqn:E; [|by vm_compute in E].
  assert (tkv sF = 129) as HtF.
  { pose proof E as E'. vm_compute in E'. by injection E' as <- _. }
  destruct (step_free_count Scenario.cfg Scenario.sampler
              (SchedulerOutput.mk [Scenario.req_d] (CachedRequestData.mk [] [] []) [] 10)
              Scenario.s3 sF out scenario_s3_reachable)
    as (s0 & n & Hupd & _ & Hfree & sp & Hsp & Hcount & _).
  - intros request ->%list_elem_of_singleton.
    change ("d" ∉ ["a"]). by intros [?|[]%elem_of_nil]%elem_of_cons.
  - intros request sp ->%list_elem_of_singleton [= <-]. rewrite HtF. by vm_compute.
  - done.
  - exact E.
  - vm_compute in Hupd. injection Hupd as <-.
    by exists sF, out, n, sp.
Defined.

(** ** Admitting a request and finishing it again *)

Lemma remove_request_snoc rid (b : InputBatch.t) :
  rid ∉ b -> InputBatch.remove_request rid (b ++ [rid]) = b.
Proof.
  induction b as [|x b IH]; intros Hn; simpl.
  - by rewrite decide_True.
  - apply not_elem_of_cons in Hn as [Hne Hn]. rewrite decide_False by done.
    by rewrite IH.
Qed.

Lemma dpop_snoc {V} k (v : V) (d : dict V) : k ∉ keys d -> dpop k (d ++ [(k, v)]) = d.
Proof. intros Hn. by rewrite dpop_middle, app_nil_r. Qed.

(** X21. Round trip: from a reachable state, prefilling a request with a
    non-resident id and a non-empty prompt and then reporting it finished
    restores the block tables, the ledger, the request cache and the slot
    table exactly; the blocks it took from the front of the pool come back
    at its end, and [get_n_free_blocks] is what it was. *)
Theorem admit_then_finish_round_trip cfg request so s s1 mi :
  reachable cfg s ->
  NewRequestData.req_id request ∉ keys (requests s) ->
  NewRequestData.prompt_token_ids request <> [] ->
  _prepare_prompt cfg [request] s = Ok (s1, mi) ->
  CachedRequestData.req_ids (SchedulerOutput.scheduled_cached_reqs so) = [] ->
  SchedulerOutput.finished_req_ids so = [NewRequestData.req_id request] ->
  exists s2 blocks,
    update_states so s1 = Ok s2
    /\ req_ids2blocks s2 = req_ids2blocks s
    /\ req_ids2reserved_blocks s2 = req_ids2reserved_blocks s
    /\ requests s2 = requests s
    /\ input_batch s2 = input_batch s
    /\ blocks <> []
    /\ block_pool s = blocks ++ block_pool s1
    /\ block_pool s2 = block_pool s1 ++ blocks
    /\ get_n_free_blocks s2 = get_n_free_blocks s.
Proof.
  intros Hreach Hfresh Hprompt Hpre Hcached Hfin.
  pose proof (reachable_inv cfg s Hreach) as Hinv.
  pose proof (block_size_positive cfg) as Hbs.
  set (rid := NewRequestData.req_id request) in *.
  assert (rid ∉ keys (req_ids2blocks s)) as HfD
    by (by rewrite <- (inv_requests_keys cfg s Hinv)).
  assert (rid ∉ keys (req_ids2reserved_blocks s)) as HfL
    by (by rewrite (ledger_keys_reachable cfg s Hreach)).
  assert (rid ∉ input_batch s) as HfI by (by rewrite (inv_input_batch cfg s Hinv)).
  apply _prepare_prompt_Ok in Hpre
    as (sp & bp & blocks & slots & toks & pos & _ & Hbp & _ & _ & Hfill & HD & HL & HR
        & HI & HN & _).
  fold rid in HD, HL, HR.
  rewrite dset_fresh in HD by done. rewrite dset_fresh in HL by done.
  rewrite dset_fresh in HR by done.
  assert (0 < bp) as Hbp0.
  { assert (0 < len (NewRequestData.prompt_token_ids request)) as Hp.
    { pose proof (len_nonneg (NewRequestData.prompt_token_ids request)).
      destruct (decide (len (NewRequestData.prompt_token_ids request) = 0)) as [E|]; [|lia].
      by apply len_zero_nil in E. }
    rewrite Hbp. case_bool_decide as E.
    - pose proof (ceil_div_bounds (len (NewRequestData.prompt_token_ids request))
                    (block_size cfg) Hbs). lia.
    - pose proof (ceil_div_bounds (tkv s) (block_size cfg) Hbs).
      pose proof (inv_tkv_positive cfg s Hinv E). lia. }
  apply fill_block_table_range in Hfill as (Hpool & Hlen & _); [|lia].
  assert (blocks <> []) as Hne.
  { intros ->. change (len []) with 0 in Hlen.
    pose proof (ceil_div_bounds bp (block_size cfg) Hbs). lia. }
  assert (update_states so s1
          = Ok (set_block_pool (block_pool s1 ++ blocks)
                  (set_req_ids2reserved_blocks (req_ids2reserved_blocks s)
                     (set_req_ids2blocks (req_ids2blocks s)
                        (set_requests (requests s)
                           (set_input_batch (input_batch s) s1)))))) as Hupd.
  { unfold update_states. rewrite (base_update_states_finished so s1 s1).
    2:{ by rewrite Hcached. }
    rewrite Hfin. cbn [mbind result_bind free_finished].
    unfold dpops, removes. cbn [foldl].
    rewrite HR, HI, dpop_snoc, remove_request_snoc by done.
    unfold free_finished_req. cbn [req_ids2blocks set_requests set_input_batch].
    rewrite HD, dget_middle, dpop_snoc by done.
    destruct blocks as [|x bl]; [done|].
    unfold dindex. simpl.
    rewrite HL, dget_middle by done. simpl. by rewrite dpop_snoc. }
  eexists _, blocks. split; [exact Hupd|]. simpl. split_and!; try done.
  unfold get_n_free_blocks. simpl. by rewrite HN.
Qed.

Lemma admit_then_finish_round_trip_witness :
  exists s2,
    update_states (SchedulerOutput.mk [] (CachedRequestData.mk [] [] []) ["d"] 0)
      Scenario.s4 = Ok s2
    /\ req_ids2reserved_blocks s2 = req_ids2reserved_blocks Scenario.s3
    /\ block_pool s2 = [6; 7; 3; 4; 5]
    /\ get_n_free_blocks s2 = get_n_free_blocks Scenario.s3.
Proof.
  destruct (admit_then_finish_round_trip Scenario.cfg Scenario.req_d
              (SchedulerOutput.mk [] (CachedRequestData.mk [] [] []) ["d"] 0)
              Scenario.s3 Scenario.s4
              (Scenario.mi_of (_prepare_prompt Scenario.cfg [Scenario.req_d] Scenario.s3)))
    as (s2 & blocks & Hupd & _ & HL & _ & _ & _ & _ & _ & Hfree).
  - apply scenario_s3_reachable.
  - change ("d" ∉ ["a"]). by intros [?|[]%elem_of_nil]%elem_of_cons.
  - done.
  - by vm_compute.
  - done.
  - done.
  - exists s2. split_and!; try done.
    vm_compute in Hupd. by injection Hupd as <-.
Defined.

(** ** Left padding and the prompt *)

(** X22. In every reachable state the left padding of a resident request
    is not negative and ends before its prompt does below the cursor:
    [left_padding + prompt_len <= tkv]. The prompt always lies in front of
    the cursor, so reclaiming left padding never reaches a prompt token. *)
Theorem prompt_below_cursor cfg s :
  reachable cfg s ->
  forall k r, dget k (requests s) = Some r ->
    0 <= CachedRequestState.left_padding r
    /\ CachedRequestState.left_padding r + len (CachedRequestState.prompt_token_ids r)
       <= tkv s.
Proof.
  intros Hreach k r Hr. split.
  { by apply (inv_request cfg s (reachable_inv cfg s Hreach) k), dget_elem_of. }
  revert k r Hr.
  induction Hreach as [nb Hnb | so s s' Hreach IH H | s s' Hreach IH H
                      | request s s' mi Hreach IH Hfresh Hprompt H
                      | crd s s' mi Hreach IH H | ids sampled s s' Hreach IH H];
    intros k r' Hr'.
  - done.
  - pose proof (reachable_inv cfg s Hreach) as Hinv.
    destruct (update_states_frame cfg so s s' Hinv H) as (Ht & _ & _ & s1 & Hs1 & Hreq).
    rewrite Hreq in Hr'. apply dget_dpops_Some in Hr'.
    2:{ rewrite (update_cached_reqs_keys _ _ _ _ Hs1), (inv_requests_keys cfg s Hinv).
        apply Hinv. }
    pose proof (update_cached_reqs_grows _ _ k _ _ Hs1) as G. rewrite Hr' in G.
    inversion G as [r ? Hg Hr0 |]; subst. symmetry in Hr0.
    specialize (IH k r Hr0). destruct Hg as (_ & Hp & _ & _ & _ & Hlp).
    rewrite Ht, Hp. lia.
  - pose proof (reachable_inv cfg s Hreach) as Hinv.
    destruct (reduce_left_padding_spec cfg s Hinv)
      as (n & s'' & _ & _ & E & Ht & Hreq & _).
    rewrite E in H. injection H as ->.
    rewrite Hreq, dget_prod_map in Hr'.
    destruct (dget k (requests s)) as [r|] eqn:Hr0; [|done]. injection Hr' as <-.
    specialize (IH k r Hr0). rewrite Ht. destruct r. simpl in *. lia.
  - pose proof (reachable_inv cfg s Hreach) as Hinv.
    apply _prepare_prompt_Ok in H
      as (sp & bp & blocks & slots & toks & pos & _ & _ & Htkv & _ & _ & _ & _ & HR & _).
    rewrite HR in Hr'. destruct (decide (NewRequestData.req_id request = k)) as [<-|Hne].
    + rewrite dget_dset_eq in Hr'. injection Hr' as <-. simpl. lia.
    + rewrite dget_dset_ne in Hr' by done. specialize (IH k r' Hr').
      rewrite Htkv, bool_decide_eq_false_2; [done|].
      intros E. by rewrite (inv_no_requests cfg s Hinv E) in Hr'.
  - apply _prepare_decode_Ok in H
      as (s1 & rows & Hloop & _ & _ & Ht & HR & _).
    apply decode_reqs_step in Hloop as (_ & _ & HR1 & _ & _ & Ht1 & _).
    rewrite HR, HR1 in Hr'. specialize (IH k r' Hr'). lia.
  - pose proof (append_sampled_grows _ _ k _ _ H) as G. rewrite Hr' in G.
    inversion G as [r ? Hg Hr0 |]; subst. symmetry in Hr0.
    specialize (IH k r Hr0). destruct Hg as (_ & Hp & _ & _ & _ & Hlp).
    apply append_sampled_frame in H as (_ & _ & _ & _ & Ht & _).
    rewrite Ht, Hp. lia.
Qed.

Lemma prompt_below_cursor_witness :
  exists r,
    dget "d" (requests Scenario.s5) = Some r
    /\ 0 <= CachedRequestState.left_padding r
    /\ CachedRequestState.left_padding r + len (CachedRequestState.prompt_token_ids r)
       <= tkv Scenario.s5.
Proof.
  eexists. split; [vm_compute; reflexivity|].
  apply (prompt_below_cursor Scenario.cfg Scenario.s5 scenario_s5_reachable "d").
  vm_compute; reflexivity.
Defined.
